(** * InfoGenius: storage service, research client and application controller

    A shallow embedding of the TypeScript sources in Rocq:

    - [services/storageService.ts] (and its earlier, environment-only
      revision): [getGCSConfig], [uploadToGCS];
    - [services/geminiService.ts]: the response parsing and citation
      de-duplication of [researchTopicForPrompt];
    - [App.tsx]: the state held by the [App] component and its event
      handlers [handleGenerate] and [handleEdit].

    JavaScript strings are sequences of UTF-16 code units; they are modelled
    as lists of [N].  Asynchronous code is written in a small state-and-
    exception monad; the outside world (HTTP endpoints, the model API, the
    clock) is a record of oracles. *)

From Stdlib Require Import List NArith Bool String Ascii Lia Arith.
Import ListNotations.

Set Implicit Arguments.

(* ================================================================== *)
(** * JavaScript strings and values *)
(* ================================================================== *)

Module JS.

Local Open Scope N_scope.

Definition jsstring := list N.

(** A literal of the source text, as code units. *)
Definition lit (s : string) : jsstring :=
  List.map N_of_ascii (list_ascii_of_string s).

Arguments lit : simpl never.

(** ** Values that flow through [||], [&&] and [!] *)

Inductive jsval :=
| JUndefined
| JNull
| JStr (s : jsstring).

(** ToBoolean: [undefined], [null] and the empty string are falsy. *)
Definition truthy (v : jsval) : bool :=
  match v with
  | JStr (_ :: _) => true
  | _ => false
  end.

(** [a || b] *)
Definition jsor (a b : jsval) : jsval := if truthy a then a else b.

(** Template-literal interpolation [`${v}`]. *)
Definition toStr (v : jsval) : jsstring :=
  match v with
  | JUndefined => lit "undefined"
  | JNull => lit "null"
  | JStr s => s
  end.

(** ** White space: the set stripped by [String.prototype.trim] and matched
    by [\s] (WhiteSpace and LineTerminator code points). *)
Definition isWhiteSpace (c : N) : bool :=
  ((9 <=? c) && (c <=? 13))
  || (c =? 32) || (c =? 160) || (c =? 5760)
  || ((8192 <=? c) && (c <=? 8202))
  || (c =? 8232) || (c =? 8233) || (c =? 8239) || (c =? 8287)
  || (c =? 12288) || (c =? 65279).

Fixpoint dropWhile (A : Type) (p : A -> bool) (l : list A) : list A :=
  match l with
  | [] => []
  | x :: t => if p x then dropWhile p t else l
  end.

Definition trimStart (s : jsstring) : jsstring := dropWhile isWhiteSpace s.
Definition trimEnd (s : jsstring) : jsstring :=
  rev (dropWhile isWhiteSpace (rev s)).
Definition trim (s : jsstring) : jsstring := trimEnd (trimStart s).

(** ** [startsWith], [includes] *)

Fixpoint startsWith (pat s : jsstring) : bool :=
  match pat, s with
  | [], _ => true
  | p :: pat', c :: s' => (c =? p) && startsWith pat' s'
  | _ :: _, [] => false
  end.

Fixpoint includes (pat s : jsstring) : bool :=
  startsWith pat s ||
  match s with
  | [] => false
  | _ :: t => includes pat t
  end.

(** ** [split] on a one-code-unit separator and [join] *)

Fixpoint split (sep : N) (s : jsstring) : list jsstring :=
  match s with
  | [] => [[]]
  | c :: t =>
      if c =? sep then [] :: split sep t
      else match split sep t with
           | h :: r => (c :: h) :: r
           | [] => [[c]]
           end
  end.

Fixpoint join (sep : jsstring) (l : list jsstring) : jsstring :=
  match l with
  | [] => []
  | [x] => x
  | x :: r => x ++ sep ++ join sep r
  end.

(** ** Case-insensitive matching of an ASCII pattern (the [i] flag)

    Without the [u] flag a character is compared after Canonicalize, which
    upper-cases it but never maps a code unit of 128 or more to one below
    128.  Against a pattern of ASCII characters the comparison is therefore
    decided by upper-casing [a]..[z] alone. *)
Definition canon (c : N) : N :=
  if (97 <=? c) && (c <=? 122) then c - 32 else c.

Definition ci_eqb (c p : N) : bool := canon c =? canon p.

(** [stripPrefix_ci pat s]: what follows [pat] when [s] starts with it. *)
Fixpoint stripPrefix_ci (pat s : jsstring) : option jsstring :=
  match pat, s with
  | [], _ => Some s
  | p :: pat', c :: s' => if ci_eqb c p then stripPrefix_ci pat' s' else None
  | _ :: _, [] => None
  end.

(** Leftmost occurrence of [pat]: the text after it. *)
Fixpoint searchAfter_ci (pat s : jsstring) : option jsstring :=
  match stripPrefix_ci pat s with
  | Some rest => Some rest
  | None =>
      match s with
      | [] => None
      | _ :: t => searchAfter_ci pat t
      end
  end.

(** The lazy group [([\s\S]*?)] in front of the look-ahead
    [(?=pat|$)]: the shortest prefix after which [pat] or the end of the
    input follows. *)
Fixpoint lazyUntil_ci (pat s : jsstring) : jsstring :=
  match stripPrefix_ci pat s with
  | Some _ => []
  | None =>
      match s with
      | [] => []
      | c :: t => c :: lazyUntil_ci pat t
      end
  end.

(** ** [Number.prototype.toString] on a non-negative integer *)

Fixpoint digits (d : Decimal.uint) : jsstring :=
  match d with
  | Decimal.Nil => []
  | Decimal.D0 r => 48 :: digits r
  | Decimal.D1 r => 49 :: digits r
  | Decimal.D2 r => 50 :: digits r
  | Decimal.D3 r => 51 :: digits r
  | Decimal.D4 r => 52 :: digits r
  | Decimal.D5 r => 53 :: digits r
  | Decimal.D6 r => 54 :: digits r
  | Decimal.D7 r => 55 :: digits r
  | Decimal.D8 r => 56 :: digits r
  | Decimal.D9 r => 57 :: digits r
  end.

Definition numToString (n : N) : jsstring := digits (N.to_uint n).

End JS.

Import JS.

(* ================================================================== *)
(** * Effects: thrown errors, the event trace, the outside world *)
(* ================================================================== *)

Module Effects.

(** Thrown values are [Error] instances; only [message] is ever read. *)
Record jserror := Error { message : jsstring }.

Inductive completion (A : Type) :=
| Returned (a : A)
| Threw (e : jserror).
Arguments Returned {A} a.
Arguments Threw {A} e.

(** The decoded bytes of an image. *)
Definition Blob := list N.

(** One content part of a model request or response. *)
Inductive Part :=
| TextPart (text : jsstring)
| InlineData (mimeType : jsval) (data : jsval).

(** [groundingChunks[i]]: [web] may be missing, and so may its fields. *)
Record WebChunk := { uri : jsval; web_title : jsval }.
Record GroundingChunk := { web : option WebChunk }.

Record GenRequest := {
  req_model : jsstring;
  req_parts : list Part;
  req_googleSearch : bool;
  req_imageConfig : option (jsstring * jsstring)
}.

Record GenResponse := {
  resp_text : jsval;
  resp_parts : option (list Part);
  resp_groundingChunks : option (list GroundingChunk)
}.

Record HttpResponse := {
  status : N;
  bodyText : completion jsstring
}.

(** Everything observable from outside the component. *)
Inductive Event :=
| ConsoleDebug (msg : jsstring)
| ConsoleWarn (msg : jsstring)
| ConsoleLog (msg : jsstring)
| ConsoleError (msg : jsstring) (err : option jserror)
| FetchData (url : jsstring)
| FetchPost (url authorization contentType : jsstring) (body : Blob)
| GenerateContent (request : GenRequest)
| DateNow
| StartUpload (base64Data id : jsstring).

(** The outside world answers as a function of what has happened so far. *)
Record Oracle := {
  fetchBlob : list Event -> jsstring -> completion Blob;
  fetchUpload :
    list Event -> jsstring -> jsstring -> jsstring -> Blob ->
    completion HttpResponse;
  generateContent : list Event -> GenRequest -> completion GenResponse;
  clock : list Event -> N
}.

(** [process.env] as injected by the build, and the two [localStorage] keys
    of the settings dialog. *)
Record Environment := {
  GCS_BUCKET_NAME : jsval;
  GCS_ACCESS_TOKEN : jsval;
  GCS_CREDENTIALS : jsval;
  gcs_bucket_override : jsval;
  gcs_token_override : jsval
}.

(** ** The monad: a store of type [S], the trace, and exceptions *)

Record World (S : Type) := { store : S; trace : list Event }.

Definition M (S A : Type) := World S -> completion A * World S.

Section Monad.
Variable S : Type.

Definition ret (A : Type) (a : A) : M S A := fun w => (Returned a, w).

Definition bind (A B : Type) (m : M S A) (k : A -> M S B) : M S B :=
  fun w =>
    match m w with
    | (Returned a, w') => k a w'
    | (Threw e, w') => (Threw e, w')
    end.

Definition throw (A : Type) (e : jserror) : M S A := fun w => (Threw e, w).

(** [try { body } catch (e) { handler e }] *)
Definition tryCatch (A : Type) (body : M S A) (handler : jserror -> M S A)
  : M S A :=
  fun w =>
    match body w with
    | (Returned a, w') => (Returned a, w')
    | (Threw e, w') => handler e w'
    end.

(** [try { body } finally { fin }] *)
Definition tryFinally (A : Type) (body : M S A) (fin : M S unit) : M S A :=
  fun w =>
    match body w with
    | (r, w') =>
        match fin w' with
        | (Returned _, w'') => (r, w'')
        | (Threw e, w'') => (Threw e, w'')
        end
    end.

Definition emit (e : Event) : M S unit :=
  fun w => (Returned tt, {| store := store w; trace := trace w ++ [e] |}).

(** An awaited operation: it is recorded, then the world answers. *)
Definition await (A : Type) (e : Event)
  (answer : list Event -> completion A) : M S A :=
  fun w =>
    (answer (trace w), {| store := store w; trace := trace w ++ [e] |}).

Definition update (f : S -> S) : M S unit :=
  fun w => (Returned tt, {| store := f (store w); trace := trace w |}).

Definition liftCompletion (A : Type) (c : completion A) : M S A :=
  fun w => (c, w).

End Monad.

Arguments ret {S A} a.
Arguments throw {S A} e.
Arguments emit {S} e.
Arguments await {S A} e answer.
Arguments update {S} f.
Arguments liftCompletion {S A} c.

Declare Scope js_scope.
Delimit Scope js_scope with js.
Notation "x <- m ;; k" := (bind m (fun x => k))
  (at level 61, m at next level, right associativity) : js_scope.
Notation "m ;; k" := (bind m (fun _ => k))
  (at level 61, right associativity) : js_scope.

End Effects.

Import Effects.
Local Open Scope js_scope.

(* ================================================================== *)
(** * services/storageService.ts *)
(* ================================================================== *)

Module StorageService.

Inductive ConfigSource := manual | env | none.

Record GCSConfig := {
  bucket : jsval;
  token : jsval;
  isConfigured : bool;
  source : ConfigSource
}.

Definition getGCSConfig (e : Environment) : GCSConfig :=
  let envBucket := GCS_BUCKET_NAME e in
  let envToken := jsor (GCS_ACCESS_TOKEN e) (GCS_CREDENTIALS e) in
  let localBucket := gcs_bucket_override e in
  let localToken := gcs_token_override e in
  {| bucket := jsor (jsor localBucket envBucket) (JStr []);
     token := jsor (jsor localToken envToken) (JStr []);
     isConfigured :=
       truthy (jsor localBucket envBucket) && truthy (jsor localToken envToken);
     source :=
       if truthy (jsor localBucket localToken) then manual
       else if truthy (jsor envBucket envToken) then env
       else none |}.

(** [base64Data.match(/^data:([^;]+);base64,/)]: the first group. *)
Definition mimeMatch (base64Data : jsstring) : option jsstring :=
  if startsWith (lit "data:") base64Data then
    let rest := skipn 5 base64Data in
    let notSemi := fun c => negb (N.eqb c 59) in
    let tail := dropWhile notSemi rest in
    let group := firstn (List.length rest - List.length tail) rest in
    match group with
    | [] => None
    | _ :: _ => if startsWith (lit ";base64,") tail then Some group else None
    end
  else None.

(** [mimeMatch ? mimeMatch[1] : 'image/png'] *)
Definition mimeType (base64Data : jsstring) : jsstring :=
  match mimeMatch base64Data with
  | Some m => m
  | None => lit "image/png"
  end.

(** [`infographic_${id}.png`] *)
Definition fileName (id : jsstring) : jsstring :=
  lit "infographic_" ++ id ++ lit ".png".

Definition uploadUrl (bucket : jsval) (id : jsstring) : jsstring :=
  lit "https://storage.googleapis.com/upload/storage/v1/b/"
  ++ toStr bucket ++ lit "/o?uploadType=media&name=" ++ fileName id.

(** The [Authorization] header. *)
Definition bearer (token : jsval) : jsstring := lit "Bearer " ++ toStr token.

(** [response.ok] *)
Definition ok (r : HttpResponse) : bool :=
  N.leb 200 (status r) && N.leb (status r) 299.

Definition failedToSave : jsstring :=
  lit "Failed to automatically save graphic to GCS:".

Section Upload.
Variable S : Type.
Variable world : Oracle.
Variable environment : Environment.

Definition uploadToGCS (base64Data id : jsstring) : M S bool :=
  let config := getGCSConfig environment in
  if negb (isConfigured config) then
    emit (ConsoleDebug (lit "GCS Upload skipped: Configuration missing.")) ;;
    ret false
  else
    tryCatch
      (blob <- await (FetchData base64Data)
                 (fun t => fetchBlob world t base64Data) ;;
       response <- await
                     (FetchPost (uploadUrl (bucket config) id)
                        (bearer (token config)) (mimeType base64Data) blob)
                     (fun t =>
                        fetchUpload world t (uploadUrl (bucket config) id)
                          (bearer (token config)) (mimeType base64Data)
                          blob) ;;
       (if negb (ok response) then
          errorText <- liftCompletion (bodyText response) ;;
          (if N.eqb (status response) 401 || N.eqb (status response) 403
           then emit (ConsoleError
                        (lit "GCS Auth Error: Token likely expired.") None)
           else ret tt) ;;
          throw (Error (lit "GCS API error ("
                        ++ numToString (status response)
                        ++ lit "): " ++ errorText))
        else ret tt) ;;
       emit (ConsoleLog (lit "Successfully backed up " ++ fileName id
                         ++ lit " to GCS bucket: " ++ toStr (bucket config))) ;;
       ret true)
      (fun error =>
         emit (ConsoleError failedToSave (Some error)) ;;
         ret false).

End Upload.

End StorageService.

(** ** The earlier revision of the uploader: environment variables only,
    no result value *)

Module StorageServiceEnvOnly.

Import StorageService.

Section Upload.
Variable S : Type.
Variable world : Oracle.
Variable environment : Environment.

Definition uploadToGCS (base64Data id : jsstring) : M S unit :=
  let bucket := GCS_BUCKET_NAME environment in
  let token :=
    jsor (GCS_ACCESS_TOKEN environment) (GCS_CREDENTIALS environment) in
  if negb (truthy bucket) || negb (truthy token) then
    emit (ConsoleWarn (lit "GCS Upload skipped: GCS_BUCKET_NAME or GCS_ACCESS_TOKEN (credentials) environment variables are not defined.")) ;;
    ret tt
  else
    tryCatch
      (blob <- await (FetchData base64Data)
                 (fun t => fetchBlob world t base64Data) ;;
       response <- await
                     (FetchPost (uploadUrl bucket id) (bearer token)
                        (mimeType base64Data) blob)
                     (fun t =>
                        fetchUpload world t (uploadUrl bucket id)
                          (bearer token) (mimeType base64Data) blob) ;;
       (if negb (ok response) then
          errorText <- liftCompletion (bodyText response) ;;
          throw (Error (lit "GCS API error ("
                        ++ numToString (status response)
                        ++ lit "): " ++ errorText))
        else ret tt) ;;
       emit (ConsoleLog (lit "Successfully backed up " ++ fileName id
                         ++ lit " to GCS bucket: " ++ toStr bucket)))
      (fun error =>
         emit (ConsoleError failedToSave (Some error))).

End Upload.

End StorageServiceEnvOnly.

(* ================================================================== *)
(** * types.ts *)
(* ================================================================== *)

(** Modelled from the spec: [types.ts] is not among the sources.  The
    records carry the fields the code constructs and reads (section 3 of the
    specification); the string-literal unions [ComplexityLevel],
    [VisualStyle], [Language], [AspectRatio] and [ImageResolution] are
    strings at run time. *)
Module SearchResultItem.
Record t := Build { title : jsstring; url : jsstring }.
End SearchResultItem.

Module ResearchResult.
Record t := Build {
  imagePrompt : jsstring;
  facts : list jsstring;
  searchResults : list SearchResultItem.t
}.
End ResearchResult.

Module GeneratedImage.
Record t := Build {
  id : jsstring;
  data : jsstring;
  prompt : jsstring;
  timestamp : N;
  level : jsstring;
  style : jsstring;
  language : jsstring;
  aspectRatio : jsstring;
  resolution : jsstring
}.
End GeneratedImage.

(* ================================================================== *)
(** * services/geminiService.ts *)
(* ================================================================== *)

Module GeminiService.

Fixpoint streqb (a b : jsstring) : bool :=
  match a, b with
  | [], [] => true
  | x :: a', y :: b' => N.eqb x y && streqb a' b'
  | _, _ => false
  end.

Definition TEXT_MODEL := lit "gemini-3-pro-preview".
Definition IMAGE_MODEL := lit "gemini-3-pro-image-preview".
Definition EDIT_MODEL := lit "gemini-3-pro-image-preview".

Definition getLevelInstruction (level : jsstring) : jsstring :=
  if streqb level (lit "Elementary") then
    lit "Target Audience: Elementary School (Ages 6-10). Style: Bright, simple, fun. Use large clear icons and very minimal text labels."
  else if streqb level (lit "High School") then
    lit "Target Audience: High School. Style: Standard Textbook. Clean lines, clear labels, accurate maps or diagrams. Avoid cartoony elements."
  else if streqb level (lit "College") then
    lit "Target Audience: University. Style: Academic Journal. High detail, data-rich, precise cross-sections or complex schematics."
  else if streqb level (lit "Expert") then
    lit "Target Audience: Industry Expert. Style: Technical Blueprint/Schematic. Extremely dense detail, monochrome or technical coloring, precise annotations."
  else
    lit "Target Audience: General Public. Style: Clear and engaging.".

Definition getStyleInstruction (style : jsstring) : jsstring :=
  if streqb style (lit "Minimalist") then
    lit "Aesthetic: Bauhaus Minimalist. Flat vector art, limited color palette (2-3 colors), reliance on negative space and simple geometric shapes."
  else if streqb style (lit "Realistic") then
    lit "Aesthetic: Photorealistic Composite. Cinematic lighting, 8k resolution, highly detailed textures. Looks like a photograph."
  else if streqb style (lit "Cartoon") then
    lit "Aesthetic: Educational Comic. Vibrant colors, thick outlines, expressive cel-shaded style."
  else if streqb style (lit "Vintage") then
    lit "Aesthetic: 19th Century Scientific Lithograph. Engraving style, sepia tones, textured paper background, fine hatch lines."
  else if streqb style (lit "Futuristic") then
    lit "Aesthetic: Cyberpunk HUD. Glowing neon blue/cyan lines on dark background, holographic data visualization, 3D wireframes."
  else if streqb style (lit "3D Render") then
    lit "Aesthetic: 3D Isometric Render. Claymorphism or high-gloss plastic texture, studio lighting, soft shadows, looks like a physical model."
  else if streqb style (lit "Sketch") then
    lit "Aesthetic: Da Vinci Notebook. Ink on parchment sketch, handwritten annotations style, rough but accurate lines."
  else
    lit "Aesthetic: High-quality digital scientific illustration. Clean, modern, highly detailed.".

Definition nl : jsstring := [10%N].
Definition quote : jsstring := [34%N].

(** The instruction text sent to the text model, line by line. *)
Definition systemPrompt (topic levelInstr styleInstr language : jsstring)
  (context : jsval) : jsstring :=
  join nl
    [ [];
      lit "    You are an expert visual researcher.";
      lit "    Your goal is to research the topic: " ++ quote ++ topic ++ quote
        ++ lit " and create a plan for an infographic.";
      lit "    ";
      lit "    **IMPORTANT: Use the Google Search tool to find the most accurate, up-to-date information about this topic.**";
      lit "    ";
      lit "    Context:";
      lit "    " ++ levelInstr;
      lit "    " ++ styleInstr;
      lit "    Language: " ++ language;
      [];
      lit "    " ++
        (if truthy context then
           join nl
             [ [];
               lit "    ADDITIONAL USER CONTEXT:";
               lit "    The user has provided the following context.";
               lit "    If it is a file content, use it as a primary source.";
               lit "    If it is a URL, use the Google Search tool to visit and verify the content of the URL if needed, and use it as a primary source.";
               lit "    ";
               lit "    --- BEGIN CONTEXT ---";
               lit "    " ++ toStr context;
               lit "    --- END CONTEXT ---";
               lit "    " ]
         else []);
      lit "    ";
      lit "    Please provide your response in the following format EXACTLY:";
      lit "    ";
      lit "    FACTS:";
      lit "    - [Fact 1]";
      lit "    - [Fact 2]";
      lit "    - [Fact 3]";
      lit "    ";
      lit "    IMAGE_PROMPT:";
      lit "    [A highly detailed image generation prompt describing the visual composition, colors, and layout for the infographic. Do not include citations in the prompt.]";
      lit "  " ].

(** ** Parsing the answer *)

(** [text.match(/FACTS:\s*([\s\S]*?)(?=IMAGE_PROMPT:|$)/i)]: group 1.  Once
    [FACTS:] is found the rest always matches (the look-ahead holds at the
    end of the input at the latest), so the match starts at the leftmost
    [FACTS:] and [\s*] keeps all the white space it can take. *)
Definition factsMatch (text : jsstring) : option jsstring :=
  match searchAfter_ci (lit "FACTS:") text with
  | Some rest =>
      Some (lazyUntil_ci (lit "IMAGE_PROMPT:") (dropWhile isWhiteSpace rest))
  | None => None
  end.

(** [f.replace(/^-\s*/, '')] *)
Definition stripDash (f : jsstring) : jsstring :=
  match f with
  | 45%N :: r => dropWhile isWhiteSpace r
  | _ => f
  end.

Definition nonEmpty (f : jsstring) : bool :=
  match f with [] => false | _ :: _ => true end.

(** [factsMatch ? factsMatch[1].trim() : ''] *)
Definition factsRaw (text : jsstring) : jsstring :=
  match factsMatch text with
  | Some g => trim g
  | None => []
  end.

Definition parseFacts (text : jsstring) : list jsstring :=
  firstn 5
    (filter nonEmpty
       (List.map (fun f => trim (stripDash f)) (split 10 (factsRaw text)))).

(** [text.match(/IMAGE_PROMPT:\s*([\s\S]*?)$/i)]: group 1. *)
Definition promptMatch (text : jsstring) : option jsstring :=
  match searchAfter_ci (lit "IMAGE_PROMPT:") text with
  | Some rest => Some (dropWhile isWhiteSpace rest)
  | None => None
  end.

Definition parseImagePrompt (text topic levelInstr styleInstr : jsstring)
  : jsstring :=
  match promptMatch text with
  | Some g => trim g
  | None =>
      lit "Create a detailed infographic about " ++ topic ++ lit ". "
      ++ levelInstr ++ lit " " ++ styleInstr
  end.

(** ** Grounding citations *)

(** The [forEach] over the chunks: those with a truthy [uri] and [title]. *)
Definition collectSearchResults (chunks : option (list GroundingChunk))
  : list SearchResultItem.t :=
  match chunks with
  | None => []
  | Some cs =>
      flat_map
        (fun chunk =>
           match web chunk with
           | Some w =>
               if truthy (uri w) && truthy (web_title w)
               then [SearchResultItem.Build (toStr (web_title w))
                       (toStr (uri w))]
               else []
           | None => []
           end)
        cs
  end.

(** A JavaScript [Map] with string keys: its entries in insertion order.
    [set] on a key already present replaces the value where the key
    stands. *)
Section JsMap.
Variable V : Type.

Definition Map := list (jsstring * V).

Fixpoint mapSet (k : jsstring) (v : V) (m : Map) : Map :=
  match m with
  | [] => [(k, v)]
  | (k', v') :: r =>
      if streqb k' k then (k', v) :: r else (k', v') :: mapSet k v r
  end.

(** [new Map(entries)] *)
Definition newMap (entries : list (jsstring * V)) : Map :=
  fold_left (fun m kv => mapSet (fst kv) (snd kv) m) entries [].

(** [Array.from(m.values())] *)
Definition mapValues (m : Map) : list V := List.map snd m.

End JsMap.

Definition uniqueResults (searchResults : list SearchResultItem.t)
  : list SearchResultItem.t :=
  mapValues
    (newMap
       (List.map (fun item => (SearchResultItem.url item, item))
          searchResults)).

(** [response.text || ''] *)
Definition responseText (response : GenResponse) : jsstring :=
  if truthy (resp_text response) then toStr (resp_text response) else [].

(** The part of [researchTopicForPrompt] that follows the request. *)
Definition parseResearch (topic levelInstr styleInstr : jsstring)
  (response : GenResponse) : ResearchResult.t :=
  let text := responseText response in
  ResearchResult.Build
    (parseImagePrompt text topic levelInstr styleInstr)
    (parseFacts text)
    (uniqueResults (collectSearchResults (resp_groundingChunks response))).

(** The first part carrying inline image bytes, as a PNG data URI. *)
Fixpoint firstInlineImage (parts : list Part) : option jsstring :=
  match parts with
  | [] => None
  | InlineData _ d :: r =>
      if truthy d then Some (lit "data:image/png;base64," ++ toStr d)
      else firstInlineImage r
  | TextPart _ :: r => firstInlineImage r
  end.

(** [s.replace(/^data:image\/(png|jpeg|jpg);base64,/, '')] *)
Definition cleanBase64 (s : jsstring) : jsstring :=
  if startsWith (lit "data:image/png;base64,") s then skipn 22 s
  else if startsWith (lit "data:image/jpeg;base64,") s then skipn 23 s
  else if startsWith (lit "data:image/jpg;base64,") s then skipn 22 s
  else s.

(** The three requests. *)
Definition researchRequest (topic level style language : jsstring)
  (context : jsval) : GenRequest :=
  {| req_model := TEXT_MODEL;
     req_parts :=
       [TextPart
          (systemPrompt topic (getLevelInstruction level)
             (getStyleInstruction style) language context)];
     req_googleSearch := true;
     req_imageConfig := None |}.

Definition imageRequest (prompt aspectRatio resolution : jsstring)
  : GenRequest :=
  {| req_model := IMAGE_MODEL;
     req_parts := [TextPart prompt];
     req_googleSearch := false;
     req_imageConfig := Some (aspectRatio, resolution) |}.

Definition editRequest (currentImageBase64 editInstruction : jsstring)
  : GenRequest :=
  {| req_model := EDIT_MODEL;
     req_parts :=
       [InlineData (JStr (lit "image/jpeg"))
          (JStr (cleanBase64 currentImageBase64));
        TextPart editInstruction];
     req_googleSearch := false;
     req_imageConfig := None |}.

Definition partsOf (response : GenResponse) : list Part :=
  match resp_parts response with
  | Some ps => ps
  | None => []
  end.

Section Client.
Variable S : Type.
Variable world : Oracle.

(** [await getAi().models.generateContent(request)] *)
Definition callModel (request : GenRequest) : M S GenResponse :=
  await (GenerateContent request) (fun t => generateContent world t request).

Definition researchTopicForPrompt
  (topic level style language : jsstring) (context : jsval)
  : M S ResearchResult.t :=
  let levelInstr := getLevelInstruction level in
  let styleInstr := getStyleInstruction style in
  response <- callModel
                (researchRequest topic level style language context) ;;
  ret (parseResearch topic levelInstr styleInstr response).

Definition generateInfographicImage (prompt aspectRatio resolution : jsstring)
  : M S jsstring :=
  response <- callModel (imageRequest prompt aspectRatio resolution) ;;
  match firstInlineImage (partsOf response) with
  | Some d => ret d
  | None => throw (Error (lit "Failed to generate image"))
  end.

Definition editInfographicImage (currentImageBase64 editInstruction : jsstring)
  : M S jsstring :=
  response <- callModel (editRequest currentImageBase64 editInstruction) ;;
  match firstInlineImage (partsOf response) with
  | Some d => ret d
  | None => throw (Error (lit "Failed to edit image"))
  end.

End Client.

End GeminiService.

(* ================================================================== *)
(** * App.tsx *)
(* ================================================================== *)

Module ContextSource.
Inductive kind := file | url.
Record t := Build {
  id : jsstring;
  type : kind;
  name : jsstring;
  content : jsstring
}.
End ContextSource.

Module App.

Import GeminiService.

(** The file holds two revisions of the component.  The one modelled is the
    revision with the storage settings, which goes with
    [services/storageService.ts]; in the other one the handlers are the
    same but for the upload, which is started without the [isSyncing]
    indicator.

    A handler is run in the closure of the render that saw the state [s]:
    it reads its values from [s] and writes through the setters.  A cycle
    is run to its end, with no other event between its awaited steps. *)

(** The [useState] cells of the [App] component. *)
Record AppState := {
  topic : jsstring;
  activeImageId : jsval;
  complexityLevel : jsstring;
  visualStyle : jsstring;
  language : jsstring;
  aspectRatio : jsstring;
  resolution : jsstring;
  isLoading : bool;
  isSyncing : bool;
  loadingMessage : jsstring;
  loadingStep : N;
  loadingFacts : list jsstring;
  error : jsval;
  imageHistory : list GeneratedImage.t;
  currentSearchResults : list SearchResultItem.t;
  isDarkMode : bool;
  showStorageModal : bool;
  storageStatus : StorageService.GCSConfig;
  contextSources : list ContextSource.t;
  showContextOptions : bool;
  showUrlInput : bool;
  urlInputValue : jsstring;
  hasApiKey : bool;
  checkingKey : bool
}.

Definition initialState (environment : Environment) : AppState :=
  {| topic := [];
     activeImageId := JNull;
     complexityLevel := lit "Expert";
     visualStyle := lit "Default";
     language := lit "English";
     aspectRatio := lit "16:9";
     resolution := lit "1K";
     isLoading := false;
     isSyncing := false;
     loadingMessage := [];
     loadingStep := 0;
     loadingFacts := [];
     error := JNull;
     imageHistory := [];
     currentSearchResults := [];
     isDarkMode := true;
     showStorageModal := false;
     storageStatus := StorageService.getGCSConfig environment;
     contextSources := [];
     showContextOptions := false;
     showUrlInput := false;
     urlInputValue := [];
     hasApiKey := false;
     checkingKey := true |}.

(** ** The state setters the two handlers call

    [setX v] replaces the cell [X] and leaves the others; [setImageHistory]
    is called with a function of the previous value. *)

Definition withIsLoading (v : bool) (s : AppState)
  : AppState :=
  {| topic := topic s; activeImageId := activeImageId s; complexityLevel
     := complexityLevel s; visualStyle := visualStyle s; language :=
     language s; aspectRatio := aspectRatio s; resolution := resolution s;
     isLoading := v; isSyncing := isSyncing s; loadingMessage :=
     loadingMessage s; loadingStep := loadingStep s; loadingFacts :=
     loadingFacts s; error := error s; imageHistory := imageHistory s;
     currentSearchResults := currentSearchResults s; isDarkMode :=
     isDarkMode s; showStorageModal := showStorageModal s; storageStatus
     := storageStatus s; contextSources := contextSources s;
     showContextOptions := showContextOptions s; showUrlInput :=
     showUrlInput s; urlInputValue := urlInputValue s; hasApiKey :=
     hasApiKey s; checkingKey := checkingKey s |}.

Definition setIsLoading (v : bool) : M AppState unit :=
  update (withIsLoading v).

Definition withIsSyncing (v : bool) (s : AppState)
  : AppState :=
  {| topic := topic s; activeImageId := activeImageId s; complexityLevel
     := complexityLevel s; visualStyle := visualStyle s; language :=
     language s; aspectRatio := aspectRatio s; resolution := resolution s;
     isLoading := isLoading s; isSyncing := v; loadingMessage :=
     loadingMessage s; loadingStep := loadingStep s; loadingFacts :=
     loadingFacts s; error := error s; imageHistory := imageHistory s;
     currentSearchResults := currentSearchResults s; isDarkMode :=
     isDarkMode s; showStorageModal := showStorageModal s; storageStatus
     := storageStatus s; contextSources := contextSources s;
     showContextOptions := showContextOptions s; showUrlInput :=
     showUrlInput s; urlInputValue := urlInputValue s; hasApiKey :=
     hasApiKey s; checkingKey := checkingKey s |}.

Definition setIsSyncing (v : bool) : M AppState unit :=
  update (withIsSyncing v).

Definition withLoadingMessage (v : jsstring) (s : AppState)
  : AppState :=
  {| topic := topic s; activeImageId := activeImageId s; complexityLevel
     := complexityLevel s; visualStyle := visualStyle s; language :=
     language s; aspectRatio := aspectRatio s; resolution := resolution s;
     isLoading := isLoading s; isSyncing := isSyncing s; loadingMessage :=
     v; loadingStep := loadingStep s; loadingFacts := loadingFacts s;
     error := error s; imageHistory := imageHistory s;
     currentSearchResults := currentSearchResults s; isDarkMode :=
     isDarkMode s; showStorageModal := showStorageModal s; storageStatus
     := storageStatus s; contextSources := contextSources s;
     showContextOptions := showContextOptions s; showUrlInput :=
     showUrlInput s; urlInputValue := urlInputValue s; hasApiKey :=
     hasApiKey s; checkingKey := checkingKey s |}.

Definition setLoadingMessage (v : jsstring) : M AppState unit :=
  update (withLoadingMessage v).

Definition withLoadingStep (v : N) (s : AppState)
  : AppState :=
  {| topic := topic s; activeImageId := activeImageId s; complexityLevel
     := complexityLevel s; visualStyle := visualStyle s; language :=
     language s; aspectRatio := aspectRatio s; resolution := resolution s;
     isLoading := isLoading s; isSyncing := isSyncing s; loadingMessage :=
     loadingMessage s; loadingStep := v; loadingFacts := loadingFacts s;
     error := error s; imageHistory := imageHistory s;
     currentSearchResults := currentSearchResults s; isDarkMode :=
     isDarkMode s; showStorageModal := showStorageModal s; storageStatus
     := storageStatus s; contextSources := contextSources s;
     showContextOptions := showContextOptions s; showUrlInput :=
     showUrlInput s; urlInputValue := urlInputValue s; hasApiKey :=
     hasApiKey s; checkingKey := checkingKey s |}.

Definition setLoadingStep (v : N) : M AppState unit :=
  update (withLoadingStep v).

Definition withLoadingFacts (v : list jsstring) (s : AppState)
  : AppState :=
  {| topic := topic s; activeImageId := activeImageId s; complexityLevel
     := complexityLevel s; visualStyle := visualStyle s; language :=
     language s; aspectRatio := aspectRatio s; resolution := resolution s;
     isLoading := isLoading s; isSyncing := isSyncing s; loadingMessage :=
     loadingMessage s; loadingStep := loadingStep s; loadingFacts := v;
     error := error s; imageHistory := imageHistory s;
     currentSearchResults := currentSearchResults s; isDarkMode :=
     isDarkMode s; showStorageModal := showStorageModal s; storageStatus
     := storageStatus s; contextSources := contextSources s;
     showContextOptions := showContextOptions s; showUrlInput :=
     showUrlInput s; urlInputValue := urlInputValue s; hasApiKey :=
     hasApiKey s; checkingKey := checkingKey s |}.

Definition setLoadingFacts (v : list jsstring) : M AppState unit :=
  update (withLoadingFacts v).

Definition withError (v : jsval) (s : AppState)
  : AppState :=
  {| topic := topic s; activeImageId := activeImageId s; complexityLevel
     := complexityLevel s; visualStyle := visualStyle s; language :=
     language s; aspectRatio := aspectRatio s; resolution := resolution s;
     isLoading := isLoading s; isSyncing := isSyncing s; loadingMessage :=
     loadingMessage s; loadingStep := loadingStep s; loadingFacts :=
     loadingFacts s; error := v; imageHistory := imageHistory s;
     currentSearchResults := currentSearchResults s; isDarkMode :=
     isDarkMode s; showStorageModal := showStorageModal s; storageStatus
     := storageStatus s; contextSources := contextSources s;
     showContextOptions := showContextOptions s; showUrlInput :=
     showUrlInput s; urlInputValue := urlInputValue s; hasApiKey :=
     hasApiKey s; checkingKey := checkingKey s |}.

Definition setError (v : jsval) : M AppState unit :=
  update (withError v).

Definition withImageHistory (f : list GeneratedImage.t -> list GeneratedImage.t) (s : AppState)
  : AppState :=
  {| topic := topic s; activeImageId := activeImageId s; complexityLevel
     := complexityLevel s; visualStyle := visualStyle s; language :=
     language s; aspectRatio := aspectRatio s; resolution := resolution s;
     isLoading := isLoading s; isSyncing := isSyncing s; loadingMessage :=
     loadingMessage s; loadingStep := loadingStep s; loadingFacts :=
     loadingFacts s; error := error s; imageHistory := f (imageHistory s);
     currentSearchResults := currentSearchResults s; isDarkMode :=
     isDarkMode s; showStorageModal := showStorageModal s; storageStatus
     := storageStatus s; contextSources := contextSources s;
     showContextOptions := showContextOptions s; showUrlInput :=
     showUrlInput s; urlInputValue := urlInputValue s; hasApiKey :=
     hasApiKey s; checkingKey := checkingKey s |}.

Definition setImageHistory (f : list GeneratedImage.t -> list GeneratedImage.t) : M AppState unit :=
  update (withImageHistory f).

Definition withActiveImageId (v : jsval) (s : AppState)
  : AppState :=
  {| topic := topic s; activeImageId := v; complexityLevel :=
     complexityLevel s; visualStyle := visualStyle s; language := language
     s; aspectRatio := aspectRatio s; resolution := resolution s;
     isLoading := isLoading s; isSyncing := isSyncing s; loadingMessage :=
     loadingMessage s; loadingStep := loadingStep s; loadingFacts :=
     loadingFacts s; error := error s; imageHistory := imageHistory s;
     currentSearchResults := currentSearchResults s; isDarkMode :=
     isDarkMode s; showStorageModal := showStorageModal s; storageStatus
     := storageStatus s; contextSources := contextSources s;
     showContextOptions := showContextOptions s; showUrlInput :=
     showUrlInput s; urlInputValue := urlInputValue s; hasApiKey :=
     hasApiKey s; checkingKey := checkingKey s |}.

Definition setActiveImageId (v : jsval) : M AppState unit :=
  update (withActiveImageId v).

Definition withCurrentSearchResults (v : list SearchResultItem.t) (s : AppState)
  : AppState :=
  {| topic := topic s; activeImageId := activeImageId s; complexityLevel
     := complexityLevel s; visualStyle := visualStyle s; language :=
     language s; aspectRatio := aspectRatio s; resolution := resolution s;
     isLoading := isLoading s; isSyncing := isSyncing s; loadingMessage :=
     loadingMessage s; loadingStep := loadingStep s; loadingFacts :=
     loadingFacts s; error := error s; imageHistory := imageHistory s;
     currentSearchResults := v; isDarkMode := isDarkMode s;
     showStorageModal := showStorageModal s; storageStatus :=
     storageStatus s; contextSources := contextSources s;
     showContextOptions := showContextOptions s; showUrlInput :=
     showUrlInput s; urlInputValue := urlInputValue s; hasApiKey :=
     hasApiKey s; checkingKey := checkingKey s |}.

Definition setCurrentSearchResults (v : list SearchResultItem.t) : M AppState unit :=
  update (withCurrentSearchResults v).

Definition withHasApiKey (v : bool) (s : AppState)
  : AppState :=
  {| topic := topic s; activeImageId := activeImageId s; complexityLevel
     := complexityLevel s; visualStyle := visualStyle s; language :=
     language s; aspectRatio := aspectRatio s; resolution := resolution s;
     isLoading := isLoading s; isSyncing := isSyncing s; loadingMessage :=
     loadingMessage s; loadingStep := loadingStep s; loadingFacts :=
     loadingFacts s; error := error s; imageHistory := imageHistory s;
     currentSearchResults := currentSearchResults s; isDarkMode :=
     isDarkMode s; showStorageModal := showStorageModal s; storageStatus
     := storageStatus s; contextSources := contextSources s;
     showContextOptions := showContextOptions s; showUrlInput :=
     showUrlInput s; urlInputValue := urlInputValue s; hasApiKey := v;
     checkingKey := checkingKey s |}.

Definition setHasApiKey (v : bool) : M AppState unit :=
  update (withHasApiKey v).

(** [a === b] on values that are strings or [null]. *)
Definition strictEq (a b : jsval) : bool :=
  match a, b with
  | JUndefined, JUndefined => true
  | JNull, JNull => true
  | JStr x, JStr y => streqb x y
  | _, _ => false
  end.

(** [imageHistory.find(img => img.id === activeImageId)] *)
Definition findImage (history : list GeneratedImage.t) (activeId : jsval)
  : option GeneratedImage.t :=
  find (fun img => strictEq (JStr (GeneratedImage.id img)) activeId) history.

Definition activeImage (s : AppState) : option GeneratedImage.t :=
  findImage (imageHistory s) (activeImageId s).

(** [contextSources.map((source, index) => ...)] of [handleGenerate] *)
Fixpoint describeSources (index : N) (sources : list ContextSource.t)
  : list jsstring :=
  match sources with
  | [] => []
  | source :: r =>
      match ContextSource.type source with
      | ContextSource.file =>
          lit "SOURCE " ++ numToString (index + 1) ++ lit " (File: "
          ++ ContextSource.name source ++ lit "):" ++ nl
          ++ ContextSource.content source
      | ContextSource.url =>
          lit "SOURCE " ++ numToString (index + 1) ++ lit " (URL: "
          ++ ContextSource.content source ++ lit "):" ++ nl
          ++ lit "Please visit this URL to gather relevant context."
      end :: describeSources (index + 1) r
  end.

Definition validationError : jsstring :=
  lit "Please enter a topic or provide context (File/URL) to visualize.".
Definition accessDeniedOnGenerate : jsstring :=
  lit "Access denied. The selected API key does not have access to the required models. Please select a project with billing enabled.".
Definition serviceUnavailable : jsstring :=
  lit "The image generation service is temporarily unavailable. Please try again.".
Definition accessDeniedOnEdit : jsstring :=
  lit "Access denied. Please select a valid API key with billing enabled.".
Definition modificationFailed : jsstring :=
  lit "Modification failed. Try a different command.".

(** The test of both [catch] blocks:
    [err.message && (err.message.includes("Requested entity was not found")
      || err.message.includes("404") || err.message.includes("403"))] *)
Definition isAccessError (err : jserror) : bool :=
  nonEmpty (message err)
  && (includes (lit "Requested entity was not found") (message err)
      || includes (lit "404") (message err)
      || includes (lit "403") (message err)).

(** The two values [handleGenerate] computes before it calls out:
    [contextData], the sources joined into one text or [null], and
    [effectiveTopic], the trimmed topic or a sentence naming the sources. *)
Definition contextData (s : AppState) : jsval :=
  if (0 <? List.length (contextSources s))%nat then
    JStr (join (nl ++ nl ++ lit "---" ++ nl ++ nl)
            (describeSources 0 (contextSources s)))
  else JNull.

Definition effectiveTopic (s : AppState) : jsstring :=
  if negb (nonEmpty (trim (topic s)))
     && (0 <? List.length (contextSources s))%nat then
    lit "Create a comprehensive infographic visualizing the key concepts from the provided sources ("
    ++ join (lit ", ") (List.map ContextSource.name (contextSources s))
    ++ lit ")."
  else trim (topic s).

Section Handlers.
Variable world : Oracle.

(** [Date.now()] *)
Definition dateNow : M AppState N :=
  await DateNow (fun t => Returned (clock world t)).

(** [handleGenerate], run in the closure of the render that saw state [s].
    The upload is started but not awaited. *)
Definition handleGenerate (s : AppState) : M AppState unit :=
  if isLoading s then ret tt
  else if negb (nonEmpty (trim (topic s)))
          && (List.length (contextSources s) =? 0)%nat then
    setError (JStr validationError)
  else
    setIsLoading true ;;
    setError JNull ;;
    setLoadingStep 1 ;;
    setLoadingFacts [] ;;
    setCurrentSearchResults [] ;;
    setLoadingMessage (lit "Researching...") ;;
    tryFinally
      (tryCatch
         (researchResult <-
            researchTopicForPrompt world (effectiveTopic s)
              (complexityLevel s) (visualStyle s) (language s)
              (contextData s) ;;
          setLoadingFacts (ResearchResult.facts researchResult) ;;
          setCurrentSearchResults
            (ResearchResult.searchResults researchResult) ;;
          setLoadingStep 2 ;;
          setLoadingMessage (lit "Designing Infographic...") ;;
          base64Data <-
            generateInfographicImage world
              (ResearchResult.imagePrompt researchResult)
              (aspectRatio s) (resolution s) ;;
          now1 <- dateNow ;;
          let newImageId := numToString now1 in
          now2 <- dateNow ;;
          let newImage :=
            GeneratedImage.Build newImageId base64Data (effectiveTopic s)
              now2 (complexityLevel s) (visualStyle s) (language s)
              (aspectRatio s) (resolution s) in
          setImageHistory (fun prev => newImage :: prev) ;;
          setActiveImageId (JStr newImageId) ;;
          setIsSyncing true ;;
          emit (StartUpload base64Data newImageId))
         (fun err =>
            emit (ConsoleError [] (Some err)) ;;
            if isAccessError err then
              setError (JStr accessDeniedOnGenerate) ;;
              setHasApiKey false
            else
              setError (JStr serviceUnavailable)))
      (setIsLoading false ;;
       setLoadingStep 0).

(** [handleEdit], likewise. *)
Definition handleEdit (s : AppState) (editPrompt : jsstring)
  : M AppState unit :=
  if negb (truthy (activeImageId s)) then ret tt
  else
    match findImage (imageHistory s) (activeImageId s) with
    | None => ret tt
    | Some currentImage =>
        setIsLoading true ;;
        setError JNull ;;
        setLoadingStep 2 ;;
        setLoadingMessage
          (lit "Processing Modification: " ++ quote ++ editPrompt ++ quote
           ++ lit "...") ;;
        tryFinally
          (tryCatch
             (base64Data <-
                editInfographicImage world (GeneratedImage.data currentImage)
                  editPrompt ;;
              now1 <- dateNow ;;
              let newImageId := numToString now1 in
              now2 <- dateNow ;;
              let newImage :=
                GeneratedImage.Build newImageId base64Data editPrompt now2
                  (GeneratedImage.level currentImage)
                  (GeneratedImage.style currentImage)
                  (GeneratedImage.language currentImage)
                  (GeneratedImage.aspectRatio currentImage)
                  (GeneratedImage.resolution currentImage) in
              setImageHistory (fun prev => newImage :: prev) ;;
              setActiveImageId (JStr newImageId) ;;
              setIsSyncing true ;;
              emit (StartUpload base64Data newImageId))
             (fun err =>
                emit (ConsoleError [] (Some err)) ;;
                if isAccessError err then
                  setError (JStr accessDeniedOnEdit) ;;
                  setHasApiKey false
                else
                  setError (JStr modificationFailed)))
          (setIsLoading false ;;
           setLoadingStep 0)
    end.

(** The continuation of a started upload:
    [uploadToGCS(base64Data, newImageId).finally(() =>
       setTimeout(() => setIsSyncing(false), 2000))] *)
Definition uploadInBackground (environment : Environment)
  (base64Data id : jsstring) : M AppState unit :=
  tryFinally
    (StorageService.uploadToGCS world environment base64Data id ;; ret tt)
    (setIsSyncing false).

(** ** What the rendered tree offers

    The form submits to [handleGenerate]; its submit button is
    [disabled={isLoading}], so the form delivers no submit while the flag is
    true.  The [Infographic], whose [onEdit] is [handleEdit], is mounted
    under [activeImage && !isLoading] only. *)
Record View := {
  onSubmit : option (M AppState unit);
  onEdit : option (jsstring -> M AppState unit)
}.

Definition render (s : AppState) : View :=
  {| onSubmit := if isLoading s then None else Some (handleGenerate s);
     onEdit :=
       match activeImage s with
       | Some _ => if negb (isLoading s) then Some (handleEdit s) else None
       | None => None
       end |}.

Inductive Trigger :=
| Submit
| Edit (editPrompt : jsstring).

(** A handler invoked by the render of the current state. *)
Definition invoke (h : AppState -> M AppState unit) (w : World AppState)
  : World AppState :=
  snd (h (store w) w).

(** A trigger coming through the rendered tree. *)
Definition dispatch (t : Trigger) (w : World AppState) : World AppState :=
  match t with
  | Submit =>
      match onSubmit (render (store w)) with
      | Some h => snd (h w)
      | None => w
      end
  | Edit editPrompt =>
      match onEdit (render (store w)) with
      | Some h => snd (h editPrompt w)
      | None => w
      end
  end.

End Handlers.

End App.

(* ================================================================== *)
(** * Notions used to state the properties *)
(* ================================================================== *)

Module Spec.

Import GeminiService StorageService App.

(** ** Strings *)

(** [s] contains [pat] as a substring. *)
Definition contains (pat s : jsstring) : Prop :=
  exists pre post, s = pre ++ pat ++ post.

(** Equal up to the case of ASCII letters. *)
Definition ci_equal (m pat : jsstring) : Prop :=
  Forall2 (fun c p => canon c = canon p) m pat.

(** [pat] occurs in [s], in any mix of upper and lower case. *)
Definition occurs_ci (pat s : jsstring) : Prop :=
  exists pre m post, s = pre ++ m ++ post /\ ci_equal m pat.

(** A line that holds nothing but white space. *)
Definition blank (l : jsstring) : bool := negb (nonEmpty (trim l)).

(** [s] begins with a character that is not white space. *)
Definition startsBlack (s : jsstring) : Prop :=
  exists c r, s = c :: r /\ isWhiteSpace c = false.

(** [FactsSection text section]: the text has a [FACTS:] header, in any
    letter case, and [section] is what stands between the first such header
    and the first [IMAGE_PROMPT:] after it (or the end of the text), without
    the white space around it. *)
Inductive FactsSection : jsstring -> jsstring -> Prop :=
| facts_to_end pre header ws body :
    ci_equal header (lit "FACTS:") ->
    ~ occurs_ci (lit "FACTS:") (pre ++ removelast header) ->
    forallb isWhiteSpace ws = true ->
    startsBlack body ->
    ~ occurs_ci (lit "IMAGE_PROMPT:") body ->
    FactsSection (pre ++ header ++ ws ++ body) (trimEnd body)
| facts_to_prompt pre header ws body marker rest :
    ci_equal header (lit "FACTS:") ->
    ~ occurs_ci (lit "FACTS:") (pre ++ removelast header) ->
    forallb isWhiteSpace ws = true ->
    startsBlack body ->
    ci_equal marker (lit "IMAGE_PROMPT:") ->
    ~ occurs_ci (lit "IMAGE_PROMPT:") (body ++ removelast marker) ->
    FactsSection (pre ++ header ++ ws ++ body ++ marker ++ rest)
      (trimEnd body).

(** ** Configuration *)

(** A configuration input is present when it is a non-empty string: the
    only values that are truthy. *)
Definition present (v : jsval) : Prop :=
  exists s, v = JStr s /\ s <> [].

Definition envToken (e : Environment) : jsval :=
  jsor (GCS_ACCESS_TOKEN e) (GCS_CREDENTIALS e).

(** ** Uploads *)

Definition isUpload (e : Event) : bool :=
  match e with
  | FetchPost _ _ _ _ => true
  | _ => false
  end.

Definition isRequest (e : Event) : bool :=
  match e with
  | FetchPost _ _ _ _ | FetchData _ | GenerateContent _ => true
  | _ => false
  end.

(** The number of upload requests among the events [evs]. *)
Definition uploadAttempts (evs : list Event) : nat :=
  List.length (filter isUpload evs).

(** The [catch] block of the uploader ran: its [console.error] is among
    the events. *)
Definition failureLogged (evs : list Event) : Prop :=
  exists e, In (ConsoleError failedToSave (Some e)) evs.

(** The upload request of a call got the answer [response]: the image
    decoded, and the POST that followed was answered. *)
Definition uploadAnswered (world : Oracle) (t : list Event)
  (bucket token : jsval) (base64Data id : jsstring)
  (response : HttpResponse) : Prop :=
  exists blob,
    fetchBlob world t base64Data = Returned blob /\
    fetchUpload world (t ++ [FetchData base64Data]) (uploadUrl bucket id)
      (bearer token) (mimeType base64Data) blob = Returned response.

Definition is2xx (response : HttpResponse) : Prop :=
  (200 <= status response <= 299)%N.

(** ** Citations *)

(** The grounding chunk that carries the citation [item]. *)
Definition chunkOf (item : SearchResultItem.t) : GroundingChunk :=
  {| web := Some {| uri := JStr (SearchResultItem.url item);
                    web_title := JStr (SearchResultItem.title item) |} |}.

Definition urls (l : list SearchResultItem.t) : list jsstring :=
  List.map SearchResultItem.url l.

(** [item] is the last entry of [entries] with its URL. *)
Definition lastOccurrence (entries : list SearchResultItem.t)
  (item : SearchResultItem.t) : Prop :=
  exists before after,
    entries = before ++ item :: after /\
    ~ In (SearchResultItem.url item) (urls after).

(** [item] is the first entry of [entries] with its URL. *)
Definition firstOccurrence (entries : list SearchResultItem.t)
  (item : SearchResultItem.t) : Prop :=
  exists before after,
    entries = before ++ item :: after /\
    ~ In (SearchResultItem.url item) (urls before).

(** The distinct strings of [l] in the order in which they first appear,
    leaving out those of [seen]. *)
Fixpoint distinctInOrder (seen l : list jsstring) : list jsstring :=
  match l with
  | [] => []
  | x :: r =>
      if existsb (streqb x) seen then distinctInOrder seen r
      else x :: distinctInOrder (x :: seen) r
  end.

(** ** The controller *)

(** The awaited steps of a generation cycle started in state [s], as the
    world answers them after the trace [t]: the research request, then the
    image request.  [Returned d]: both succeeded and the image is [d];
    [Threw e]: the research or the image step failed with [e]. *)
Definition generateSteps (world : Oracle) (s : AppState) : M unit jsstring :=
  researchResult <-
    researchTopicForPrompt world (effectiveTopic s) (complexityLevel s)
      (visualStyle s) (language s) (contextData s) ;;
  generateInfographicImage world (ResearchResult.imagePrompt researchResult)
    (aspectRatio s) (resolution s).

Definition generateOutcome (world : Oracle) (w : World AppState)
  : completion jsstring :=
  fst (generateSteps world (store w) {| store := tt; trace := trace w |}).

(** The awaited step of an edit cycle on the image [current]. *)
Definition editOutcome (world : Oracle) (w : World AppState)
  (current : GeneratedImage.t) (editPrompt : jsstring) : completion jsstring :=
  fst (editInfographicImage world (GeneratedImage.data current) editPrompt
         {| store := tt; trace := trace w |}).

(** [handleGenerate] gets past its two guards. *)
Definition generateAccepted (s : AppState) : Prop :=
  isLoading s = false /\ (trim (topic s) <> [] \/ contextSources s <> []).

(** [handleEdit] gets past its two guards, editing [current]. *)
Definition editAccepted (s : AppState) (current : GeneratedImage.t) : Prop :=
  truthy (activeImageId s) = true /\
  findImage (imageHistory s) (activeImageId s) = Some current.

(** A cycle that ran from [w] to [w'] and whose awaited steps produced the
    image data [d]. *)
Inductive Produces (world : Oracle)
  : World AppState -> jsstring -> World AppState -> Prop :=
| produces_generate w d :
    generateAccepted (store w) ->
    generateOutcome world w = Returned d ->
    Produces world w d (invoke (handleGenerate world) w)
| produces_edit w editPrompt current d :
    editAccepted (store w) current ->
    editOutcome world w current editPrompt = Returned d ->
    Produces world w d (invoke (fun s => handleEdit world s editPrompt) w).

(** A session from an empty history.  [ds] lists the images produced by its
    successful cycles, the latest first; anything else that happens in
    between (a failed or rejected cycle, typing, a finished upload) leaves
    the history as it is. *)
Inductive Session (world : Oracle)
  : list jsstring -> World AppState -> Prop :=
| session_start w :
    imageHistory (store w) = [] ->
    Session world [] w
| session_cycle ds w d w' :
    Session world ds w ->
    Produces world w d w' ->
    Session world (d :: ds) w'
| session_other ds w w' :
    Session world ds w ->
    imageHistory (store w') = imageHistory (store w) ->
    Session world ds w'.

(** The test of the [catch] blocks, in words: the message holds the
    phrase, or [404], or [403]. *)
Definition accessMessage (msg : jsstring) : Prop :=
  contains (lit "Requested entity was not found") msg \/
  contains (lit "404") msg \/ contains (lit "403") msg.

(** The same with [401] as well: the reading under which a 401-style
    message would count as an access failure too. *)
Definition accessMessageWith401 (msg : jsstring) : Prop :=
  contains (lit "401") msg \/ accessMessage msg.

(** All state cells but [error] agree. *)
Definition agreeExceptError (s s' : AppState) : Prop :=
  topic s' = topic s /\ activeImageId s' = activeImageId s /\
  complexityLevel s' = complexityLevel s /\ visualStyle s' = visualStyle s /\
  language s' = language s /\ aspectRatio s' = aspectRatio s /\
  resolution s' = resolution s /\ isLoading s' = isLoading s /\
  isSyncing s' = isSyncing s /\ loadingMessage s' = loadingMessage s /\
  loadingStep s' = loadingStep s /\ loadingFacts s' = loadingFacts s /\
  imageHistory s' = imageHistory s /\
  currentSearchResults s' = currentSearchResults s /\
  isDarkMode s' = isDarkMode s /\ showStorageModal s' = showStorageModal s /\
  storageStatus s' = storageStatus s /\ contextSources s' = contextSources s /\
  showContextOptions s' = showContextOptions s /\
  showUrlInput s' = showUrlInput s /\ urlInputValue s' = urlInputValue s /\
  hasApiKey s' = hasApiKey s /\ checkingKey s' = checkingKey s.

End Spec.


(* ================================================================== *)
(** * Sample worlds, for the examples *)
(* ================================================================== *)

Module Samples.

Import GeminiService StorageService App Spec.

Definition photosynthesis : jsstring := lit "Photosynthesis".
Definition highSchool : jsstring := lit "High School".
Definition defaultStyle : jsstring := lit "Default".
Definition english : jsstring := lit "English".

Definition unconfigured : Environment :=
  {| GCS_BUCKET_NAME := JUndefined;
     GCS_ACCESS_TOKEN := JUndefined;
     GCS_CREDENTIALS := JUndefined;
     gcs_bucket_override := JNull;
     gcs_token_override := JNull |}.

Definition configured : Environment :=
  {| GCS_BUCKET_NAME := JStr (lit "infographics");
     GCS_ACCESS_TOKEN := JUndefined;
     GCS_CREDENTIALS := JStr (lit "ya29.token");
     gcs_bucket_override := JNull;
     gcs_token_override := JNull |}.

(** An answer of the text model: seven facts, a prompt, and the same page
    cited twice under two titles. *)
Definition researchText : jsstring :=
  join nl
    [ lit "Here is the plan.";
      lit "FACTS:";
      lit "- Plants absorb light";
      lit "-   Chlorophyll is green  ";
      lit "- Water is split";
      [];
      lit "- Oxygen is released";
      lit "- Sugar is made";
      lit "- Stomata take in CO2";
      lit "- It happens in chloroplasts";
      [];
      lit "Image_Prompt:";
      lit "  A leaf in cross-section. " ].

Definition pageA : jsstring := lit "https://example.org/photosynthesis".
Definition pageB : jsstring := lit "https://example.org/chloroplast".

Definition citationA1 : SearchResultItem.t :=
  SearchResultItem.Build (lit "Photosynthesis") pageA.
Definition citationB : SearchResultItem.t :=
  SearchResultItem.Build (lit "Chloroplast") pageB.
Definition citationA2 : SearchResultItem.t :=
  SearchResultItem.Build (lit "Photosynthesis - overview") pageA.

Definition researchResponse : GenResponse :=
  {| resp_text := JStr researchText;
     resp_parts := Some [TextPart researchText];
     resp_groundingChunks :=
       Some [chunkOf citationA1; chunkOf citationB; {| web := None |};
             chunkOf citationA2] |}.

(** An answer of the text model without an [IMAGE_PROMPT:] section. *)
Definition factsOnlyResponse : GenResponse :=
  {| resp_text := JStr (lit "FACTS: - only one");
     resp_parts := None;
     resp_groundingChunks := None |}.

Definition imageResponse : GenResponse :=
  {| resp_text := JUndefined;
     resp_parts :=
       Some [TextPart (lit "Here is your image.");
             InlineData (JStr (lit "image/png")) (JStr (lit "iVBORw0KGgo="))];
     resp_groundingChunks := None |}.

(** The model answers every request; the bucket refuses the token. *)
Definition world : Oracle :=
  {| fetchBlob := fun _ _ => Returned [137; 80; 78; 71]%N;
     fetchUpload :=
       fun _ _ _ _ _ =>
         Returned {| status := 403; bodyText := Returned (lit "Forbidden") |};
     generateContent :=
       fun _ request =>
         if req_googleSearch request then Returned researchResponse
         else Returned imageResponse;
     clock := fun t => (1730000000000 + N.of_nat (List.length t))%N |}.

(** The same world with a bucket that accepts the upload. *)
Definition acceptingWorld : Oracle :=
  {| fetchBlob := fetchBlob world;
     fetchUpload :=
       fun _ _ _ _ _ =>
         Returned {| status := 200; bodyText := Returned (lit "{}") |};
     generateContent := generateContent world;
     clock := clock world |}.

(** The text model answers without an image prompt. *)
Definition tersedWorld : Oracle :=
  {| fetchBlob := fetchBlob world;
     fetchUpload := fetchUpload world;
     generateContent := fun _ _ => Returned factsOnlyResponse;
     clock := clock world |}.

(** A world whose model API fails every call with [msg]. *)
Definition failingWorld (msg : jsstring) : Oracle :=
  {| fetchBlob := fetchBlob world;
     fetchUpload := fetchUpload world;
     generateContent := fun _ _ => Threw (Error msg);
     clock := clock world |}.

(** An answer laid out as the instruction text lays out the format: every
    line indented by four spaces, seven bullets. *)
Definition indentedText : jsstring :=
  join nl
    [ lit "    FACTS:";
      lit "    - Plants absorb light";
      lit "    - Chlorophyll is green";
      lit "    - Water is split";
      lit "    - Oxygen is released";
      lit "    - Sugar is made";
      lit "    - Stomata take in CO2";
      lit "    - It happens in chloroplasts";
      lit "    ";
      lit "    IMAGE_PROMPT:";
      lit "    A leaf in cross-section." ].

Definition indentedResponse : GenResponse :=
  {| resp_text := JStr indentedText;
     resp_parts := Some [TextPart indentedText];
     resp_groundingChunks := None |}.

Definition indentedWorld : Oracle :=
  {| fetchBlob := fetchBlob world;
     fetchUpload := fetchUpload world;
     generateContent := fun _ _ => Returned indentedResponse;
     clock := clock world |}.

(** The image that the first cycle in [world] produces. *)
Definition firstImage : GeneratedImage.t :=
  GeneratedImage.Build (lit "1730000000002")
    (lit "data:image/png;base64,iVBORw0KGgo=") photosynthesis 1730000000003
    highSchool defaultStyle english (lit "16:9") (lit "1K").



Definition start : World AppState :=
  {| store := initialState unconfigured; trace := [] |}.

(** The user has typed a topic. *)
Definition typed : World AppState :=
  {| store :=
       {| topic := lit " Photosynthesis ";
          activeImageId := JNull;
          complexityLevel := lit "High School";
          visualStyle := lit "Default";
          language := lit "English";
          aspectRatio := lit "16:9";
          resolution := lit "1K";
          isLoading := false;
          isSyncing := false;
          loadingMessage := [];
          loadingStep := 0;
          loadingFacts := [];
          error := JNull;
          imageHistory := [];
          currentSearchResults := [];
          isDarkMode := true;
          showStorageModal := false;
          storageStatus := getGCSConfig unconfigured;
          contextSources := [];
          showContextOptions := false;
          showUrlInput := false;
          urlInputValue := [];
          hasApiKey := true;
          checkingKey := false |};
     trace := [] |}.

(** One generation cycle, then one edit cycle. *)
Definition afterGenerate : World AppState :=
  invoke (handleGenerate world) typed.

Definition afterEdit : World AppState :=
  invoke (fun s => handleEdit world s (lit "make it blue")) afterGenerate.

End Samples.

(* ================================================================== *)
(** * services/geminiService.ts: the repair call and the verification *)
(* ================================================================== *)

Module GeminiRepair.

Import GeminiService.

(** The template literal of [fixInfographicImage], line by line. *)
Definition fixPrompt (correctionPrompt : jsstring) : jsstring :=
  join nl
    [ [];
      lit "    Edit this image. ";
      lit "    Goal: Simplify and Fix.";
      lit "    Instruction: " ++ correctionPrompt ++ lit ".";
      lit "    Ensure the design is clean and any text is large and legible.";
      lit "  " ].

Definition fixRequest (currentImageBase64 correctionPrompt : jsstring)
  : GenRequest :=
  {| req_model := EDIT_MODEL;
     req_parts :=
       [InlineData (JStr (lit "image/jpeg"))
          (JStr (cleanBase64 currentImageBase64));
        TextPart (fixPrompt correctionPrompt)];
     req_googleSearch := false;
     req_imageConfig := None |}.

Section Client.
Variable S : Type.
Variable world : Oracle.

Definition fixInfographicImage (currentImageBase64 correctionPrompt : jsstring)
  : M S jsstring :=
  response <- callModel world
                (fixRequest currentImageBase64 correctionPrompt) ;;
  match firstInlineImage (partsOf response) with
  | Some d => ret d
  | None => throw (Error (lit "Failed to fix image"))
  end.

(** The verification is bypassed: the answer is fixed and nothing is
    requested.  The pair is [(isAccurate, critique)]. *)
Definition verifyInfographicAccuracy
  (imageBase64 topic level style language : jsstring)
  : M S (bool * jsstring) :=
  ret (true, lit "Verification bypassed.").

End Client.

End GeminiRepair.

(* ================================================================== *)
(** * App.tsx: the other handlers of the component *)
(* ================================================================== *)

Module Actions.

Import GeminiService App.

(** ** The remaining state setters

    [setContextSources] is called with a function of the previous value;
    a call with a value is the constant function. *)

Definition withTopic (v : jsstring) (s : AppState)
  : AppState :=
  {| topic := v; activeImageId := activeImageId s; complexityLevel :=
     complexityLevel s; visualStyle := visualStyle s; language := language
     s; aspectRatio := aspectRatio s; resolution := resolution s; isLoading
     := isLoading s; isSyncing := isSyncing s; loadingMessage :=
     loadingMessage s; loadingStep := loadingStep s; loadingFacts :=
     loadingFacts s; error := error s; imageHistory := imageHistory s;
     currentSearchResults := currentSearchResults s; isDarkMode :=
     isDarkMode s; showStorageModal := showStorageModal s; storageStatus :=
     storageStatus s; contextSources := contextSources s; showContextOptions
     := showContextOptions s; showUrlInput := showUrlInput s; urlInputValue
     := urlInputValue s; hasApiKey := hasApiKey s; checkingKey :=
     checkingKey s |}.

Definition setTopic (v : jsstring) : M AppState unit :=
  update (withTopic v).

Definition withContextSources (f : list ContextSource.t -> list ContextSource.t) (s : AppState)
  : AppState :=
  {| topic := topic s; activeImageId := activeImageId s; complexityLevel :=
     complexityLevel s; visualStyle := visualStyle s; language := language
     s; aspectRatio := aspectRatio s; resolution := resolution s; isLoading
     := isLoading s; isSyncing := isSyncing s; loadingMessage :=
     loadingMessage s; loadingStep := loadingStep s; loadingFacts :=
     loadingFacts s; error := error s; imageHistory := imageHistory s;
     currentSearchResults := currentSearchResults s; isDarkMode :=
     isDarkMode s; showStorageModal := showStorageModal s; storageStatus :=
     storageStatus s; contextSources := f (contextSources s);
     showContextOptions := showContextOptions s; showUrlInput :=
     showUrlInput s; urlInputValue := urlInputValue s; hasApiKey :=
     hasApiKey s; checkingKey := checkingKey s |}.

Definition setContextSources (f : list ContextSource.t -> list ContextSource.t) : M AppState unit :=
  update (withContextSources f).

Definition withShowContextOptions (v : bool) (s : AppState)
  : AppState :=
  {| topic := topic s; activeImageId := activeImageId s; complexityLevel :=
     complexityLevel s; visualStyle := visualStyle s; language := language
     s; aspectRatio := aspectRatio s; resolution := resolution s; isLoading
     := isLoading s; isSyncing := isSyncing s; loadingMessage :=
     loadingMessage s; loadingStep := loadingStep s; loadingFacts :=
     loadingFacts s; error := error s; imageHistory := imageHistory s;
     currentSearchResults := currentSearchResults s; isDarkMode :=
     isDarkMode s; showStorageModal := showStorageModal s; storageStatus :=
     storageStatus s; contextSources := contextSources s; showContextOptions
     := v; showUrlInput := showUrlInput s; urlInputValue := urlInputValue s;
     hasApiKey := hasApiKey s; checkingKey := checkingKey s |}.

Definition setShowContextOptions (v : bool) : M AppState unit :=
  update (withShowContextOptions v).

Definition withShowUrlInput (v : bool) (s : AppState)
  : AppState :=
  {| topic := topic s; activeImageId := activeImageId s; complexityLevel :=
     complexityLevel s; visualStyle := visualStyle s; language := language
     s; aspectRatio := aspectRatio s; resolution := resolution s; isLoading
     := isLoading s; isSyncing := isSyncing s; loadingMessage :=
     loadingMessage s; loadingStep := loadingStep s; loadingFacts :=
     loadingFacts s; error := error s; imageHistory := imageHistory s;
     currentSearchResults := currentSearchResults s; isDarkMode :=
     isDarkMode s; showStorageModal := showStorageModal s; storageStatus :=
     storageStatus s; contextSources := contextSources s; showContextOptions
     := showContextOptions s; showUrlInput := v; urlInputValue :=
     urlInputValue s; hasApiKey := hasApiKey s; checkingKey := checkingKey s
     |}.

Definition setShowUrlInput (v : bool) : M AppState unit :=
  update (withShowUrlInput v).

Definition withUrlInputValue (v : jsstring) (s : AppState)
  : AppState :=
  {| topic := topic s; activeImageId := activeImageId s; complexityLevel :=
     complexityLevel s; visualStyle := visualStyle s; language := language
     s; aspectRatio := aspectRatio s; resolution := resolution s; isLoading
     := isLoading s; isSyncing := isSyncing s; loadingMessage :=
     loadingMessage s; loadingStep := loadingStep s; loadingFacts :=
     loadingFacts s; error := error s; imageHistory := imageHistory s;
     currentSearchResults := currentSearchResults s; isDarkMode :=
     isDarkMode s; showStorageModal := showStorageModal s; storageStatus :=
     storageStatus s; contextSources := contextSources s; showContextOptions
     := showContextOptions s; showUrlInput := showUrlInput s; urlInputValue
     := v; hasApiKey := hasApiKey s; checkingKey := checkingKey s |}.

Definition setUrlInputValue (v : jsstring) : M AppState unit :=
  update (withUrlInputValue v).

Definition withCheckingKey (v : bool) (s : AppState)
  : AppState :=
  {| topic := topic s; activeImageId := activeImageId s; complexityLevel :=
     complexityLevel s; visualStyle := visualStyle s; language := language
     s; aspectRatio := aspectRatio s; resolution := resolution s; isLoading
     := isLoading s; isSyncing := isSyncing s; loadingMessage :=
     loadingMessage s; loadingStep := loadingStep s; loadingFacts :=
     loadingFacts s; error := error s; imageHistory := imageHistory s;
     currentSearchResults := currentSearchResults s; isDarkMode :=
     isDarkMode s; showStorageModal := showStorageModal s; storageStatus :=
     storageStatus s; contextSources := contextSources s; showContextOptions
     := showContextOptions s; showUrlInput := showUrlInput s; urlInputValue
     := urlInputValue s; hasApiKey := hasApiKey s; checkingKey := v |}.

Definition setCheckingKey (v : bool) : M AppState unit :=
  update (withCheckingKey v).

Definition withShowStorageModal (v : bool) (s : AppState)
  : AppState :=
  {| topic := topic s; activeImageId := activeImageId s; complexityLevel :=
     complexityLevel s; visualStyle := visualStyle s; language := language
     s; aspectRatio := aspectRatio s; resolution := resolution s; isLoading
     := isLoading s; isSyncing := isSyncing s; loadingMessage :=
     loadingMessage s; loadingStep := loadingStep s; loadingFacts :=
     loadingFacts s; error := error s; imageHistory := imageHistory s;
     currentSearchResults := currentSearchResults s; isDarkMode :=
     isDarkMode s; showStorageModal := v; storageStatus := storageStatus s;
     contextSources := contextSources s; showContextOptions :=
     showContextOptions s; showUrlInput := showUrlInput s; urlInputValue :=
     urlInputValue s; hasApiKey := hasApiKey s; checkingKey := checkingKey s
     |}.

Definition setShowStorageModal (v : bool) : M AppState unit :=
  update (withShowStorageModal v).

Definition withStorageStatus (v : StorageService.GCSConfig) (s : AppState)
  : AppState :=
  {| topic := topic s; activeImageId := activeImageId s; complexityLevel :=
     complexityLevel s; visualStyle := visualStyle s; language := language
     s; aspectRatio := aspectRatio s; resolution := resolution s; isLoading
     := isLoading s; isSyncing := isSyncing s; loadingMessage :=
     loadingMessage s; loadingStep := loadingStep s; loadingFacts :=
     loadingFacts s; error := error s; imageHistory := imageHistory s;
     currentSearchResults := currentSearchResults s; isDarkMode :=
     isDarkMode s; showStorageModal := showStorageModal s; storageStatus :=
     v; contextSources := contextSources s; showContextOptions :=
     showContextOptions s; showUrlInput := showUrlInput s; urlInputValue :=
     urlInputValue s; hasApiKey := hasApiKey s; checkingKey := checkingKey s
     |}.

Definition setStorageStatus (v : StorageService.GCSConfig) : M AppState unit :=
  update (withStorageStatus v).

(** [() => setActiveImageId(img.id)], the click on a thumbnail of the
    archive (the revision that renders the archive; the scrolling of the
    window is left out). *)
Definition selectArchived (img : GeneratedImage.t) : M AppState unit :=
  setActiveImageId (JStr (GeneratedImage.id img)).

(** The error block offers the key selection under
    [error && (error.includes("Access denied") || error.includes("billing"))]
    (same revision). *)
Definition offersKeySelection (s : AppState) : bool :=
  truthy (error s)
  && (includes (lit "Access denied") (toStr (error s))
      || includes (lit "billing") (toStr (error s))).

(** [{!checkingKey && !hasApiKey && <KeySelectionModal />}] *)
Definition keyModalShown (s : AppState) : bool :=
  negb (checkingKey s) && negb (hasApiKey s).

Definition handleNewSession : M AppState unit :=
  setTopic [] ;;
  setContextSources (fun _ => []) ;;
  setActiveImageId JNull ;;
  setCurrentSearchResults [] ;;
  setError JNull ;;
  setLoadingFacts [] ;;
  setLoadingStep 0 ;;
  setLoadingMessage [].

(** ** Context sources *)

(** [handleUrlSubmit], run in the closure of the render that saw state [s];
    [randomId] is the value of [Math.random().toString(36).substr(2, 9)]. *)
Definition handleUrlSubmit (s : AppState) (randomId : jsstring)
  : M AppState unit :=
  if negb (nonEmpty (trim (urlInputValue s))) then ret tt
  else
    setContextSources
      (fun prev =>
         prev ++ [ContextSource.Build randomId ContextSource.url
                    (urlInputValue s) (urlInputValue s)]) ;;
    setUrlInputValue [] ;;
    setShowUrlInput false ;;
    setShowContextOptions false ;;
    setError JNull.

Definition removeContextSource (id : jsstring) : M AppState unit :=
  setContextSources
    (fun prev =>
       filter (fun source => negb (streqb (ContextSource.id source) id)) prev).

(** What [handleFileUpload] reads of a [File]. *)
Record File := { file_name : jsstring; file_size : N }.

(** [`File "${file.name}" is too large. Please upload files smaller than
    1MB.`] *)
Definition tooLarge (name : jsstring) : jsstring :=
  lit "File " ++ quote ++ name ++ quote
  ++ lit " is too large. Please upload files smaller than 1MB.".

(** [handleFileUpload] on [e.target.files], which may be [null].  The
    result lists the files whose reading it starts, in the order of the
    [forEach]; the reset of the input element is left out. *)
Definition handleFileUpload (files : option (list File))
  : M AppState (list File) :=
  match files with
  | None => ret []
  | Some [] => ret []
  | Some fileArray =>
      match find (fun file => (1024 * 1024 <? file_size file)%N) fileArray with
      | Some file =>
          setError (JStr (tooLarge (file_name file))) ;;
          ret []
      | None =>
          setError JNull ;;
          setShowContextOptions false ;;
          ret fileArray
      end
  end.

(** [reader.onload] for [file], with the text read and the random
    identifier drawn. *)
Definition onload (file : File) (content randomId : jsstring)
  : M AppState unit :=
  setContextSources
    (fun prev =>
       prev ++ [ContextSource.Build randomId ContextSource.file
                  (file_name file) content]).

(** ** The API key *)

(** [window.aistudio]: each method may be missing; when it is there, this
    is how its promise settles. *)
Record AiStudio := {
  hasSelectedApiKey : option (completion bool);
  openSelectKey : option (completion unit)
}.

(** [checkKey], run once when the component mounts. *)
Definition checkKey (aistudio : option AiStudio) : M AppState unit :=
  tryFinally
    (tryCatch
       (match aistudio with
        | Some a =>
            match hasSelectedApiKey a with
            | Some answer =>
                hasKey <- liftCompletion answer ;;
                setHasApiKey hasKey
            | None => setHasApiKey true
            end
        | None => setHasApiKey true
        end)
       (fun e => emit (ConsoleError (lit "Error checking API key:") (Some e))))
    (setCheckingKey false).

Definition handleSelectKey (aistudio : option AiStudio) : M AppState unit :=
  match aistudio with
  | Some a =>
      match openSelectKey a with
      | Some answer =>
          tryCatch
            (liftCompletion answer ;;
             setHasApiKey true ;;
             setError JNull)
            (fun e =>
               emit (ConsoleError (lit "Failed to open key selector:")
                       (Some e)))
      | None => ret tt
      end
  | None => ret tt
  end.

End Actions.

(* ================================================================== *)
(** * App.tsx: what lives in [localStorage] *)
(* ================================================================== *)

Module Browser.

Import StorageService App Actions.

(** The component state together with the browser storage it reads and
    writes: the saved history under [STORAGE_KEY] ([null] when the key is
    absent), the environment with the two override keys, and the [saved]
    cell of the settings dialog. *)
Record Page := {
  app : AppState;
  infogenius_history_v1 : jsval;
  settings : Environment;
  saved : bool
}.

Definition withApp (f : AppState -> AppState) (p : Page) : Page :=
  {| app := f (app p);
     infogenius_history_v1 := infogenius_history_v1 p;
     settings := settings p;
     saved := saved p |}.

Definition withHistoryItem (v : jsval) (p : Page) : Page :=
  {| app := app p;
     infogenius_history_v1 := v;
     settings := settings p;
     saved := saved p |}.

Definition withSettings (f : Environment -> Environment) (p : Page) : Page :=
  {| app := app p;
     infogenius_history_v1 := infogenius_history_v1 p;
     settings := f (settings p);
     saved := saved p |}.

Definition withSaved (v : bool) (p : Page) : Page :=
  {| app := app p;
     infogenius_history_v1 := infogenius_history_v1 p;
     settings := settings p;
     saved := v |}.

(** [localStorage.setItem] and [removeItem] on the two override keys; a
    removed key reads as [null]. *)
Definition withBucketOverride (v : jsval) (e : Environment) : Environment :=
  {| GCS_BUCKET_NAME := GCS_BUCKET_NAME e;
     GCS_ACCESS_TOKEN := GCS_ACCESS_TOKEN e;
     GCS_CREDENTIALS := GCS_CREDENTIALS e;
     gcs_bucket_override := v;
     gcs_token_override := gcs_token_override e |}.

Definition withTokenOverride (v : jsval) (e : Environment) : Environment :=
  {| GCS_BUCKET_NAME := GCS_BUCKET_NAME e;
     GCS_ACCESS_TOKEN := GCS_ACCESS_TOKEN e;
     GCS_CREDENTIALS := GCS_CREDENTIALS e;
     gcs_bucket_override := gcs_bucket_override e;
     gcs_token_override := v |}.

(** [handleClearHistory]; [confirmed] is the answer of [window.confirm]. *)
Definition handleClearHistory (confirmed : bool) : M Page unit :=
  if confirmed then
    update (withApp (withImageHistory (fun _ => []))) ;;
    update (withApp (withActiveImageId JNull)) ;;
    update (withApp (withCurrentSearchResults [])) ;;
    update (withHistoryItem JNull)
  else ret tt.

(** ** The saved history *)


(** The state that the current render sees. *)
Definition getState : M Page AppState :=
  fun w => (Returned (app (store w)), w).

(** [JSON.stringify] and [JSON.parse] are the platform's; they are taken
    as the component uses them.  [stringify] is applied to the history.
    [parse] is applied to the text found under the key and answers with
    what the component takes the value for, an array of images (the type of
    the cell it goes into, [useState<GeneratedImage[]>]), or throws; a
    stored text that parses to a value of another shape is outside this
    model. *)
Section Persistence.
Variable stringify : list GeneratedImage.t -> jsstring.
Variable parse : jsstring -> completion (list GeneratedImage.t).


(** The effect that saves the history, in the closure of a render that saw
    the history [imageHistory]. *)
Definition saveHistory (imageHistory : list GeneratedImage.t) : M Page unit :=
  update (withHistoryItem (JStr (stringify imageHistory))).

(** The save effect depends on [imageHistory]: after the first render it
    runs again after each render in which the history is another array than
    before.  Every call of [setImageHistory] passes a new array, so
    [replaced] says whether the event made such a call. *)
Definition rerender (replaced : bool) : M Page unit :=
  if replaced then
    s <- getState ;;
    saveHistory (imageHistory s)
  else ret tt.



(** A click on [Clear All], with the render that follows. *)
Definition clearHistory (confirmed : bool) : M Page unit :=
  handleClearHistory confirmed ;;
  rerender confirmed.

End Persistence.

(** ** The settings dialog *)

(** The initial value of an input cell of the dialog:
    [localStorage.getItem(key) || ''] *)
Definition inputOf (item : jsval) : jsstring :=
  if truthy item then toStr item else [].

(** The [onClose] that [App] passes to the dialog. *)
Definition onClose : M Page unit :=
  update (withApp (withShowStorageModal false)) ;;
  update (fun p => withApp (withStorageStatus (getGCSConfig (settings p))) p).

(** [handleSave] with the input cells [bucket] and [token], up to the
    timer it sets. *)
Definition handleSave (bucket token : jsstring) : M Page unit :=
  (if truthy (JStr bucket)
   then update (withSettings (withBucketOverride (JStr bucket)))
   else update (withSettings (withBucketOverride JNull))) ;;
  (if truthy (JStr token)
   then update (withSettings (withTokenOverride (JStr token)))
   else update (withSettings (withTokenOverride JNull))) ;;
  update (withSaved true).

(** The callback of that timer. *)
Definition afterSave : M Page unit :=
  update (withSaved false) ;;
  onClose.

(** The button [Clear Overrides]. *)
Definition clearOverrides : M Page unit :=
  update (withSettings (withBucketOverride JNull)) ;;
  update (withSettings (withTokenOverride JNull)) ;;
  onClose.

End Browser.

(* ================================================================== *)
(** * Further notions used to state the properties *)
(* ================================================================== *)

Module Notions.

Import GeminiService StorageService App Actions Browser.

(** The part carries image bytes: the test of the loops over the parts,
    [part.inlineData && part.inlineData.data]. *)
Definition carriesImage (p : Part) : bool :=
  match p with
  | InlineData _ d => truthy d
  | TextPart _ => false
  end.

(** A PNG data URI with the given base64 payload. *)
Definition pngDataUri (payload : jsstring) : jsstring :=
  lit "data:image/png;base64," ++ payload.

(** The model requests among the events. *)
Definition modelRequests (evs : list Event) : list GenRequest :=
  flat_map
    (fun e => match e with GenerateContent r => [r] | _ => [] end) evs.

(** The uploads started among the events, as pairs of image data and
    identifier. *)
Definition uploadsStarted (evs : list Event) : list (jsstring * jsstring) :=
  flat_map
    (fun e => match e with StartUpload d i => [(d, i)] | _ => [] end) evs.

(** A string without white space at either end and without a line feed
    (U+000A), the character the facts are split at.  The other line
    terminators (a carriage return, U+2028, U+2029) may stand inside it. *)
Definition trimmedNoLineFeed (s : jsstring) : Prop :=
  trim s = s /\ ~ In 10%N s.

(** A grounding chunk that carries the citation [item]: both fields are
    non-empty strings. *)
Definition cites (chunk : GroundingChunk) (item : SearchResultItem.t) : Prop :=
  exists w,
    web chunk = Some w /\
    uri w = JStr (SearchResultItem.url item) /\
    web_title w = JStr (SearchResultItem.title item) /\
    SearchResultItem.url item <> [] /\
    SearchResultItem.title item <> [].

(** ** How a cycle ends *)

(** The cycle started in [s] failed with [e]: the history, the active
    image and the syncing flag are as before, the error message is chosen
    by the test on the message of [e], and an access failure takes the key
    away. *)
Definition failedWith (denied generic : jsstring) (e : jserror)
  (s s' : AppState) : Prop :=
  imageHistory s' = imageHistory s /\
  activeImageId s' = activeImageId s /\
  isSyncing s' = isSyncing s /\
  error s' = JStr (if isAccessError e then denied else generic) /\
  hasApiKey s' = (if isAccessError e then false else hasApiKey s).

(** The cycle started in [s] produced [img]. *)
Definition succeededWith (img : GeneratedImage.t) (s s' : AppState) : Prop :=
  imageHistory s' = img :: imageHistory s /\
  activeImageId s' = JStr (GeneratedImage.id img) /\
  isSyncing s' = true /\
  error s' = JNull /\
  hasApiKey s' = hasApiKey s.

(** The inputs of the form and the dialogs are the same in [s] and [s']. *)
Definition sameInputs (s s' : AppState) : Prop :=
  topic s' = topic s /\ contextSources s' = contextSources s /\
  complexityLevel s' = complexityLevel s /\ visualStyle s' = visualStyle s /\
  language s' = language s /\ aspectRatio s' = aspectRatio s /\
  resolution s' = resolution s /\ isDarkMode s' = isDarkMode s /\
  showStorageModal s' = showStorageModal s /\
  storageStatus s' = storageStatus s /\
  showContextOptions s' = showContextOptions s /\
  showUrlInput s' = showUrlInput s /\ urlInputValue s' = urlInputValue s /\
  checkingKey s' = checkingKey s.

(** The research request of a generation cycle started in [s]. *)
Definition researchOf (s : AppState) : GenRequest :=
  researchRequest (effectiveTopic s) (complexityLevel s) (visualStyle s)
    (language s) (contextData s).

(** What the research of that cycle makes of the answer [response], and
    the image request that follows. *)
Definition resultOf (s : AppState) (response : GenResponse)
  : ResearchResult.t :=
  parseResearch (effectiveTopic s) (getLevelInstruction (complexityLevel s))
    (getStyleInstruction (visualStyle s)) response.

Definition imageOf (s : AppState) (response : GenResponse) : GenRequest :=
  imageRequest (ResearchResult.imagePrompt (resultOf s response))
    (aspectRatio s) (resolution s).

(** ** Sessions of the page *)





Section Sessions.
Variable world : Oracle.
Variable stringify : list GeneratedImage.t -> jsstring.
Variable parse : jsstring -> completion (list GeneratedImage.t).



End Sessions.



End Notions.

(* ================================================================== *)
(** * Further sample data, for the examples *)
(* ================================================================== *)

Module Scenarios.

Import GeminiService StorageService App Actions Browser Notions Samples.

(** A session: the topic is typed, an infographic is generated and then
    edited, and a new session is begun. *)
Definition topicTyped : World AppState :=
  snd (setTopic (lit "Photosynthesis") start).

Definition generated : World AppState :=
  invoke (handleGenerate world) topicTyped.

Definition edited : World AppState :=
  invoke (fun s => handleEdit world s (lit "make it blue")) generated.

Definition renewed : World AppState := snd (handleNewSession edited).

(** The image that the generation of this session produces, and the one
    that the edit produces. *)
Definition generatedImage : GeneratedImage.t :=
  GeneratedImage.Build (lit "1730000000002")
    (lit "data:image/png;base64,iVBORw0KGgo=") photosynthesis 1730000000003
    (lit "Expert") defaultStyle english (lit "16:9") (lit "1K").

Definition editedImage : GeneratedImage.t :=
  GeneratedImage.Build (lit "1730000000006")
    (lit "data:image/png;base64,iVBORw0KGgo=") (lit "make it blue")
    1730000000007 (lit "Expert") defaultStyle english (lit "16:9") (lit "1K").

(** The answer of the image model names a JPEG and comes after a part
    without bytes. *)
Definition mislabelledResponse : GenResponse :=
  {| resp_text := JUndefined;
     resp_parts :=
       Some [TextPart (lit "Here is your image.");
             InlineData (JStr (lit "image/png")) (JStr []);
             InlineData (JStr (lit "image/jpeg")) (JStr (lit "/9j/4AAQ"));
             InlineData (JStr (lit "image/png")) (JStr (lit "iVBORw0KGgo="))];
     resp_groundingChunks := None |}.

(** An answer of the text model without text and without citations. *)
Definition emptyResponse : GenResponse :=
  {| resp_text := JStr [];
     resp_parts := None;
     resp_groundingChunks := None |}.

Definition silentWorld : Oracle :=
  {| fetchBlob := fetchBlob world;
     fetchUpload := fetchUpload world;
     generateContent := fun _ _ => Returned emptyResponse;
     clock := clock world |}.

(** A selection of three files, the second of them too large. *)
Definition notes : File :=
  {| file_name := lit "notes.md"; file_size := 1048576 |}.
Definition thesis : File :=
  {| file_name := lit "thesis.txt"; file_size := 1048577 |}.
Definition readme : File :=
  {| file_name := lit "readme.txt"; file_size := 120 |}.

(** The research is answered and the image request fails. *)
Definition halfWorld : Oracle :=
  {| fetchBlob := fetchBlob world;
     fetchUpload := fetchUpload world;
     generateContent :=
       fun _ request =>
         if req_googleSearch request then Returned researchResponse
         else Threw (Error (lit "The model is overloaded."));
     clock := clock world |}.

(** An address has been typed into the URL dialog. *)
Definition urlTyped : World AppState :=
  snd (setUrlInputValue (lit "https://example.org/photosynthesis") start).

(** AI Studio with a key selector that completes. *)
Definition studio : AiStudio :=
  {| hasSelectedApiKey := Some (Returned false);
     openSelectKey := Some (Returned tt) |}.

(** The page as the settings dialog finds it: the environment names a
    bucket and a token, and nothing is overridden. *)
Definition page : World Page :=
  {| store := {| app := initialState configured;
                 infogenius_history_v1 := JNull;
                 settings := configured;
                 saved := false |};
     trace := [] |}.









End Scenarios.
(* ================================================================== *)
(** * Properties *)
(* ================================================================== *)

Import JS Effects GeminiService StorageService App Spec.
Local Open Scope js_scope.

(** ** Strings *)

Section StringFacts.

Lemma streqb_eq (a b : jsstring) : streqb a b = true <-> a = b.
Proof.
  revert b; induction a as [|x a IH]; intros [|y b]; simpl;
    try (split; [discriminate | discriminate]); try tauto.
  rewrite andb_true_iff, N.eqb_eq, IH.
  split; [intros [-> ->]; reflexivity | intros H; inversion H; auto].
Qed.

Lemma streqb_refl (a : jsstring) : streqb a a = true.
Proof. apply streqb_eq; reflexivity. Qed.

Lemma streqb_neq (a b : jsstring) : streqb a b = false <-> a <> b.
Proof.
  rewrite <- streqb_eq. destruct (streqb a b); split; congruence.
Qed.

Lemma startsWith_spec (pat s : jsstring) :
  startsWith pat s = true <-> exists post, s = pat ++ post.
Proof.
  revert s; induction pat as [|p pat IH]; intros s; simpl.
  - split; [intros _; exists s; reflexivity | reflexivity].
  - destruct s as [|c s].
    + split; [discriminate | intros [post H]; discriminate].
    + rewrite andb_true_iff, N.eqb_eq, IH. split.
      * intros [-> [post ->]]. exists post; reflexivity.
      * intros [post H]. inversion H; subst. split; [reflexivity | eauto].
Qed.

Lemma includes_spec (pat s : jsstring) :
  includes pat s = true <-> contains pat s.
Proof.
  unfold contains. induction s as [|c s IH].
  - simpl. rewrite orb_false_r, startsWith_spec. split.
    + intros [post H]. exists [], post. exact H.
    + intros [pre [post H]]. destruct pre; simpl in H.
      * eauto.
      * discriminate.
  - cbn [includes]. rewrite orb_true_iff, startsWith_spec, IH. split.
    + intros [[post H] | [pre [post H]]].
      * exists [], post. exact H.
      * exists (c :: pre), post. simpl. rewrite H. reflexivity.
    + intros [[|c' pre] [post H]].
      * left. eauto.
      * right. simpl in H. inversion H; subst. eauto.
Qed.

Lemma stripPrefix_ci_spec (pat s rest : jsstring) :
  stripPrefix_ci pat s = Some rest <->
  exists m, s = m ++ rest /\ ci_equal m pat.
Proof.
  unfold ci_equal. revert s; induction pat as [|p pat IH]; intros s; simpl.
  - split.
    + intros H; inversion H; subst. exists []. split; [reflexivity | constructor].
    + intros [m [-> H]]. inversion H; subst. reflexivity.
  - destruct s as [|c s].
    + split; [discriminate |].
      intros [m [H1 H2]]. inversion H2; subst. discriminate.
    + unfold ci_eqb. destruct (N.eqb_spec (canon c) (canon p)) as [E|E].
      * rewrite IH. split.
        -- intros [m [-> H]]. exists (c :: m). split; [reflexivity | constructor; assumption].
        -- intros [m [H1 H2]]. inversion H2; subst. simpl in H1.
           inversion H1; subst. eauto.
      * split; [discriminate |].
        intros [m [H1 H2]]. inversion H2; subst. simpl in H1.
        inversion H1; subst. contradiction.
Qed.

Lemma stripPrefix_ci_None (pat s : jsstring) :
  stripPrefix_ci pat s = None <->
  ~ exists m rest, s = m ++ rest /\ ci_equal m pat.
Proof.
  split.
  - intros H [m [rest Hm]].
    assert (stripPrefix_ci pat s = Some rest) as E
      by (apply stripPrefix_ci_spec; eauto).
    congruence.
  - intros H. destruct (stripPrefix_ci pat s) as [rest|] eqn:E; [|reflexivity].
    exfalso. apply H. apply stripPrefix_ci_spec in E.
    destruct E as [m Hm]. eauto.
Qed.

Lemma searchAfter_ci_None (pat s : jsstring) :
  searchAfter_ci pat s = None <-> ~ occurs_ci pat s.
Proof.
  unfold occurs_ci. induction s as [|c s IH].
  - simpl. destruct (stripPrefix_ci pat []) as [rest|] eqn:E.
    + split; [discriminate |]. intros H. exfalso. apply H.
      apply stripPrefix_ci_spec in E. destruct E as [m [E1 E2]].
      exists [], m, rest. auto.
    + split; [| reflexivity]. intros _ [pre [m [post [H1 H2]]]].
      apply (proj1 (stripPrefix_ci_None pat []) E).
      destruct pre; [| discriminate]. simpl in H1. exists m, post. auto.
  - cbn [searchAfter_ci]. destruct (stripPrefix_ci pat (c :: s)) as [rest|] eqn:E.
    + split; [discriminate |]. intros H. exfalso. apply H.
      apply stripPrefix_ci_spec in E. destruct E as [m [E1 E2]].
      exists [], m, rest. auto.
    + rewrite IH. split.
      * intros H [[|c' pre] [m [post [H1 H2]]]].
        -- apply (proj1 (stripPrefix_ci_None pat (c :: s)) E).
           simpl in H1. exists m, post. auto.
        -- simpl in H1. inversion H1; subst. apply H. exists pre, m, post. auto.
      * intros H [pre [m [post [H1 H2]]]]. apply H.
        exists (c :: pre), m, post. simpl. rewrite H1. auto.
Qed.

(** *** Trimming *)

Lemma dropWhile_idem (A : Type) (p : A -> bool) (l : list A) :
  dropWhile p (dropWhile p l) = dropWhile p l.
Proof.
  induction l as [|x l IH]; simpl; [reflexivity |].
  destruct (p x) eqn:E; [exact IH | simpl; rewrite E; reflexivity].
Qed.

Lemma trim_trimStart (s : jsstring) : trim (trimStart s) = trim s.
Proof. unfold trim, trimStart. rewrite dropWhile_idem. reflexivity. Qed.

Lemma dropWhile_all (A : Type) (p : A -> bool) (l : list A) :
  dropWhile p l = [] <-> forallb p l = true.
Proof.
  induction l as [|x l IH]; simpl; [tauto |].
  destruct (p x); simpl; [exact IH | split; discriminate].
Qed.

Lemma rev_nil_iff (A : Type) (l : list A) : rev l = [] <-> l = [].
Proof.
  split; [| intros ->; reflexivity].
  intros H. apply (f_equal (@rev A)) in H. rewrite rev_involutive in H.
  exact H.
Qed.

Lemma forallb_rev (A : Type) (p : A -> bool) (l : list A) :
  forallb p (rev l) = forallb p l.
Proof.
  induction l as [|x l IH]; simpl; [reflexivity |].
  rewrite forallb_app, IH. simpl. rewrite andb_true_r. apply andb_comm.
Qed.

(** A string trims to nothing exactly when it is all white space. *)
Lemma trim_nil_iff (s : jsstring) :
  trim s = [] <-> forallb isWhiteSpace s = true.
Proof.
  unfold trim, trimEnd, trimStart. split.
  - intros H. apply (proj1 (rev_nil_iff _)) in H.
    apply (proj1 (dropWhile_all _ _)) in H.
    rewrite forallb_rev in H.
    induction s as [|c s IH]; simpl in *; [reflexivity |].
    destruct (isWhiteSpace c) eqn:E; simpl; [auto |].
    simpl in H. rewrite E in H. discriminate.
  - intros H. apply (proj2 (dropWhile_all _ _)) in H. rewrite H. reflexivity.
Qed.

(** *** Finding the first occurrence *)

Lemma ci_equal_length (m pat : jsstring) :
  ci_equal m pat -> List.length m = List.length pat.
Proof. apply Forall2_length. Qed.

Lemma occurs_ci_cons (pat s : jsstring) (c : N) :
  occurs_ci pat s -> occurs_ci pat (c :: s).
Proof.
  intros [pre [m [post [-> H]]]]. exists (c :: pre), m, post. auto.
Qed.

(** A prefix of [a ++ b] no longer than [a] is a prefix of [a]. *)
Lemma prefix_within (a b m rest : jsstring) :
  a ++ b = m ++ rest -> List.length m <= List.length a ->
  exists post, a = m ++ post.
Proof.
  intros H Hlen. exists (skipn (List.length m) a).
  rewrite <- (firstn_skipn (List.length m) a) at 1. f_equal.
  apply (f_equal (firstn (List.length m))) in H.
  rewrite firstn_app in H.
  replace (List.length m - List.length a) with 0 in H by lia.
  rewrite firstn_O, app_nil_r in H. rewrite H.
  rewrite firstn_app, Nat.sub_diag, firstn_O, app_nil_r.
  apply firstn_all.
Qed.

(** No occurrence of [pat] begins inside [a] when [a] is followed by a
    string [k] as long as [pat] and [pat] does not occur in [a] extended by
    all of [k] but its last character. *)
Lemma no_match_before (pat a k rest : jsstring) (c : N) :
  List.length k = List.length pat -> k <> [] ->
  ~ occurs_ci pat ((c :: a) ++ removelast k) ->
  stripPrefix_ci pat ((c :: a) ++ k ++ rest) = None.
Proof.
  intros Hlen Hk Hno.
  destruct (stripPrefix_ci pat ((c :: a) ++ k ++ rest)) as [r|] eqn:E;
    [| reflexivity].
  exfalso. apply stripPrefix_ci_spec in E. destruct E as [m [E Hm]].
  rewrite (app_removelast_last 0%N Hk) in E.
  rewrite <- !app_assoc in E. rewrite app_assoc in E.
  apply prefix_within in E.
  - destruct E as [post E]. apply Hno. exists [], m, post. auto.
  - rewrite (ci_equal_length Hm), <- Hlen, length_app. simpl.
    assert (List.length (removelast k) = List.length k - 1) as Hr.
    { rewrite (app_removelast_last 0%N Hk) at 2.
      rewrite length_app. simpl. lia. }
    destruct k; [contradiction |]. simpl in *. lia.
Qed.

Lemma searchAfter_ci_first (pat pre k rest : jsstring) :
  ci_equal k pat -> k <> [] ->
  ~ occurs_ci pat (pre ++ removelast k) ->
  searchAfter_ci pat (pre ++ k ++ rest) = Some rest.
Proof.
  intros Hk Hne. induction pre as [|c pre IH]; intros Hno.
  - destruct k as [|c k]; [contradiction |].
    cbn [app searchAfter_ci].
    assert (stripPrefix_ci pat (c :: k ++ rest) = Some rest) as ->
      by (apply stripPrefix_ci_spec; exists (c :: k); auto).
    reflexivity.
  - cbn [app searchAfter_ci].
    assert (stripPrefix_ci pat (c :: pre ++ k ++ rest) = None) as ->
      by (apply no_match_before;
          [apply ci_equal_length; assumption | assumption | exact Hno]).
    apply IH. intros H. apply Hno. simpl. apply occurs_ci_cons. exact H.
Qed.

Lemma lazyUntil_ci_stops (pat body k rest : jsstring) :
  ci_equal k pat -> k <> [] ->
  ~ occurs_ci pat (body ++ removelast k) ->
  lazyUntil_ci pat (body ++ k ++ rest) = body.
Proof.
  intros Hk Hne. induction body as [|c body IH]; intros Hno.
  - destruct k as [|c k]; [contradiction |].
    cbn [app lazyUntil_ci].
    assert (stripPrefix_ci pat (c :: k ++ rest) = Some rest) as ->
      by (apply stripPrefix_ci_spec; exists (c :: k); auto).
    reflexivity.
  - cbn [app lazyUntil_ci].
    assert (stripPrefix_ci pat (c :: body ++ k ++ rest) = None) as ->
      by (apply no_match_before;
          [apply ci_equal_length; assumption | assumption | exact Hno]).
    f_equal. apply IH. intros H. apply Hno. simpl. apply occurs_ci_cons.
    exact H.
Qed.

Lemma lazyUntil_ci_all (pat body : jsstring) :
  ~ occurs_ci pat body -> lazyUntil_ci pat body = body.
Proof.
  induction body as [|c body IH]; intros Hno.
  - simpl. destruct (stripPrefix_ci pat []); reflexivity.
  - cbn [lazyUntil_ci].
    destruct (stripPrefix_ci pat (c :: body)) as [r|] eqn:E.
    + exfalso. apply Hno. apply stripPrefix_ci_spec in E.
      destruct E as [m [E Hm]]. exists [], m, r. auto.
    + f_equal. apply IH. intros H. apply Hno. apply occurs_ci_cons. exact H.
Qed.

Lemma dropWhile_app_all (A : Type) (p : A -> bool) (ws s : list A) :
  forallb p ws = true -> dropWhile p (ws ++ s) = dropWhile p s.
Proof.
  induction ws as [|x ws IH]; simpl; [reflexivity |].
  intros H. apply andb_true_iff in H. destruct H as [-> H]. auto.
Qed.

End StringFacts.

(** ** The configuration resolver *)

Section Configuration.

Lemma truthy_present (v : jsval) : truthy v = true <-> present v.
Proof.
  unfold present. destruct v as [| |[|c s]]; simpl; split;
    try discriminate; try (intros [s' [H _]]; discriminate).
  - intros [s' [H H']]. inversion H; subst. contradiction.
  - intros _. exists (c :: s). split; [reflexivity | discriminate].
  - reflexivity.
Qed.

Lemma not_truthy_present (v : jsval) : truthy v = false <-> ~ present v.
Proof.
  rewrite <- truthy_present. destruct (truthy v); split; congruence.
Qed.

Lemma truthy_jsor (a b : jsval) : truthy (jsor a b) = truthy a || truthy b.
Proof. unfold jsor. destruct (truthy a) eqn:E; simpl; auto. Qed.

(** [override || fallback || ''] takes the override when it is present, else
    the fallback when that is present, else the empty string. *)
Lemma resolve_field (override fallback : jsval) :
  (present override -> jsor (jsor override fallback) (JStr []) = override) /\
  (~ present override -> present fallback ->
   jsor (jsor override fallback) (JStr []) = fallback) /\
  (~ present override -> ~ present fallback ->
   jsor (jsor override fallback) (JStr []) = JStr []).
Proof.
  repeat split; intros; unfold jsor;
    repeat match goal with
      | H : present _ |- _ => apply truthy_present in H; rewrite ?H
      | H : ~ present _ |- _ => apply not_truthy_present in H; rewrite ?H
      end; rewrite ?H, ?H0; reflexivity.
Qed.

(** C2.  [getGCSConfig] over every combination of its inputs: [isConfigured]
    holds exactly when a bucket and a token are each present in the override
    store or in the environment; each field is the override if present, else
    the environment value if present, else empty; [source] is [manual] when
    an override is present, else [env] when an environment value is, else
    [none].  The environment token is [GCS_ACCESS_TOKEN] or, failing that,
    [GCS_CREDENTIALS]. *)
Theorem getGCSConfig_precedence (e : Environment) :
  let c := getGCSConfig e in
  let ob := gcs_bucket_override e in
  let ot := gcs_token_override e in
  let eb := GCS_BUCKET_NAME e in
  let et := envToken e in
  (isConfigured c = true <->
     (present ob \/ present eb) /\ (present ot \/ present et)) /\
  ((present ob -> bucket c = ob) /\
   (~ present ob -> present eb -> bucket c = eb) /\
   (~ present ob -> ~ present eb -> bucket c = JStr [])) /\
  ((present ot -> token c = ot) /\
   (~ present ot -> present et -> token c = et) /\
   (~ present ot -> ~ present et -> token c = JStr [])) /\
  (source c = manual <-> present ob \/ present ot) /\
  (source c = env <->
     ~ (present ob \/ present ot) /\ (present eb \/ present et)) /\
  (source c = none <->
     ~ (present ob \/ present ot) /\ ~ (present eb \/ present et)) /\
  (present et <->
     present (GCS_ACCESS_TOKEN e) \/ present (GCS_CREDENTIALS e)).
Proof.
  cbv zeta. unfold getGCSConfig, envToken. simpl.
  split; [| split; [apply resolve_field | split; [apply resolve_field |]]].
  - rewrite <- !truthy_present, !truthy_jsor.
    destruct (truthy (gcs_bucket_override e)), (truthy (gcs_token_override e)),
      (truthy (GCS_BUCKET_NAME e)), (truthy (GCS_ACCESS_TOKEN e)),
      (truthy (GCS_CREDENTIALS e)); simpl; intuition discriminate.
  - rewrite <- !truthy_present, !truthy_jsor.
    destruct (truthy (gcs_bucket_override e)), (truthy (gcs_token_override e)),
      (truthy (GCS_BUCKET_NAME e)), (truthy (GCS_ACCESS_TOKEN e)),
      (truthy (GCS_CREDENTIALS e)); simpl;
      repeat split; intros; try discriminate; try reflexivity;
      intuition discriminate.
Qed.

End Configuration.

(** ** The uploader *)

Section Uploader.
Variable S : Type.
Variable world : Oracle.

Ltac run_monad :=
  cbv beta iota zeta
    delta [tryCatch tryFinally bind await emit ret throw liftCompletion update];
  cbn [store trace fst snd negb orb andb].

Lemma ok_is2xx (r : HttpResponse) : ok r = true <-> is2xx r.
Proof.
  unfold ok, is2xx. rewrite andb_true_iff, !N.leb_le. tauto.
Qed.

Ltac upload_facts :=
  repeat split;
  try (unfold uploadAttempts; simpl; lia);
  try discriminate;
  try solve
    [ intros;
      match goal with
      | H : Returned _ = Returned _ |- _ => inversion H; subst; clear H
      | H : Threw _ = Threw _ |- _ => inversion H; subst; clear H
      end;
      first [ reflexivity | eexists; split; reflexivity ] ].

(** What one call does, case by case. *)
Lemma uploadToGCS_behaviour (e : Environment) (base64Data id : jsstring)
  (w : World S) :
  let config := getGCSConfig e in
  exists (result : bool) (evs : list Event),
    StorageService.uploadToGCS world e base64Data id w
    = (Returned result, {| store := store w; trace := trace w ++ evs |}) /\
    (isConfigured config = false ->
       result = false /\ filter isRequest evs = []) /\
    (isConfigured config = true ->
       uploadAttempts evs <= 1 /\
       (forall err,
           fetchBlob world (trace w) base64Data = Threw err ->
           evs = [FetchData base64Data;
                  ConsoleError failedToSave (Some err)]) /\
       (forall blob,
           fetchBlob world (trace w) base64Data = Returned blob ->
           uploadAttempts evs = 1 /\
           exists rest,
             evs = FetchData base64Data
                   :: FetchPost (uploadUrl (bucket config) id)
                        (bearer (token config)) (mimeType base64Data) blob
                   :: rest /\
             filter isRequest rest = []) /\
       (result = true <->
          exists response,
            uploadAnswered world (trace w) (bucket config) (token config)
              base64Data id response /\ is2xx response) /\
       (result = false -> failureLogged evs)).
Proof.
  cbv zeta. unfold StorageService.uploadToGCS, uploadAnswered, failureLogged.
  destruct (isConfigured (getGCSConfig e)) eqn:Hc; run_monad.
  2:{ eexists false, [_]. split; [reflexivity |].
      split; [intros _; split; reflexivity | discriminate]. }
  destruct (fetchBlob world (trace w) base64Data) as [blob | err] eqn:Hb;
    run_monad.
  2:{ exists false, [FetchData base64Data; ConsoleError failedToSave (Some err)].
      split; [run_monad; rewrite <- ?app_assoc; reflexivity |].
      split; [discriminate | intros _]. upload_facts.
      - intros [r [[b [Hb' _]] _]]. discriminate.
      - intros _. exists err. simpl. auto. }
  destruct (fetchUpload world (trace w ++ [FetchData base64Data])
              (uploadUrl (bucket (getGCSConfig e)) id)
              (bearer (token (getGCSConfig e))) (mimeType base64Data) blob)
    as [response | err] eqn:Hu; run_monad.
  2:{ eexists false, [FetchData base64Data; FetchPost _ _ _ blob;
                      ConsoleError failedToSave (Some err)].
      split; [run_monad; rewrite <- ?app_assoc; reflexivity |].
      split; [discriminate | intros _]. upload_facts.
      - intros [r [[b [Hb' Hu']] _]]. inversion Hb'; subst. congruence.
      - intros _. exists err. simpl. auto. }
  destruct (ok response) eqn:Hok; run_monad.
  { eexists true, [FetchData base64Data; FetchPost _ _ _ blob; ConsoleLog _].
    split; [run_monad; rewrite <- ?app_assoc; reflexivity |].
    split; [discriminate | intros _]. upload_facts.
    intros _. exists response. split; [eauto | apply ok_is2xx; assumption]. }
  assert (forall r,
             (exists b,
                 Returned blob = Returned b /\
                 fetchUpload world (trace w ++ [FetchData base64Data])
                   (uploadUrl (bucket (getGCSConfig e)) id)
                   (bearer (token (getGCSConfig e))) (mimeType base64Data) b
                 = Returned r) /\ is2xx r -> False) as Hno.
  { intros r [[b [Hb' Hu']] H2]. inversion Hb'; subst.
    rewrite Hu in Hu'. inversion Hu'; subst.
    apply ok_is2xx in H2. congruence. }
  destruct (bodyText response) as [errorText | err] eqn:Ht; run_monad.
  2:{ eexists false, [FetchData base64Data; FetchPost _ _ _ blob;
                      ConsoleError failedToSave (Some err)].
      split; [run_monad; rewrite <- ?app_assoc; reflexivity |].
      split; [discriminate | intros _]. upload_facts.
      - intros [r Hr]. exfalso; eauto.
      - intros _. exists err. simpl. auto. }
  destruct ((status response =? 401)%N || (status response =? 403)%N);
    run_monad.
  - eexists false, [FetchData base64Data; FetchPost _ _ _ blob;
                    ConsoleError _ None; ConsoleError failedToSave (Some _)].
    split; [run_monad; rewrite <- ?app_assoc; reflexivity |].
    split; [discriminate | intros _]. upload_facts.
    + intros [r Hr]. exfalso; eauto.
    + intros _. eexists. simpl. eauto.
  - eexists false, [FetchData base64Data; FetchPost _ _ _ blob;
                    ConsoleError failedToSave (Some _)].
    split; [run_monad; rewrite <- ?app_assoc; reflexivity |].
    split; [discriminate | intros _]. upload_facts.
    + intros [r Hr]. exfalso; eauto.
    + intros _. eexists. simpl. eauto.
Qed.

(** The earlier revision, case by case. *)
Lemma uploadToGCS_env_only_behaviour (e : Environment)
  (base64Data id : jsstring) (w : World S) :
  let bucket := GCS_BUCKET_NAME e in
  let token := envToken e in
  exists evs : list Event,
    StorageServiceEnvOnly.uploadToGCS world e base64Data id w
    = (Returned tt, {| store := store w; trace := trace w ++ evs |}) /\
    (~ (present bucket /\ present token) -> filter isRequest evs = []) /\
    (present bucket /\ present token ->
       uploadAttempts evs <= 1 /\
       (forall err,
           fetchBlob world (trace w) base64Data = Threw err ->
           evs = [FetchData base64Data;
                  ConsoleError failedToSave (Some err)]) /\
       (forall blob,
           fetchBlob world (trace w) base64Data = Returned blob ->
           uploadAttempts evs = 1 /\
           exists rest,
             evs = FetchData base64Data
                   :: FetchPost (uploadUrl bucket id) (bearer token)
                        (mimeType base64Data) blob
                   :: rest /\
             filter isRequest rest = []) /\
       (failureLogged evs <->
          ~ exists response,
              uploadAnswered world (trace w) bucket token base64Data id
                response /\ is2xx response)).
Proof.
  cbv zeta.
  unfold StorageServiceEnvOnly.uploadToGCS, uploadAnswered, failureLogged,
    envToken.
  set (bucket := GCS_BUCKET_NAME e).
  set (token := jsor (GCS_ACCESS_TOKEN e) (GCS_CREDENTIALS e)).
  assert (present bucket /\ present token <->
          truthy bucket && truthy token = true) as Hp
    by (rewrite andb_true_iff, !truthy_present; tauto).
  destruct (truthy bucket) eqn:Hb0, (truthy token) eqn:Ht0; run_monad;
    try (eexists [_]; split; [reflexivity |];
         split; [reflexivity | intros H; apply Hp in H; discriminate]).
  destruct (fetchBlob world (trace w) base64Data) as [blob | err] eqn:Hb;
    run_monad.
  2:{ exists [FetchData base64Data; ConsoleError failedToSave (Some err)].
      split; [run_monad; rewrite <- ?app_assoc; reflexivity |].
      split; [intros H; exfalso; apply H, Hp; reflexivity | intros _].
      upload_facts.
      - intros _ [r [[b [Hb' _]] _]]. discriminate.
      - intros _. exists err. simpl. auto. }
  destruct (fetchUpload world (trace w ++ [FetchData base64Data])
              (uploadUrl bucket id) (bearer token) (mimeType base64Data) blob)
    as [response | err] eqn:Hu; run_monad.
  2:{ eexists [FetchData base64Data; FetchPost _ _ _ blob;
               ConsoleError failedToSave (Some err)].
      split; [run_monad; rewrite <- ?app_assoc; reflexivity |].
      split; [intros H; exfalso; apply H, Hp; reflexivity | intros _].
      upload_facts.
      - intros _ [r [[b [Hb' Hu']] _]]. inversion Hb'; subst. congruence.
      - intros _. exists err. simpl. auto. }
  destruct (ok response) eqn:Hok; run_monad.
  { eexists [FetchData base64Data; FetchPost _ _ _ blob; ConsoleLog _].
    split; [run_monad; rewrite <- ?app_assoc; reflexivity |].
    split; [intros H; exfalso; apply H, Hp; reflexivity | intros _].
    upload_facts.
    - intros [err Herr] _. simpl in Herr.
      destruct Herr as [H | [H | [H | []]]]; discriminate.
    - intros H. exfalso. apply H. exists response.
      split; [eauto | apply ok_is2xx; assumption]. }
  assert (forall r,
             (exists b,
                 Returned blob = Returned b /\
                 fetchUpload world (trace w ++ [FetchData base64Data])
                   (uploadUrl bucket id) (bearer token) (mimeType base64Data)
                   b = Returned r) /\ is2xx r -> False) as Hno.
  { intros r [[b [Hb' Hu']] H2]. inversion Hb'; subst.
    rewrite Hu in Hu'. inversion Hu'; subst.
    apply ok_is2xx in H2. congruence. }
  destruct (bodyText response) as [errorText | err] eqn:Ht; run_monad.
  - eexists [FetchData base64Data; FetchPost _ _ _ blob;
             ConsoleError failedToSave (Some _)].
    split; [run_monad; rewrite <- ?app_assoc; reflexivity |].
    split; [intros H; exfalso; apply H, Hp; reflexivity | intros _].
    upload_facts.
    + intros _ [r Hr]. eauto.
    + intros _. eexists. simpl. eauto.
  - eexists [FetchData base64Data; FetchPost _ _ _ blob;
             ConsoleError failedToSave (Some err)].
    split; [run_monad; rewrite <- ?app_assoc; reflexivity |].
    split; [intros H; exfalso; apply H, Hp; reflexivity | intros _].
    upload_facts.
    + intros _ [r Hr]. eauto.
    + intros _. exists err. simpl. auto.
Qed.

(** C4.  [uploadToGCS] never throws, whatever the image, the identifier and
    the answers of the network.  Without a resolved configuration it returns
    after logging, with no request made.  Otherwise it makes one attempt: it
    reads the image and, unless that throws, sends exactly one upload
    request and no other; in no case more than one.  It returns [true]
    exactly when that request was answered with a 2xx status, and every
    other outcome (a thrown error, any other status) ends in the [catch]
    block, which logs it and returns [false].  The earlier revision does the
    same and returns nothing. *)
Theorem uploadToGCS_contains_failures
  (e : Environment) (base64Data id : jsstring) (w : World S) :
  (exists (result : bool) (evs : list Event),
      StorageService.uploadToGCS world e base64Data id w
      = (Returned result, {| store := store w; trace := trace w ++ evs |}) /\
      (isConfigured (getGCSConfig e) = false ->
         result = false /\ filter isRequest evs = []) /\
      (isConfigured (getGCSConfig e) = true ->
         uploadAttempts evs <= 1 /\
         (forall err,
             fetchBlob world (trace w) base64Data = Threw err ->
             evs = [FetchData base64Data;
                    ConsoleError failedToSave (Some err)]) /\
         (forall blob,
             fetchBlob world (trace w) base64Data = Returned blob ->
             uploadAttempts evs = 1 /\
             exists rest,
               evs = FetchData base64Data
                     :: FetchPost (uploadUrl (bucket (getGCSConfig e)) id)
                          (bearer (token (getGCSConfig e)))
                          (mimeType base64Data) blob
                     :: rest /\
               filter isRequest rest = []) /\
         (result = true <->
            exists response,
              uploadAnswered world (trace w) (bucket (getGCSConfig e))
                (token (getGCSConfig e)) base64Data id response /\
              is2xx response) /\
         (result = false -> failureLogged evs))) /\
  (exists evs : list Event,
      StorageServiceEnvOnly.uploadToGCS world e base64Data id w
      = (Returned tt, {| store := store w; trace := trace w ++ evs |}) /\
      (~ (present (GCS_BUCKET_NAME e) /\ present (envToken e)) ->
         filter isRequest evs = []) /\
      (present (GCS_BUCKET_NAME e) /\ present (envToken e) ->
         uploadAttempts evs <= 1 /\
         (forall err,
             fetchBlob world (trace w) base64Data = Threw err ->
             evs = [FetchData base64Data;
                    ConsoleError failedToSave (Some err)]) /\
         (forall blob,
             fetchBlob world (trace w) base64Data = Returned blob ->
             uploadAttempts evs = 1 /\
             exists rest,
               evs = FetchData base64Data
                     :: FetchPost (uploadUrl (GCS_BUCKET_NAME e) id)
                          (bearer (envToken e)) (mimeType base64Data) blob
                     :: rest /\
               filter isRequest rest = []) /\
         (failureLogged evs <->
            ~ exists response,
                uploadAnswered world (trace w) (GCS_BUCKET_NAME e)
                  (envToken e) base64Data id response /\ is2xx response))).
Proof.
  split.
  - apply uploadToGCS_behaviour.
  - apply uploadToGCS_env_only_behaviour.
Qed.

(** C10.  The result of [uploadToGCS] does not tell a skipped upload from a
    failed one: it is [false] when the configuration is unresolved (and then
    no request was made), and [false] again when an attempted upload fails;
    so the two calls return the same value.  It is [true] only when one
    upload request was made and answered with a 2xx status. *)
Theorem uploadToGCS_false_is_ambiguous
  (base64Data id : jsstring) (w : World S) :
  (forall e,
      isConfigured (getGCSConfig e) = false ->
      exists evs,
        StorageService.uploadToGCS world e base64Data id w
        = (Returned false, {| store := store w; trace := trace w ++ evs |}) /\
        filter isRequest evs = []) /\
  (forall e,
      isConfigured (getGCSConfig e) = true ->
      (~ exists response,
           uploadAnswered world (trace w) (bucket (getGCSConfig e))
             (token (getGCSConfig e)) base64Data id response /\
           is2xx response) ->
      fst (StorageService.uploadToGCS world e base64Data id w)
      = Returned false) /\
  (forall skipped failing,
      isConfigured (getGCSConfig skipped) = false ->
      isConfigured (getGCSConfig failing) = true ->
      (~ exists response,
           uploadAnswered world (trace w) (bucket (getGCSConfig failing))
             (token (getGCSConfig failing)) base64Data id response /\
           is2xx response) ->
      fst (StorageService.uploadToGCS world skipped base64Data id w)
      = fst (StorageService.uploadToGCS world failing base64Data id w)) /\
  (forall e w',
      StorageService.uploadToGCS world e base64Data id w
      = (Returned true, w') ->
      isConfigured (getGCSConfig e) = true /\
      (exists response,
          uploadAnswered world (trace w) (bucket (getGCSConfig e))
            (token (getGCSConfig e)) base64Data id response /\
          is2xx response) /\
      exists evs, trace w' = trace w ++ evs /\ uploadAttempts evs = 1).
Proof.
  assert (forall e,
             isConfigured (getGCSConfig e) = true ->
             (~ exists response,
                  uploadAnswered world (trace w) (bucket (getGCSConfig e))
                    (token (getGCSConfig e)) base64Data id response /\
                  is2xx response) ->
             fst (StorageService.uploadToGCS world e base64Data id w)
             = Returned false) as Hfail.
  { intros e Hc Hno.
    destruct (uploadToGCS_behaviour e base64Data id w)
      as [result [evs [Hrun [_ Hconf]]]].
    rewrite Hrun. simpl. destruct (Hconf Hc) as [_ [_ [_ [Htrue _]]]].
    destruct result; [| reflexivity].
    exfalso. apply Hno. apply Htrue. reflexivity. }
  assert (forall e,
             isConfigured (getGCSConfig e) = false ->
             exists evs,
               StorageService.uploadToGCS world e base64Data id w
               = (Returned false,
                  {| store := store w; trace := trace w ++ evs |}) /\
               filter isRequest evs = []) as Hskip.
  { intros e Hc.
    destruct (uploadToGCS_behaviour e base64Data id w)
      as [result [evs [Hrun [Hun _]]]].
    destruct (Hun Hc) as [-> Hreq]. eauto. }
  repeat split.
  - exact Hskip.
  - exact Hfail.
  - intros skipped failing Hs Hf Hno.
    destruct (Hskip skipped Hs) as [evs [-> _]]. simpl.
    symmetry. apply Hfail; assumption.
  - destruct (uploadToGCS_behaviour e base64Data id w)
      as [result [evs [Hrun [Hun _]]]].
    destruct (isConfigured (getGCSConfig e)); [reflexivity |].
    destruct (Hun eq_refl) as [-> _]. congruence.
  - destruct (uploadToGCS_behaviour e base64Data id w)
      as [result [evs [Hrun [Hun Hconf]]]].
    rewrite Hrun in H. inversion H; subst.
    destruct (isConfigured (getGCSConfig e)).
    + apply (Hconf eq_refl). reflexivity.
    + destruct (Hun eq_refl); discriminate.
  - destruct (uploadToGCS_behaviour e base64Data id w)
      as [result [evs [Hrun [Hun Hconf]]]].
    rewrite Hrun in H. inversion H; subst. simpl.
    exists evs. split; [reflexivity |].
    destruct (isConfigured (getGCSConfig e)).
    + destruct (Hconf eq_refl) as [_ [_ [Hone [Htrue _]]]].
      destruct (proj1 Htrue eq_refl) as [r [[blob [Hb _]] _]].
      apply (Hone blob Hb).
    + destruct (Hun eq_refl); discriminate.
Qed.

End Uploader.

(** ** The [Map] behind the citation list *)

Section MapFacts.
Variable V : Type.

Lemma mapSet_keys_In (k : jsstring) (v : V) (m : Map V) (k' : jsstring) :
  In k' (List.map fst (mapSet k v m)) <-> k' = k \/ In k' (List.map fst m).
Proof.
  induction m as [|[k0 v0] m IH]; simpl.
  - intuition.
  - destruct (streqb k0 k) eqn:E; simpl.
    + apply streqb_eq in E. subst k0. intuition.
    + rewrite IH. intuition.
Qed.

Lemma mapSet_NoDup (k : jsstring) (v : V) (m : Map V) :
  NoDup (List.map fst m) -> NoDup (List.map fst (mapSet k v m)).
Proof.
  induction m as [|[k0 v0] m IH]; simpl; intros H.
  - constructor; [intros [] | constructor].
  - inversion H as [|? ? Hnin Hnd]; subst.
    destruct (streqb k0 k) eqn:E; simpl.
    + constructor; assumption.
    + constructor; [| auto].
      rewrite mapSet_keys_In. intros [-> | Hin]; [| contradiction].
      rewrite streqb_refl in E. discriminate.
Qed.

(** After [set k v]: the binding of [k] is [v], the others are as before. *)
Lemma mapSet_In (k : jsstring) (v : V) (m : Map V) (k' : jsstring) (v' : V) :
  NoDup (List.map fst m) ->
  In (k', v') (mapSet k v m) ->
  (k' = k /\ v' = v) \/ (In (k', v') m /\ k' <> k).
Proof.
  induction m as [|[k0 v0] m IH]; simpl; intros Hnd.
  - intros [H | []]. inversion H; auto.
  - inversion Hnd as [|? ? Hnin Hnd']; subst.
    destruct (streqb k0 k) eqn:E.
    + apply streqb_eq in E. subst k0. intros [H | H].
      * inversion H; auto.
      * right. split; [auto |]. intros ->. apply Hnin.
        apply in_map_iff. exists (k, v'). auto.
    + apply streqb_neq in E. intros [H | H].
      * inversion H; subst. right. split; [auto | assumption].
      * destruct (IH Hnd' H) as [? | [? ?]]; auto.
Qed.

(** [set] keeps the place of a key already there and appends a new one. *)
Lemma mapSet_keys (k : jsstring) (v : V) (m : Map V) :
  List.map fst (mapSet k v m)
  = if existsb (streqb k) (List.map fst m) then List.map fst m
    else List.map fst m ++ [k].
Proof.
  induction m as [|[k0 v0] m IH]; simpl; [reflexivity |].
  destruct (streqb k0 k) eqn:E.
  - apply streqb_eq in E. subst k0. rewrite streqb_refl. reflexivity.
  - assert (streqb k k0 = false) as E'.
    { apply streqb_neq. apply streqb_neq in E. congruence. }
    rewrite E'. simpl. rewrite IH.
    destruct (existsb (streqb k) (List.map fst m)); reflexivity.
Qed.

Lemma newMap_from_NoDup (entries : list (jsstring * V)) (acc : Map V) :
  NoDup (List.map fst acc) ->
  NoDup (List.map fst
           (fold_left (fun m kv => mapSet (fst kv) (snd kv) m) entries acc)).
Proof.
  revert acc; induction entries as [|[k v] entries IH]; simpl; intros acc H.
  - exact H.
  - apply IH. apply mapSet_NoDup. exact H.
Qed.

Lemma newMap_from_keys_In (entries : list (jsstring * V)) (acc : Map V)
  (k : jsstring) :
  In k (List.map fst
          (fold_left (fun m kv => mapSet (fst kv) (snd kv) m) entries acc))
  <-> In k (List.map fst acc) \/ In k (List.map fst entries).
Proof.
  revert acc; induction entries as [|[k0 v0] entries IH]; simpl; intros acc.
  - intuition.
  - rewrite IH, mapSet_keys_In. intuition.
Qed.

(** A binding of the finished map is the last one given for its key. *)
Lemma newMap_from_last (entries : list (jsstring * V)) (acc : Map V)
  (k : jsstring) (v : V) :
  NoDup (List.map fst acc) ->
  In (k, v) (fold_left (fun m kv => mapSet (fst kv) (snd kv) m) entries acc) ->
  (exists before after,
      entries = before ++ (k, v) :: after /\
      ~ In k (List.map fst after)) \/
  (In (k, v) acc /\ ~ In k (List.map fst entries)).
Proof.
  revert acc; induction entries as [|[k0 v0] entries IH]; simpl;
    intros acc Hnd Hin.
  - right. auto.
  - destruct (IH _ (mapSet_NoDup k0 v0 acc Hnd) Hin)
      as [[before [after [-> Hlast]]] | [Hacc Hnot]].
    + left. exists ((k0, v0) :: before), after. auto.
    + destruct (mapSet_In _ _ _ _ _ Hnd Hacc) as [[-> ->] | [Hold Hne]].
      * left. exists [], entries. auto.
      * right. split; [assumption |]. intros [-> | H]; auto.
Qed.

Lemma existsb_streqb (x : jsstring) (l : list jsstring) :
  existsb (streqb x) l = true <-> In x l.
Proof.
  rewrite existsb_exists. split.
  - intros [y [Hin E]]. apply streqb_eq in E. subst. exact Hin.
  - intros H. exists x. split; [exact H | apply streqb_refl].
Qed.

Lemma distinctInOrder_seen (seen seen' l : list jsstring) :
  (forall x, In x seen <-> In x seen') ->
  distinctInOrder seen l = distinctInOrder seen' l.
Proof.
  revert seen seen'; induction l as [|x l IH]; simpl; intros seen seen' H;
    [reflexivity |].
  assert (existsb (streqb x) seen = existsb (streqb x) seen') as E.
  { destruct (existsb (streqb x) seen) eqn:E1,
      (existsb (streqb x) seen') eqn:E2; try reflexivity.
    - apply existsb_streqb, H, existsb_streqb in E1. congruence.
    - apply existsb_streqb, H, existsb_streqb in E2. congruence. }
  rewrite E. destruct (existsb (streqb x) seen').
  - apply IH, H.
  - f_equal. apply IH. intros y. simpl. rewrite H. tauto.
Qed.

(** The keys of the finished map: those of the start, then the new ones in
    the order in which they first come. *)
Lemma newMap_from_keys (entries : list (jsstring * V)) (acc : Map V) :
  List.map fst
    (fold_left (fun m kv => mapSet (fst kv) (snd kv) m) entries acc)
  = List.map fst acc
    ++ distinctInOrder (List.map fst acc) (List.map fst entries).
Proof.
  revert acc; induction entries as [|[k v] entries IH]; simpl; intros acc.
  - rewrite app_nil_r. reflexivity.
  - rewrite IH, mapSet_keys.
    destruct (existsb (streqb k) (List.map fst acc)) eqn:E.
    + reflexivity.
    + rewrite <- app_assoc. simpl. do 2 f_equal.
      apply distinctInOrder_seen. intros x. rewrite in_app_iff. simpl.
      tauto.
Qed.

End MapFacts.

(** ** Citations *)

Section Citations.

Lemma uniqueResults_urls (entries : list SearchResultItem.t) :
  urls (uniqueResults entries)
  = List.map fst
      (newMap (List.map (fun item => (SearchResultItem.url item, item))
                 entries)).
Proof.
  unfold urls, uniqueResults, mapValues, newMap.
  rewrite map_map. apply map_ext_in. intros [k v] Hin. simpl.
  apply newMap_from_last in Hin; [| constructor].
  destruct Hin as [[before [after [Heq _]]] | [[] _]].
  assert (In (k, v)
            (List.map (fun item => (SearchResultItem.url item, item)) entries))
    as H by (rewrite Heq; apply in_elt).
  apply in_map_iff in H. destruct H as [item [H _]].
  inversion H; subst. reflexivity.
Qed.

(** What the de-duplication keeps. *)
Lemma uniqueResults_spec (entries : list SearchResultItem.t) :
  NoDup (urls (uniqueResults entries)) /\
  (forall u, In u (urls (uniqueResults entries)) <-> In u (urls entries)) /\
  (forall item, In item (uniqueResults entries) -> lastOccurrence entries item) /\
  urls (uniqueResults entries) = distinctInOrder [] (urls entries).
Proof.
  assert (List.map fst
            (List.map (fun item => (SearchResultItem.url item, item)) entries)
          = urls entries) as Hk.
  { unfold urls. rewrite map_map. reflexivity. }
  repeat split.
  - rewrite uniqueResults_urls. apply newMap_from_NoDup. constructor.
  - rewrite uniqueResults_urls. unfold newMap.
    rewrite newMap_from_keys_In, Hk. simpl. tauto.
  - rewrite uniqueResults_urls. unfold newMap.
    rewrite newMap_from_keys_In, Hk. simpl. tauto.
  - intros item Hin. unfold uniqueResults, mapValues, newMap in Hin.
    apply in_map_iff in Hin. destruct Hin as [[k v] [Hv Hin]].
    simpl in Hv. subst v.
    apply newMap_from_last in Hin; [| constructor].
    destruct Hin as [[before [after [Heq Hlast]]] | [[] _]].
    apply map_eq_app in Heq.
    destruct Heq as [before' [rest [-> [Hb Hr]]]].
    apply map_eq_cons in Hr.
    destruct Hr as [item' [after' [-> [Hi Ha]]]].
    inversion Hi; subst.
    exists before', after'. split; [reflexivity |].
    unfold urls. rewrite map_map in Hlast. exact Hlast.
  - rewrite uniqueResults_urls. unfold newMap.
    rewrite newMap_from_keys, Hk. reflexivity.
Qed.

End Citations.

(** ** The research client *)

Section ResearchClient.
Variable S : Type.
Variable world : Oracle.

Ltac run_monad :=
  cbv beta iota zeta
    delta [tryCatch tryFinally bind await emit ret throw liftCompletion update
             callModel];
  cbn [store trace fst snd negb orb andb].

(** One request, then the parse of its answer. *)
Lemma researchTopicForPrompt_run
  (topic level style language : jsstring) (context : jsval) (w : World S)
  (response : GenResponse) :
  generateContent world (trace w)
    (researchRequest topic level style language context) = Returned response ->
  researchTopicForPrompt world topic level style language context w
  = (Returned (parseResearch topic (getLevelInstruction level)
                 (getStyleInstruction style) response),
     {| store := store w;
        trace := trace w ++ [GenerateContent
                               (researchRequest topic level style language
                                  context)] |}).
Proof.
  intros H. unfold researchTopicForPrompt. run_monad. rewrite H. reflexivity.
Qed.

(** Chunks that carry both fields are all collected, in order. *)
Lemma collectSearchResults_chunkOf (entries : list SearchResultItem.t) :
  (forall item, In item entries ->
     SearchResultItem.title item <> [] /\ SearchResultItem.url item <> []) ->
  collectSearchResults (Some (List.map chunkOf entries)) = entries.
Proof.
  unfold collectSearchResults. induction entries as [|item entries IH];
    intros H; simpl; [reflexivity |].
  destruct (H item (or_introl eq_refl)) as [Ht Hu].
  destruct item as [t u]. simpl in *.
  destruct t as [|c t]; [contradiction |].
  destruct u as [|d u]; [contradiction |]. simpl.
  f_equal. apply IH. intros i Hi. apply H. right. exact Hi.
Qed.

(** C3 (as the code has it).  The citations returned by
    [researchTopicForPrompt] hold one entry for each distinct URL among the
    grounding chunks that carry a title and a URL, in the order in which the
    URLs first appear; the entry kept for a URL is its last occurrence, so
    the title is that of the last occurrence. *)
Theorem researchTopicForPrompt_citations
  (topic level style language : jsstring) (context : jsval) (w : World S)
  (response : GenResponse) :
  generateContent world (trace w)
    (researchRequest topic level style language context) = Returned response ->
  exists r w',
    researchTopicForPrompt world topic level style language context w
    = (Returned r, w') /\
    let entries := collectSearchResults (resp_groundingChunks response) in
    let result := ResearchResult.searchResults r in
    NoDup (urls result) /\
    (forall u, In u (urls result) <-> In u (urls entries)) /\
    (forall item, In item result -> lastOccurrence entries item) /\
    urls result = distinctInOrder [] (urls entries).
Proof.
  intros H. eexists _, _. split.
  - apply researchTopicForPrompt_run. exact H.
  - cbv zeta. cbn [parseResearch ResearchResult.searchResults].
    apply uniqueResults_spec.
Qed.

(** *** Facts *)

Lemma stripDash_blank (l : jsstring) :
  trim l = [] -> trim (stripDash l) = [].
Proof.
  intros H. destruct l as [|c r]; [exact H |].
  assert (forallb isWhiteSpace (c :: r) = true) as Hw
    by (apply trim_nil_iff; exact H).
  simpl in Hw. apply andb_true_iff in Hw. destruct Hw as [Hc _].
  unfold stripDash. destruct (N.eqb_spec c 45) as [-> | Hne].
  - discriminate.
  - destruct c as [|p]; [exact H |].
    repeat (destruct p as [p|p|]; try exact H). congruence.
Qed.

Lemma stripDash_bullet (b : jsstring) :
  trim (stripDash (45%N :: b)) = trim b.
Proof. simpl. apply trim_trimStart. Qed.

Lemma nonEmpty_true (s : jsstring) : nonEmpty s = true <-> s <> [].
Proof. destruct s; simpl; split; congruence. Qed.

(** When the non-blank lines are bullets with some text, the facts are the
    texts, trimmed, in the order of the lines. *)
Lemma bullets_parsed (lines bodies : list jsstring) :
  (forall b, In b bodies -> trim b <> []) ->
  filter (fun l => negb (blank l)) lines = List.map (cons 45%N) bodies ->
  filter nonEmpty (List.map (fun f => trim (stripDash f)) lines)
  = List.map trim bodies.
Proof.
  revert bodies; induction lines as [|l lines IH]; intros bodies Hb Hf;
    simpl in *.
  - destruct bodies; [reflexivity | discriminate].
  - unfold blank in Hf. rewrite negb_involutive in Hf.
    destruct (nonEmpty (trim l)) eqn:E.
    + destruct bodies as [|b bodies]; [discriminate |].
      simpl in Hf. inversion Hf; subst.
      rewrite stripDash_bullet.
      assert (nonEmpty (trim b) = true) as ->
        by (apply nonEmpty_true, Hb; simpl; auto).
      simpl. f_equal. apply IH; [intros; apply Hb; simpl; auto | assumption].
    + assert (trim l = []) as Hl by (destruct (trim l); [reflexivity | discriminate]).
      rewrite (stripDash_blank l Hl). simpl. apply IH; assumption.
Qed.

Lemma header_not_empty (k pat : jsstring) :
  ci_equal k pat -> pat <> [] -> k <> [].
Proof. intros H Hp ->. inversion H; subst. contradiction. Qed.

(** The group that the regular expression of the facts captures is the
    section as [FactsSection] describes it. *)
Lemma factsRaw_section (text section : jsstring) :
  FactsSection text section -> factsRaw text = section.
Proof.
  intros H. unfold factsRaw, factsMatch.
  destruct H as [pre k ws body Hk Hpre Hws [c [r [-> Hc]]] Hno
                | pre k ws body m rest Hk Hpre Hws [c [r [-> Hc]]] Hm Hno].
  - rewrite (@searchAfter_ci_first (lit "FACTS:") pre k (ws ++ c :: r) Hk);
      [| apply (header_not_empty Hk); vm_compute; discriminate | exact Hpre].
    rewrite dropWhile_app_all by exact Hws.
    cbn [dropWhile]. rewrite Hc.
    rewrite (lazyUntil_ci_all Hno).
    unfold trim, trimStart. cbn [dropWhile]. rewrite Hc. reflexivity.
  - rewrite (@searchAfter_ci_first (lit "FACTS:") pre k
               (ws ++ (c :: r) ++ m ++ rest) Hk);
      [| apply (header_not_empty Hk); vm_compute; discriminate | exact Hpre].
    rewrite dropWhile_app_all by exact Hws.
    cbn [dropWhile app]. rewrite Hc.
    change (c :: r ++ m ++ rest) with ((c :: r) ++ m ++ rest).
    rewrite (@lazyUntil_ci_stops (lit "IMAGE_PROMPT:") (c :: r) m rest Hm);
      [| apply (header_not_empty Hm); vm_compute; discriminate | exact Hno].
    unfold trim, trimStart. cbn [dropWhile]. rewrite Hc. reflexivity.
Qed.

Lemma firstn_incl (A : Type) (n : nat) (l : list A) (x : A) :
  In x (firstn n l) -> In x l.
Proof.
  intros H. rewrite <- (firstn_skipn n l). apply in_or_app. left. exact H.
Qed.

Lemma parseFacts_bounds (text : jsstring) :
  List.length (parseFacts text) <= 5 /\ ~ In [] (parseFacts text).
Proof.
  unfold parseFacts. split.
  - apply firstn_le_length.
  - intros H. apply firstn_incl in H. apply filter_In in H.
    destruct H as [_ H]. discriminate.
Qed.

(** The facts returned by [researchTopicForPrompt] are never more than five
    and none is empty.  When every non-blank line of the [FACTS:] section
    begins with its dash, and these lines are seven (a dash, then some
    text), the facts are exactly five: the texts of the first five lines, in
    their order, without the dash and trimmed. *)
Theorem researchTopicForPrompt_facts
  (topic level style language : jsstring) (context : jsval) (w : World S)
  (response : GenResponse) :
  generateContent world (trace w)
    (researchRequest topic level style language context) = Returned response ->
  exists r w',
    researchTopicForPrompt world topic level style language context w
    = (Returned r, w') /\
    let facts := ResearchResult.facts r in
    List.length facts <= 5 /\
    ~ In [] facts /\
    forall (section : jsstring) (bodies : list jsstring),
      FactsSection (responseText response) section ->
      List.length bodies = 7 ->
      (forall b, In b bodies -> trim b <> []) ->
      filter (fun l => negb (blank l)) (split 10 section)
      = List.map (cons 45%N) bodies ->
      facts = List.map trim (firstn 5 bodies) /\ List.length facts = 5.
Proof.
  intros H. eexists _, _. split.
  - apply researchTopicForPrompt_run. exact H.
  - cbv zeta. cbn [parseResearch ResearchResult.facts].
    destruct (parseFacts_bounds (responseText response)) as [H5 Hne].
    split; [assumption | split; [assumption |]].
    intros section bodies Hsec Hlen Htext Hlines.
    assert (parseFacts (responseText response)
            = List.map trim (firstn 5 bodies)) as E.
    { unfold parseFacts. rewrite (factsRaw_section Hsec).
      rewrite (@bullets_parsed _ bodies Htext Hlines).
      apply firstn_map. }
    split; [exact E |].
    rewrite E, length_map, length_firstn, Hlen. reflexivity.
Qed.

(** C7.  When the answer has no [IMAGE_PROMPT:] section, in any letter case,
    [researchTopicForPrompt] returns the fallback prompt, put together from
    the topic and the level and style instructions; the topic appears in
    it. *)
Theorem researchTopicForPrompt_fallback_prompt
  (topic level style language : jsstring) (context : jsval) (w : World S)
  (response : GenResponse) :
  generateContent world (trace w)
    (researchRequest topic level style language context) = Returned response ->
  ~ occurs_ci (lit "IMAGE_PROMPT:") (responseText response) ->
  exists r w',
    researchTopicForPrompt world topic level style language context w
    = (Returned r, w') /\
    ResearchResult.imagePrompt r
    = lit "Create a detailed infographic about " ++ topic ++ lit ". "
      ++ getLevelInstruction level ++ lit " " ++ getStyleInstruction style /\
    contains topic (ResearchResult.imagePrompt r) /\
    contains (getLevelInstruction level) (ResearchResult.imagePrompt r) /\
    contains (getStyleInstruction style) (ResearchResult.imagePrompt r).
Proof.
  intros H Hno. eexists _, _. split.
  - apply researchTopicForPrompt_run. exact H.
  - cbn [parseResearch ResearchResult.imagePrompt].
    unfold parseImagePrompt, promptMatch.
    apply searchAfter_ci_None in Hno. rewrite Hno.
    split; [reflexivity |]. unfold contains. repeat split.
    + eexists _, _. reflexivity.
    + exists (lit "Create a detailed infographic about " ++ topic ++ lit ". "),
        (lit " " ++ getStyleInstruction style).
      rewrite <- !app_assoc. reflexivity.
    + exists (lit "Create a detailed infographic about " ++ topic ++ lit ". "
              ++ getLevelInstruction level ++ lit " "), [].
      rewrite app_nil_r, <- !app_assoc. reflexivity.
Qed.

End ResearchClient.

(** ** The research client on a sample answer *)

Section ResearchExamples.

Import Samples.

Lemma researchTopicForPrompt_citations_witness :
  exists r w',
    researchTopicForPrompt world photosynthesis highSchool defaultStyle english
      JNull typed = (Returned r, w') /\
    NoDup (urls (ResearchResult.searchResults r)) /\
    (forall item,
        In item (ResearchResult.searchResults r) ->
        lastOccurrence [citationA1; citationB; citationA2] item) /\
    urls (ResearchResult.searchResults r) = [pageA; pageB].
Proof.
  destruct (researchTopicForPrompt_citations (S := AppState) world
              photosynthesis highSchool defaultStyle english JNull typed
              (response := researchResponse) eq_refl)
    as [r [w' [Hrun [Hnd [_ [Hlast Horder]]]]]].
  exists r, w'. repeat split.
  - exact Hrun.
  - exact Hnd.
  - exact Hlast.
  - rewrite Horder. vm_compute. reflexivity.
Defined.

(** The sample answer cites one page twice; the title kept is the second,
    so the entry kept for a URL is not always its first occurrence. *)
Lemma citations_keep_last_title :
  let entries := [citationA1; citationB; citationA2] in
  (collectSearchResults (resp_groundingChunks researchResponse) = entries /\
   fst (researchTopicForPrompt world photosynthesis highSchool defaultStyle
          english JNull typed)
   = Returned (parseResearch photosynthesis (getLevelInstruction highSchool)
                 (getStyleInstruction defaultStyle) researchResponse) /\
   ResearchResult.searchResults
     (parseResearch photosynthesis (getLevelInstruction highSchool)
        (getStyleInstruction defaultStyle) researchResponse)
   = [citationA2; citationB] /\
   firstOccurrence entries citationA1 /\
   ~ firstOccurrence entries citationA2) /\
  ~ (forall (chunks : option (list GroundingChunk)) (item : SearchResultItem.t),
        In item (uniqueResults (collectSearchResults chunks)) ->
        firstOccurrence (collectSearchResults chunks) item).
Proof.
  cbv zeta.
  assert (~ firstOccurrence [citationA1; citationB; citationA2] citationA2)
    as Hnot.
  { intros [before [after [Heq Hnot]]].
    destruct before as [|x [|y [|z before]]]; simpl in Heq.
    - apply (f_equal (@hd _ citationB)) in Heq. vm_compute in Heq.
      discriminate.
    - apply (f_equal (fun l => hd citationA1 (tl l))) in Heq.
      vm_compute in Heq. discriminate.
    - inversion Heq; subst. apply Hnot. left. reflexivity.
    - apply (f_equal (@List.length _)) in Heq. simpl in Heq.
      rewrite length_app in Heq. simpl in Heq. lia. }
  split.
  - split; [vm_compute; reflexivity |].
    split; [vm_compute; reflexivity |].
    split; [vm_compute; reflexivity |].
    split; [| exact Hnot].
    exists [], [citationB; citationA2]. split; [reflexivity | intros []].
  - intros H. apply Hnot.
    apply (H (resp_groundingChunks researchResponse) citationA2).
    vm_compute. left. reflexivity.
Qed.

(** The [FACTS:] section of the sample answer. *)
Lemma researchText_section :
  FactsSection researchText
    (trimEnd
       (join nl
          [ lit "- Plants absorb light";
            lit "-   Chlorophyll is green  ";
            lit "- Water is split";
            [];
            lit "- Oxygen is released";
            lit "- Sugar is made";
            lit "- Stomata take in CO2";
            lit "- It happens in chloroplasts";
            [];
            [] ])).
Proof.
  apply (@facts_to_prompt (lit "Here is the plan." ++ nl) (lit "FACTS:") nl
           (join nl
              [ lit "- Plants absorb light";
                lit "-   Chlorophyll is green  ";
                lit "- Water is split";
                [];
                lit "- Oxygen is released";
                lit "- Sugar is made";
                lit "- Stomata take in CO2";
                lit "- It happens in chloroplasts";
                [];
                [] ])
           (lit "Image_Prompt:")
           (nl ++ lit "  A leaf in cross-section. ")).
  - vm_compute. repeat constructor.
  - apply searchAfter_ci_None. vm_compute. reflexivity.
  - reflexivity.
  - eexists _, _. split; [vm_compute; reflexivity | reflexivity].
  - vm_compute. repeat constructor.
  - apply searchAfter_ci_None. vm_compute. reflexivity.
Defined.

Lemma researchTopicForPrompt_facts_witness :
  exists r w',
    researchTopicForPrompt world photosynthesis highSchool defaultStyle
      english JNull typed = (Returned r, w') /\
    ResearchResult.facts r
    = [lit "Plants absorb light"; lit "Chlorophyll is green";
       lit "Water is split"; lit "Oxygen is released"; lit "Sugar is made"].
Proof.
  destruct (researchTopicForPrompt_facts (S := AppState) world
              photosynthesis highSchool defaultStyle english JNull typed
              (response := researchResponse) eq_refl)
    as [r [w' [Hrun [_ [_ Hseven]]]]].
  exists r, w'. split; [exact Hrun |].
  destruct (Hseven _
              [lit " Plants absorb light"; lit "   Chlorophyll is green  ";
               lit " Water is split"; lit " Oxygen is released";
               lit " Sugar is made"; lit " Stomata take in CO2";
               lit " It happens in chloroplasts"]
              researchText_section)
    as [Hfacts _].
  - reflexivity.
  - intros b Hb. simpl in Hb.
    repeat (destruct Hb as [<- | Hb]; [vm_compute; discriminate |]).
    destruct Hb.
  - vm_compute. reflexivity.
  - rewrite Hfacts. vm_compute. reflexivity.
Defined.

Lemma researchTopicForPrompt_fallback_prompt_witness :
  exists r w',
    researchTopicForPrompt tersedWorld photosynthesis highSchool defaultStyle
      english JNull typed = (Returned r, w') /\
    ResearchResult.imagePrompt r
    = lit "Create a detailed infographic about Photosynthesis. Target Audience: High School. Style: Standard Textbook. Clean lines, clear labels, accurate maps or diagrams. Avoid cartoony elements. Aesthetic: High-quality digital scientific illustration. Clean, modern, highly detailed." /\
    contains photosynthesis (ResearchResult.imagePrompt r).
Proof.
  destruct (researchTopicForPrompt_fallback_prompt (S := AppState) tersedWorld
              photosynthesis highSchool defaultStyle english JNull typed
              (response := factsOnlyResponse) eq_refl)
    as [r [w' [Hrun [Hprompt [Htopic _]]]]].
  - apply searchAfter_ci_None. vm_compute. reflexivity.
  - exists r, w'. split; [exact Hrun |]. split; [| exact Htopic].
    rewrite Hprompt. vm_compute. reflexivity.
Defined.

(** C6.  An answer whose seven bullet lines are indented, which is how the
    instruction text sent with the request lays the format out.
    [researchTopicForPrompt] returns five facts, in the order of the first
    five bullets and trimmed, but only the first has lost its dash: the
    others come back as [- ...].  The dash is looked for at the start of the
    line before the line is trimmed, and only the first line of the section
    has been trimmed by then. *)
Theorem indented_bullets_keep_their_dash :
  exists r w',
    researchTopicForPrompt indentedWorld photosynthesis highSchool
      defaultStyle english JNull typed = (Returned r, w') /\
    ResearchResult.facts r
    = [lit "Plants absorb light"; lit "- Chlorophyll is green";
       lit "- Water is split"; lit "- Oxygen is released";
       lit "- Sugar is made"] /\
    ResearchResult.facts r
    <> [lit "Plants absorb light"; lit "Chlorophyll is green";
        lit "Water is split"; lit "Oxygen is released"; lit "Sugar is made"] /\
    contains
      (lit "    FACTS:" ++ nl ++ lit "    - [Fact 1]" ++ nl
       ++ lit "    - [Fact 2]" ++ nl ++ lit "    - [Fact 3]")
      (systemPrompt photosynthesis (getLevelInstruction highSchool)
         (getStyleInstruction defaultStyle) english JNull).
Proof.
  eexists _, _. split; [reflexivity |].
  split; [vm_compute; reflexivity |].
  split; [vm_compute; discriminate |].
  apply includes_spec. vm_compute. reflexivity.
Qed.

End ResearchExamples.

(** ** The controller *)

Section Controller.
Variable world : Oracle.

Ltac run_monad :=
  cbv beta iota zeta
    delta [tryCatch tryFinally bind await emit ret throw liftCompletion update
             callModel dateNow store trace fst snd
             researchTopicForPrompt generateInfographicImage
             editInfographicImage
             setIsLoading setIsSyncing setLoadingMessage setLoadingStep
             setLoadingFacts setError setImageHistory setActiveImageId
             setCurrentSearchResults setHasApiKey].

Lemma guard_passes (s : AppState) :
  trim (topic s) <> [] \/ contextSources s <> [] ->
  negb (nonEmpty (trim (topic s)))
  && (List.length (contextSources s) =? 0)%nat = false.
Proof.
  intros [H | H].
  - destruct (trim (topic s)); [contradiction | reflexivity].
  - destruct (contextSources s); [contradiction |].
    simpl. apply andb_false_r.
Qed.

Lemma handleGenerate_when_loading (w : World AppState) :
  isLoading (store w) = true ->
  handleGenerate world (store w) w = (Returned tt, w).
Proof.
  intros H. unfold handleGenerate. rewrite H. reflexivity.
Qed.

Ltac split_oracle :=
  match goal with
  | |- context [match generateContent ?w ?t ?r with _ => _ end] =>
      destruct (generateContent w t r) eqn:?
  | |- context [match firstInlineImage ?p with _ => _ end] =>
      destruct (firstInlineImage p) eqn:?
  end; run_monad.

Ltac fields :=
  cbn [topic activeImageId complexityLevel visualStyle language aspectRatio
       resolution isLoading isSyncing loadingMessage loadingStep loadingFacts
       error imageHistory currentSearchResults isDarkMode showStorageModal
       storageStatus contextSources showContextOptions showUrlInput
       urlInputValue hasApiKey checkingKey
       withIsLoading withIsSyncing withLoadingMessage withLoadingStep
       withLoadingFacts withError withImageHistory withActiveImageId
       withCurrentSearchResults withHasApiKey].

Lemma findImage_head (img : GeneratedImage.t) (history : list GeneratedImage.t) :
  findImage (img :: history) (JStr (GeneratedImage.id img)) = Some img.
Proof.
  unfold findImage. simpl. rewrite streqb_refl. reflexivity.
Qed.

(** A generation cycle whose two awaited steps succeed. *)
Lemma handleGenerate_success (w : World AppState) (d : jsstring) :
  generateAccepted (store w) ->
  generateOutcome world w = Returned d ->
  let w' := invoke (handleGenerate world) w in
  fst (handleGenerate world (store w) w) = Returned tt /\
  exists img,
    imageHistory (store w') = img :: imageHistory (store w) /\
    GeneratedImage.data img = d /\
    activeImageId (store w') = JStr (GeneratedImage.id img) /\
    activeImage (store w') = Some img /\
    error (store w') = JNull /\
    isLoading (store w') = false /\
    hasApiKey (store w') = hasApiKey (store w).
Proof.
  destruct w as [s t]. cbn [store trace].
  intros [Hl Hin] Hout. unfold invoke, handleGenerate, generateOutcome,
    generateSteps in *. cbn [store trace] in *.
  rewrite Hl, (guard_passes _ Hin). revert Hout. run_monad.
  split_oracle; [| discriminate].
  split_oracle; [| discriminate].
  split_oracle; [| discriminate].
  intros Hd. inversion Hd; subst. split; [reflexivity |].
  eexists. unfold activeImage. fields.
  repeat split; try reflexivity.
  apply findImage_head.
Qed.


Lemma isAccessError_spec (e : jserror) :
  isAccessError e = true <-> accessMessage (message e).
Proof.
  unfold isAccessError, accessMessage.
  rewrite andb_true_iff, !orb_true_iff, !includes_spec, nonEmpty_true.
  split; [tauto |]. intros H. split; [| tauto].
  intros Hnil. rewrite Hnil in H. unfold contains in H.
  destruct H as [H | [H | H]]; destruct H as [[|c pre] [post H]];
    try discriminate; vm_compute in H; discriminate.
Qed.

(** A generation cycle one of whose awaited steps fails with [e]. *)
Lemma handleGenerate_failure (w : World AppState) (e : jserror) :
  generateAccepted (store w) ->
  generateOutcome world w = Threw e ->
  let w' := invoke (handleGenerate world) w in
  fst (handleGenerate world (store w) w) = Returned tt /\
  imageHistory (store w') = imageHistory (store w) /\
  activeImageId (store w') = activeImageId (store w) /\
  isLoading (store w') = false /\
  error (store w')
  = JStr (if isAccessError e then accessDeniedOnGenerate
          else serviceUnavailable) /\
  hasApiKey (store w')
  = (if isAccessError e then false else hasApiKey (store w)).
Proof.
  destruct w as [s t]. cbn [store trace].
  intros [Hl Hin] Hout. unfold invoke, handleGenerate, generateOutcome,
    generateSteps in *. cbn [store trace] in *.
  rewrite Hl, (guard_passes _ Hin). revert Hout. run_monad.
  split_oracle.
  - split_oracle.
    + split_oracle; [discriminate |].
      intros Hd; inversion Hd; subst.
      destruct (isAccessError _); run_monad; fields; repeat split; reflexivity.
    + intros Hd; inversion Hd; subst.
      destruct (isAccessError _); run_monad; fields; repeat split; reflexivity.
  - intros Hd; inversion Hd; subst.
    destruct (isAccessError _); run_monad; fields; repeat split; reflexivity.
Qed.

Lemma handleEdit_success (w : World AppState) (editPrompt : jsstring)
  (current : GeneratedImage.t) (d : jsstring) :
  editAccepted (store w) current ->
  editOutcome world w current editPrompt = Returned d ->
  let w' := invoke (fun s => handleEdit world s editPrompt) w in
  fst (handleEdit world (store w) editPrompt w) = Returned tt /\
  exists img,
    imageHistory (store w') = img :: imageHistory (store w) /\
    GeneratedImage.data img = d /\
    activeImageId (store w') = JStr (GeneratedImage.id img) /\
    activeImage (store w') = Some img /\
    error (store w') = JNull /\
    isLoading (store w') = false /\
    hasApiKey (store w') = hasApiKey (store w).
Proof.
  destruct w as [s t]. cbn [store trace].
  intros [Ha Hf] Hout. unfold invoke, handleEdit, editOutcome in *.
  cbn [store trace] in *.
  rewrite Ha, Hf. cbn [negb]. revert Hout. run_monad.
  split_oracle; [| discriminate].
  split_oracle; [| discriminate].
  intros Hd. inversion Hd; subst. split; [reflexivity |].
  eexists. unfold activeImage. fields.
  repeat split; try reflexivity.
  apply findImage_head.
Qed.

Lemma handleEdit_failure (w : World AppState) (editPrompt : jsstring)
  (current : GeneratedImage.t) (e : jserror) :
  editAccepted (store w) current ->
  editOutcome world w current editPrompt = Threw e ->
  let w' := invoke (fun s => handleEdit world s editPrompt) w in
  fst (handleEdit world (store w) editPrompt w) = Returned tt /\
  imageHistory (store w') = imageHistory (store w) /\
  activeImageId (store w') = activeImageId (store w) /\
  isLoading (store w') = false /\
  error (store w')
  = JStr (if isAccessError e then accessDeniedOnEdit else modificationFailed) /\
  hasApiKey (store w')
  = (if isAccessError e then false else hasApiKey (store w)).
Proof.
  destruct w as [s t]. cbn [store trace].
  intros [Ha Hf] Hout. unfold invoke, handleEdit, editOutcome in *.
  cbn [store trace] in *.
  rewrite Ha, Hf. cbn [negb]. revert Hout. run_monad.
  split_oracle.
  - split_oracle; [discriminate |].
    intros Hd; inversion Hd; subst.
    destruct (isAccessError _); run_monad; fields; repeat split; reflexivity.
  - intros Hd; inversion Hd; subst.
    destruct (isAccessError _); run_monad; fields; repeat split; reflexivity.
Qed.

Lemma messages_not_empty :
  accessDeniedOnGenerate <> [] /\ serviceUnavailable <> [] /\
  accessDeniedOnEdit <> [] /\ modificationFailed <> [] /\
  validationError <> [].
Proof. repeat split; vm_compute; discriminate. Qed.

(** C1.  A cycle whose awaited steps succeed puts exactly one new image at
    the front of the history and makes it the active one; so in a session
    that starts with an empty history the history lists the images of the
    successful cycles, the latest first, and is as long as their number.  A
    cycle whose research, image or edit step fails leaves the history as it
    was and shows an error message. *)
Theorem history_grows_by_successful_cycles :
  (forall w d w',
      Produces world w d w' ->
      exists img,
        imageHistory (store w') = img :: imageHistory (store w) /\
        GeneratedImage.data img = d /\
        activeImageId (store w') = JStr (GeneratedImage.id img) /\
        activeImage (store w') = Some img) /\
  (forall ds w,
      Session world ds w ->
      List.map GeneratedImage.data (imageHistory (store w)) = ds /\
      List.length (imageHistory (store w)) = List.length ds) /\
  (forall w e,
      generateAccepted (store w) ->
      generateOutcome world w = Threw e ->
      let w' := invoke (handleGenerate world) w in
      imageHistory (store w') = imageHistory (store w) /\
      exists msg, error (store w') = JStr msg /\ msg <> []) /\
  (forall w editPrompt current e,
      editAccepted (store w) current ->
      editOutcome world w current editPrompt = Threw e ->
      let w' := invoke (fun s => handleEdit world s editPrompt) w in
      imageHistory (store w') = imageHistory (store w) /\
      exists msg, error (store w') = JStr msg /\ msg <> []).
Proof.
  assert (forall w d w',
             Produces world w d w' ->
             exists img,
               imageHistory (store w') = img :: imageHistory (store w) /\
               GeneratedImage.data img = d /\
               activeImageId (store w') = JStr (GeneratedImage.id img) /\
               activeImage (store w') = Some img) as Hstep.
  { intros w d w' H. destruct H as [w d Ha Ho | w p cur d Ha Ho].
    - destruct (handleGenerate_success w Ha Ho)
        as [_ [img [H1 [H2 [H3 [H4 _]]]]]]. eauto.
    - destruct (handleEdit_success w p Ha Ho)
        as [_ [img [H1 [H2 [H3 [H4 _]]]]]]. eauto. }
  destruct messages_not_empty as [M1 [M2 [M3 [M4 _]]]].
  split; [exact Hstep |]. split; [| split].
  - intros ds w H.
    assert (List.map GeneratedImage.data (imageHistory (store w)) = ds) as E.
    { induction H as [w H | ds w d w' _ IH Hp | ds w w' _ IH Hsame].
      - rewrite H. reflexivity.
      - destruct (Hstep _ _ _ Hp) as [img [-> [<- _]]].
        simpl. rewrite IH. reflexivity.
      - rewrite Hsame. exact IH. }
    split; [exact E |]. rewrite <- E. symmetry. apply length_map.
  - intros w e Ha Ho.
    destruct (handleGenerate_failure w Ha Ho) as [_ [H1 [_ [_ [H2 _]]]]].
    cbv zeta. split; [exact H1 |]. eexists. split; [exact H2 |].
    destruct (isAccessError e); assumption.
  - intros w p cur e Ha Ho.
    destruct (handleEdit_failure w p Ha Ho) as [_ [H1 [_ [_ [H2 _]]]]].
    cbv zeta. split; [exact H1 |]. eexists. split; [exact H2 |].
    destruct (isAccessError e); assumption.
Qed.

(** C5.  In a state with an empty or blank topic and no context source,
    and with no cycle in flight, [handleGenerate] returns before any
    request: no event is added to the trace.  It sets the validation
    message, which is not empty, leaves the loading flag false, and leaves
    the history and every other state cell as they were.  A submit that
    comes through the form does the same. *)
Theorem handleGenerate_rejects_empty_input (w : World AppState) :
  isLoading (store w) = false ->
  trim (topic (store w)) = [] ->
  contextSources (store w) = [] ->
  exists s',
    handleGenerate world (store w) w
    = (Returned tt, {| store := s'; trace := trace w |}) /\
    dispatch world Submit w = {| store := s'; trace := trace w |} /\
    error s' = JStr validationError /\
    validationError <> [] /\
    isLoading s' = false /\
    imageHistory s' = imageHistory (store w) /\
    agreeExceptError (store w) s'.
Proof.
  destruct w as [s t]. cbn [store trace].
  intros Hl Ht Hc. unfold dispatch, render. cbn [store onSubmit].
  unfold handleGenerate. rewrite Hl, Ht, Hc.
  cbn [nonEmpty negb andb List.length Nat.eqb]. run_monad.
  eexists. split; [reflexivity |]. split; [reflexivity |].
  unfold agreeExceptError. fields.
  repeat split; try reflexivity; try exact Hl.
  vm_compute. discriminate.
Qed.

(** C8 (as the code has it).  An error thrown in a generation or an edit
    cycle counts as an access failure exactly when its message holds
    [Requested entity was not found], [404] or [403]: then the access-denied
    message of the handler is set and [hasApiKey] becomes false.  Any other
    error, a 401-style message among them, sets the generic message of the
    handler and leaves [hasApiKey] as it was. *)
Theorem errors_classified_by_message (w : World AppState) (e : jserror) :
  (generateAccepted (store w) ->
   generateOutcome world w = Threw e ->
   let s' := store (invoke (handleGenerate world) w) in
   (accessMessage (message e) <-> error s' = JStr accessDeniedOnGenerate) /\
   (accessMessage (message e) ->
    error s' = JStr accessDeniedOnGenerate /\ hasApiKey s' = false) /\
   (~ accessMessage (message e) ->
    error s' = JStr serviceUnavailable /\
    hasApiKey s' = hasApiKey (store w))) /\
  (forall editPrompt current,
      editAccepted (store w) current ->
      editOutcome world w current editPrompt = Threw e ->
      let s' := store (invoke (fun s => handleEdit world s editPrompt) w) in
      (accessMessage (message e) <-> error s' = JStr accessDeniedOnEdit) /\
      (accessMessage (message e) ->
       error s' = JStr accessDeniedOnEdit /\ hasApiKey s' = false) /\
      (~ accessMessage (message e) ->
       error s' = JStr modificationFailed /\
       hasApiKey s' = hasApiKey (store w))).
Proof.
  split.
  - intros Ha Ho.
    destruct (handleGenerate_failure w Ha Ho) as [_ [_ [_ [_ [H1 H2]]]]].
    cbv zeta. rewrite H1, H2.
    destruct (isAccessError e) eqn:E.
    + apply isAccessError_spec in E. repeat split; auto; contradiction.
    + assert (~ accessMessage (message e)) as Hn
        by (intros H; apply isAccessError_spec in H; congruence).
      repeat split; auto; try contradiction.
      intros H. exfalso. vm_compute in H. discriminate.
  - intros p cur Ha Ho.
    destruct (handleEdit_failure w p Ha Ho) as [_ [_ [_ [_ [H1 H2]]]]].
    cbv zeta. rewrite H1, H2.
    destruct (isAccessError e) eqn:E.
    + apply isAccessError_spec in E. repeat split; auto; contradiction.
    + assert (~ accessMessage (message e)) as Hn
        by (intros H; apply isAccessError_spec in H; congruence).
      repeat split; auto; try contradiction.
      intros H. exfalso. vm_compute in H. discriminate.
Qed.



End Controller.

(** ** The services and the controller on the sample worlds *)

Section Examples.

Import Samples.

Example getGCSConfig_from_environment :
  getGCSConfig configured
  = {| bucket := JStr (lit "infographics");
       token := JStr (lit "ya29.token");
       isConfigured := true;
       source := env |}.
Proof. reflexivity. Qed.

Example getGCSConfig_override_wins :
  getGCSConfig
    {| GCS_BUCKET_NAME := JStr (lit "infographics");
       GCS_ACCESS_TOKEN := JStr (lit "from-env");
       GCS_CREDENTIALS := JUndefined;
       gcs_bucket_override := JStr [];
       gcs_token_override := JStr (lit "typed-in") |}
  = {| bucket := JStr (lit "infographics");
       token := JStr (lit "typed-in");
       isConfigured := true;
       source := manual |}.
Proof. reflexivity. Qed.

Example getGCSConfig_half_configured :
  getGCSConfig
    {| GCS_BUCKET_NAME := JUndefined;
       GCS_ACCESS_TOKEN := JUndefined;
       GCS_CREDENTIALS := JUndefined;
       gcs_bucket_override := JStr (lit "mine");
       gcs_token_override := JNull |}
  = {| bucket := JStr (lit "mine");
       token := JStr [];
       isConfigured := false;
       source := manual |}.
Proof. reflexivity. Qed.

Lemma getGCSConfig_precedence_witness :
  isConfigured (getGCSConfig configured) = true /\
  bucket (getGCSConfig configured) = GCS_BUCKET_NAME configured /\
  token (getGCSConfig configured) = GCS_CREDENTIALS configured /\
  source (getGCSConfig configured) = env.
Proof.
  assert (present (GCS_BUCKET_NAME configured)) as Hb
    by (eexists; split; [reflexivity | vm_compute; discriminate]).
  assert (present (envToken configured)) as Ht
    by (eexists; split; [reflexivity | vm_compute; discriminate]).
  assert (~ present (gcs_bucket_override configured)) as Hob
    by (intros [s [H _]]; discriminate).
  assert (~ present (gcs_token_override configured)) as Hot
    by (intros [s [H _]]; discriminate).
  destruct (getGCSConfig_precedence configured)
    as [Hc [[_ [Hbucket _]] [[_ [Htoken _]] [_ [Henv _]]]]].
  split; [| split; [| split]].
  - apply Hc. auto.
  - apply Hbucket; assumption.
  - apply Htoken; assumption.
  - apply Henv. split; [tauto | auto].
Defined.

(** A refused upload: one request, the failure logged, [false] returned. *)
Example uploadToGCS_refused :
  exists evs,
    StorageService.uploadToGCS world configured (GeneratedImage.data firstImage)
      (GeneratedImage.id firstImage) typed
    = (Returned false, {| store := store typed; trace := evs |}) /\
    uploadAttempts evs = 1 /\ failureLogged evs.
Proof.
  eexists. split; [vm_compute; reflexivity |].
  split; [reflexivity |]. eexists. simpl. eauto 6.
Qed.

Example uploadToGCS_accepted :
  exists evs,
    StorageService.uploadToGCS acceptingWorld configured
      (GeneratedImage.data firstImage) (GeneratedImage.id firstImage) typed
    = (Returned true, {| store := store typed; trace := evs |}) /\
    uploadAttempts evs = 1.
Proof.
  eexists. split; [vm_compute; reflexivity | reflexivity].
Qed.

Lemma refused_is_not_2xx :
  ~ exists response,
      uploadAnswered world (trace typed) (bucket (getGCSConfig configured))
        (token (getGCSConfig configured)) (GeneratedImage.data firstImage)
        (GeneratedImage.id firstImage) response /\ is2xx response.
Proof.
  intros [response [[blob [_ Hu]] [_ H2]]].
  simpl in Hu. inversion Hu; subst. simpl in H2. lia.
Qed.

Lemma uploadToGCS_contains_failures_witness :
  exists (result : bool) (evs : list Event),
    StorageService.uploadToGCS world configured
      (GeneratedImage.data firstImage) (GeneratedImage.id firstImage) typed
    = (Returned result,
       {| store := store typed; trace := trace typed ++ evs |}) /\
    uploadAttempts evs = 1 /\
    result = false /\
    failureLogged evs.
Proof.
  destruct (proj1 (uploadToGCS_contains_failures world configured
                     (GeneratedImage.data firstImage)
                     (GeneratedImage.id firstImage) typed))
    as [result [evs [Hrun [_ Hconf]]]].
  destruct (Hconf eq_refl) as [_ [_ [Hone [Htrue Hfalse]]]].
  exists result, evs. split; [exact Hrun |].
  split; [apply (Hone _ eq_refl) |].
  destruct result.
  - exfalso. apply refused_is_not_2xx. apply Htrue. reflexivity.
  - split; [reflexivity | apply Hfalse; reflexivity].
Defined.

(** A skipped and a refused upload return the same value. *)
Lemma uploadToGCS_false_is_ambiguous_witness :
  fst (StorageService.uploadToGCS world unconfigured
         (GeneratedImage.data firstImage) (GeneratedImage.id firstImage) typed)
  = fst (StorageService.uploadToGCS world configured
           (GeneratedImage.data firstImage) (GeneratedImage.id firstImage)
           typed).
Proof.
  apply (proj1 (proj2 (proj2
           (uploadToGCS_false_is_ambiguous world
              (GeneratedImage.data firstImage) (GeneratedImage.id firstImage)
              typed)))).
  - reflexivity.
  - reflexivity.
  - exact refused_is_not_2xx.
Defined.

(** *** Cycles *)

Lemma sample_session :
  Session world
    [GeneratedImage.data firstImage; GeneratedImage.data firstImage]
    afterEdit.
Proof.
  unfold afterEdit, afterGenerate.
  apply session_cycle with (w := invoke (handleGenerate world) typed).
  - apply session_cycle with (w := typed).
    + apply session_start. reflexivity.
    + apply produces_generate.
      * split; [reflexivity | left; vm_compute; discriminate].
      * vm_compute. reflexivity.
  - apply produces_edit with (current := firstImage).
    + split; vm_compute; reflexivity.
    + vm_compute. reflexivity.
Defined.

(** Two successful cycles: the history holds two images. *)
Lemma history_grows_by_successful_cycles_witness :
  List.map GeneratedImage.data (imageHistory (store afterEdit))
  = [GeneratedImage.data firstImage; GeneratedImage.data firstImage] /\
  List.length (imageHistory (store afterEdit)) = 2.
Proof.
  exact (proj1 (proj2 (history_grows_by_successful_cycles world)) _ _
           sample_session).
Defined.

Lemma handleGenerate_rejects_empty_input_witness :
  exists s',
    handleGenerate world (store start) start
    = (Returned tt, {| store := s'; trace := [] |}) /\
    dispatch world Submit start = {| store := s'; trace := [] |} /\
    error s' = JStr validationError /\
    validationError <> [] /\
    isLoading s' = false /\
    imageHistory s' = [] /\
    agreeExceptError (store start) s'.
Proof.
  apply (handleGenerate_rejects_empty_input world start); reflexivity.
Defined.

Lemma typed_topic_not_blank : trim (topic (store typed)) <> [].
Proof. vm_compute. discriminate. Qed.

(** A 403 from the model API is an access failure. *)
Lemma errors_classified_by_message_witness :
  let s' :=
    store (invoke (handleGenerate
                     (failingWorld (lit "403 Forbidden: billing disabled")))
             typed) in
  error s' = JStr accessDeniedOnGenerate /\ hasApiKey s' = false.
Proof.
  apply (proj1 (proj2 (proj1 (errors_classified_by_message
                  (failingWorld (lit "403 Forbidden: billing disabled")) typed
                  (Error (lit "403 Forbidden: billing disabled")))
                  (conj eq_refl (or_introl typed_topic_not_blank)) eq_refl))).
  apply isAccessError_spec. vm_compute. reflexivity.
Defined.

(** A 401 from the model API is not: the generic message is shown and
    [hasApiKey] stays true. *)
Lemma unauthorized_401_is_a_generic_failure :
  let unauthorized := lit "401 Unauthorized" in
  let s' :=
    store (invoke (handleGenerate (failingWorld unauthorized)) typed) in
  (generateAccepted (store typed) /\
   generateOutcome (failingWorld unauthorized) typed
   = Threw (Error unauthorized) /\
   accessMessageWith401 unauthorized /\
   error s' = JStr serviceUnavailable /\
   hasApiKey s' = true) /\
  ~ (forall (world : Oracle) (w : World AppState) (e : jserror),
        generateAccepted (store w) ->
        generateOutcome world w = Threw e ->
        (accessMessageWith401 (message e) <->
         error (store (invoke (handleGenerate world) w))
         = JStr accessDeniedOnGenerate /\
         hasApiKey (store (invoke (handleGenerate world) w)) = false)).
Proof.
  cbv zeta.
  assert (generateAccepted (store typed)) as Ha
    by (split; [reflexivity | left; vm_compute; discriminate]).
  assert (accessMessageWith401 (lit "401 Unauthorized")) as Hm.
  { left. exists [], (lit " Unauthorized"). vm_compute. reflexivity. }
  split.
  - split; [exact Ha |]. split; [vm_compute; reflexivity |].
    split; [exact Hm |]. split; vm_compute; reflexivity.
  - intros H.
    destruct (proj1 (H (failingWorld (lit "401 Unauthorized")) typed
                       (Error (lit "401 Unauthorized")) Ha eq_refl) Hm)
      as [_ Hk].
    vm_compute in Hk. discriminate.
Qed.


End Examples.

(* ================================================================== *)
(** * Further properties of the code *)
(* ================================================================== *)

Import GeminiRepair Actions Browser Notions.

(** ** Data URIs: the content type of an upload, the images of the model *)

Section DataUris.

Lemma dropWhile_length (A : Type) (p : A -> bool) (l : list A) :
  List.length (dropWhile p l) <= List.length l.
Proof.
  induction l as [|x l IH]; simpl; [lia |].
  destruct (p x); simpl; lia.
Qed.

(** [dropWhile] cuts a list in two: the longest prefix that satisfies [p],
    and the rest. *)
Lemma span_dropWhile (A : Type) (p : A -> bool) (l : list A) :
  let k := List.length l - List.length (dropWhile p l) in
  firstn k l ++ dropWhile p l = l /\ forallb p (firstn k l) = true.
Proof.
  cbv zeta. induction l as [|x l [IH1 IH2]]; [split; reflexivity |].
  cbn [dropWhile]. destruct (p x) eqn:Hx.
  - pose proof (dropWhile_length p l) as Hle.
    replace (List.length (x :: l) - List.length (dropWhile p l))
      with (S (List.length l - List.length (dropWhile p l)))
      by (cbn [List.length]; lia).
    rewrite firstn_cons. split.
    + rewrite <- app_comm_cons. f_equal. exact IH1.
    + cbn [forallb]. rewrite Hx. exact IH2.
  - rewrite Nat.sub_diag. split; reflexivity.
Qed.

Lemma forallb_notSemi (m : jsstring) :
  forallb (fun c => negb (N.eqb c 59)) m = true <-> ~ In 59%N m.
Proof.
  rewrite forallb_forall. split.
  - intros H Hin. specialize (H _ Hin). discriminate.
  - intros H c Hin. destruct (N.eqb_spec c 59) as [-> |]; [contradiction |].
    reflexivity.
Qed.

(** The regular expression of the uploader matches exactly the strings
    [data:<type>;base64,...] with a non-empty type free of semicolons. *)
Lemma mimeMatch_spec (s m : jsstring) :
  mimeMatch s = Some m <->
  m <> [] /\ ~ In 59%N m /\
  exists payload, s = lit "data:" ++ m ++ lit ";base64," ++ payload.
Proof.
  unfold mimeMatch. split.
  - destruct (startsWith (lit "data:") s) eqn:Hs; [| discriminate].
    apply startsWith_spec in Hs. destruct Hs as [post ->].
    change (skipn 5 (lit "data:" ++ post)) with post.
    destruct (span_dropWhile (fun c => negb (N.eqb c 59)) post) as [H1 H2].
    cbv zeta in *.
    destruct (firstn _ post) as [|c g] eqn:Hg; [discriminate |].
    destruct (startsWith (lit ";base64,") _) eqn:Ht; [| discriminate].
    intros E. inversion E; subst m. clear E.
    apply startsWith_spec in Ht. destruct Ht as [payload Ht].
    split; [discriminate |]. split; [apply forallb_notSemi; exact H2 |].
    exists payload. rewrite <- H1, Ht. reflexivity.
  - intros [Hne [Hsemi [payload ->]]].
    assert (startsWith (lit "data:")
              (lit "data:" ++ m ++ lit ";base64," ++ payload) = true) as ->
      by (apply startsWith_spec; eexists; reflexivity).
    change (skipn 5 (lit "data:" ++ m ++ lit ";base64," ++ payload))
      with (m ++ lit ";base64," ++ payload).
    rewrite dropWhile_app_all by (apply forallb_notSemi; exact Hsemi).
    change (dropWhile (fun c => negb (N.eqb c 59))
              (lit ";base64," ++ payload))
      with (lit ";base64," ++ payload).
    replace (List.length (m ++ lit ";base64," ++ payload)
             - List.length (lit ";base64," ++ payload))
      with (List.length m + 0) by (rewrite (length_app m); lia).
    rewrite firstn_app_2. cbn [firstn]. rewrite app_nil_r.
    destruct m as [|c g]; [contradiction |].
    assert (startsWith (lit ";base64,") (lit ";base64," ++ payload) = true)
      as -> by (apply startsWith_spec; eexists; reflexivity).
    reflexivity.
Qed.

(** X1.  The content type that [uploadToGCS] sends is read off the image
    string: for [data:<type>;base64,...] with a non-empty type free of
    semicolons it is that type, and for every other string it is
    [image/png]. *)
Theorem mimeType_reads_the_data_uri (base64Data : jsstring) :
  (forall m payload,
      m <> [] -> ~ In 59%N m ->
      base64Data = lit "data:" ++ m ++ lit ";base64," ++ payload ->
      mimeType base64Data = m) /\
  ((forall m payload,
       m <> [] -> ~ In 59%N m ->
       base64Data <> lit "data:" ++ m ++ lit ";base64," ++ payload) ->
   mimeType base64Data = lit "image/png").
Proof.
  unfold mimeType. split.
  - intros m payload Hne Hsemi E.
    assert (mimeMatch base64Data = Some m) as ->
      by (apply mimeMatch_spec; eauto).
    reflexivity.
  - intros Hno. destruct (mimeMatch base64Data) as [m |] eqn:E;
      [| reflexivity].
    apply mimeMatch_spec in E. destruct E as [Hne [Hsemi [payload E]]].
    exfalso. exact (Hno m payload Hne Hsemi E).
Qed.

Example mimeType_examples :
  mimeType (lit "data:image/jpeg;base64,/9j/4AAQ") = lit "image/jpeg" /\
  mimeType (lit "data:;base64,AAAA") = lit "image/png" /\
  mimeType (lit "data:image/png,AAAA") = lit "image/png" /\
  mimeType (lit "iVBORw0KGgo=") = lit "image/png".
Proof. repeat split. Qed.

(** X2.  Images with different identifiers are stored under different
    object names, and are sent to different URLs of a bucket. *)
Theorem uploadUrl_distinct (bucket : jsval) (id id' : jsstring) :
  id <> id' ->
  fileName id <> fileName id' /\ uploadUrl bucket id <> uploadUrl bucket id'.
Proof.
  intros Hne.
  assert (fileName id <> fileName id') as Hf.
  { unfold fileName. intros E. apply app_inv_head in E.
    apply app_inv_tail in E. contradiction. }
  split; [exact Hf |]. unfold uploadUrl. intros E.
  apply app_inv_head in E. apply app_inv_head in E.
  apply app_inv_head in E. contradiction.
Qed.

Lemma uploadUrl_distinct_witness :
  fileName (lit "1730000000002") <> fileName (lit "1730000000009") /\
  uploadUrl (JStr (lit "infographics")) (lit "1730000000002")
  <> uploadUrl (JStr (lit "infographics")) (lit "1730000000009").
Proof.
  apply (@uploadUrl_distinct (JStr (lit "infographics"))
           (lit "1730000000002") (lit "1730000000009")).
  vm_compute. discriminate.
Defined.

(** The loop over the parts returns the first part with image bytes. *)
Lemma firstInlineImage_Some (parts : list Part) (d : jsstring) :
  firstInlineImage parts = Some d <->
  exists pre mt payload post,
    parts = pre ++ InlineData mt (JStr payload) :: post /\
    payload <> [] /\
    existsb carriesImage pre = false /\
    d = pngDataUri payload.
Proof.
  unfold pngDataUri. induction parts as [|p parts IH].
  - split; [discriminate |].
    intros [pre [mt [payload [post [H _]]]]]. destruct pre; discriminate.
  - destruct p as [text | mt0 d0]; cbn [firstInlineImage].
    + rewrite IH. split.
      * intros [pre [mt [payload [post [-> [H1 [H2 H3]]]]]]].
        exists (TextPart text :: pre), mt, payload, post. auto.
      * intros [pre [mt [payload [post [E [H1 [H2 H3]]]]]]].
        destruct pre as [|q pre]; [discriminate |].
        inversion E; subst. cbn [existsb carriesImage orb] in H2.
        exists pre, mt, payload, post. auto.
    + destruct (truthy d0) eqn:Ht.
      * split.
        -- intros E. inversion E; subst d. clear E.
           destruct d0 as [| | [|c r]]; try discriminate.
           exists [], mt0, (c :: r), parts.
           repeat split; try reflexivity. discriminate.
        -- intros [pre [mt [payload [post [E [H1 [H2 H3]]]]]]].
           destruct pre as [|q pre].
           ++ inversion E; subst. reflexivity.
           ++ inversion E; subst. cbn [existsb carriesImage] in H2.
              rewrite Ht in H2. discriminate.
      * rewrite IH. split.
        -- intros [pre [mt [payload [post [-> [H1 [H2 H3]]]]]]].
           exists (InlineData mt0 d0 :: pre), mt, payload, post.
           cbn [existsb carriesImage]. rewrite Ht. auto.
        -- intros [pre [mt [payload [post [E [H1 [H2 H3]]]]]]].
           destruct pre as [|q pre].
           ++ inversion E; subst. destruct payload; [contradiction |].
              discriminate.
           ++ inversion E; subst. cbn [existsb carriesImage] in H2.
              rewrite Ht in H2. exists pre, mt, payload, post. auto.
Qed.

Lemma firstInlineImage_None (parts : list Part) :
  firstInlineImage parts = None <-> existsb carriesImage parts = false.
Proof.
  induction parts as [|p parts IH]; [split; reflexivity |].
  destruct p as [text | mt d]; cbn [firstInlineImage existsb carriesImage orb];
    [exact IH |].
  destruct (truthy d); [split; discriminate | exact IH].
Qed.

Lemma pngDataUri_mimeType (payload : jsstring) :
  mimeType (pngDataUri payload) = lit "image/png".
Proof.
  unfold mimeType.
  assert (mimeMatch (pngDataUri payload) = Some (lit "image/png")) as ->;
    [| reflexivity].
  apply mimeMatch_spec. split; [vm_compute; discriminate |]. split.
  - vm_compute. intuition discriminate.
  - exists payload. reflexivity.
Qed.

Lemma cleanBase64_pngDataUri (payload : jsstring) :
  cleanBase64 (pngDataUri payload) = payload.
Proof. reflexivity. Qed.

End DataUris.

(** ** The image calls of the client *)

Section ImageClient.
Variable S : Type.
Variable world : Oracle.

Ltac run_monad :=
  cbv beta iota zeta
    delta [tryCatch tryFinally bind await emit ret throw liftCompletion update
             callModel];
  cbn [store trace fst snd negb orb andb].

(** X3.  Whatever image string [generateInfographicImage],
    [editInfographicImage] or [fixInfographicImage] returns is a PNG data
    URI with a non-empty payload.  So the uploader sends it as [image/png],
    and when it is edited later the request carries exactly that payload,
    the prefix taken off. *)
Theorem image_results_are_png_data_uris (w : World S) (d : jsstring) :
  (exists prompt aspectRatio resolution,
      fst (generateInfographicImage world prompt aspectRatio resolution w)
      = Returned d) \/
  (exists image instruction,
      fst (editInfographicImage world image instruction w) = Returned d) \/
  (exists image instruction,
      fst (fixInfographicImage world image instruction w) = Returned d) ->
  exists payload,
    payload <> [] /\
    d = pngDataUri payload /\
    mimeType d = lit "image/png" /\
    forall instruction,
      req_parts (editRequest d instruction)
      = [InlineData (JStr (lit "image/jpeg")) (JStr payload);
         TextPart instruction].
Proof.
  intros H.
  assert (exists parts, firstInlineImage parts = Some d) as [parts Hp].
  { destruct H as [[p [a [r H]]] | [[i [t H]] | [i [t H]]]];
      revert H;
      unfold generateInfographicImage, editInfographicImage,
        fixInfographicImage;
      run_monad;
      match goal with
      | |- context [generateContent ?o ?t ?r] =>
          destruct (generateContent o t r) as [resp | e]
      end; try discriminate;
      destruct (firstInlineImage (partsOf resp)) as [d' |] eqn:E;
      try discriminate; cbn [fst]; intros H; inversion H; subst;
      eexists; exact E. }
  apply firstInlineImage_Some in Hp.
  destruct Hp as [pre [mt [payload [post [_ [Hne [_ ->]]]]]]].
  exists payload. split; [exact Hne |]. split; [reflexivity |].
  split; [apply pngDataUri_mimeType |].
  intros instruction. unfold editRequest. cbn [req_parts].
  rewrite cleanBase64_pngDataUri. reflexivity.
Qed.

(** X4.  [generateInfographicImage] sends one request, to the image model
    with the aspect ratio and the size asked for.  Its result is the first
    part of the answer that carries image bytes, whatever type that part
    declares and whatever text parts or empty parts come before it.  An
    answer with no such part, or with no parts at all, makes it throw
    [Failed to generate image]; an error of the request is thrown on
    as it is. *)
Theorem generateInfographicImage_takes_first_image
  (prompt aspectRatio resolution : jsstring) (w : World S) :
  let request := imageRequest prompt aspectRatio resolution in
  let w' :=
    {| store := store w; trace := trace w ++ [GenerateContent request] |} in
  req_imageConfig request = Some (aspectRatio, resolution) /\
  req_model request = IMAGE_MODEL /\
  (forall e,
      generateContent world (trace w) request = Threw e ->
      generateInfographicImage world prompt aspectRatio resolution w
      = (Threw e, w')) /\
  (forall response pre mt payload post,
      generateContent world (trace w) request = Returned response ->
      resp_parts response
      = Some (pre ++ InlineData mt (JStr payload) :: post) ->
      payload <> [] ->
      existsb carriesImage pre = false ->
      generateInfographicImage world prompt aspectRatio resolution w
      = (Returned (pngDataUri payload), w')) /\
  (forall response,
      generateContent world (trace w) request = Returned response ->
      existsb carriesImage (partsOf response) = false ->
      generateInfographicImage world prompt aspectRatio resolution w
      = (Threw (Error (lit "Failed to generate image")), w')).
Proof.
  cbv zeta. split; [reflexivity |]. split; [reflexivity |].
  unfold generateInfographicImage. split; [| split].
  - intros e H. run_monad. rewrite H. reflexivity.
  - intros response pre mt payload post H Hparts Hne Hpre. run_monad.
    rewrite H.
    assert (firstInlineImage (partsOf response) = Some (pngDataUri payload))
      as ->; [| reflexivity].
    apply firstInlineImage_Some. unfold partsOf. rewrite Hparts.
    exists pre, mt, payload, post. auto.
  - intros response H Hnone. run_monad. rewrite H.
    apply firstInlineImage_None in Hnone. rewrite Hnone. reflexivity.
Qed.

(** X5.  [editInfographicImage] and [fixInfographicImage] send one request
    each, to the edit model: the image first, labelled [image/jpeg], then
    the text.  The image goes without its data-URI prefix when that is one
    of [data:image/png], [data:image/jpeg] or [data:image/jpg] and as it is
    otherwise.  The text of an edit is the instruction itself; the text of a
    fix holds the instruction inside a fixed frame.  With no image in the
    answer the edit throws [Failed to edit image] and the fix
    [Failed to fix image]; an error of the request is thrown on as it is. *)
Theorem edit_and_fix_requests
  (image instruction : jsstring) (w : World S) :
  let sent := fun request =>
    {| store := store w; trace := trace w ++ [GenerateContent request] |} in
  (forall payload,
      image = lit "data:image/png;base64," ++ payload \/
      image = lit "data:image/jpeg;base64," ++ payload \/
      image = lit "data:image/jpg;base64," ++ payload ->
      cleanBase64 image = payload) /\
  (startsWith (lit "data:image/png;base64,") image = false ->
   startsWith (lit "data:image/jpeg;base64,") image = false ->
   startsWith (lit "data:image/jpg;base64,") image = false ->
   cleanBase64 image = image) /\
  editRequest image instruction
  = {| req_model := EDIT_MODEL;
       req_parts := [InlineData (JStr (lit "image/jpeg"))
                       (JStr (cleanBase64 image));
                     TextPart instruction];
       req_googleSearch := false;
       req_imageConfig := None |} /\
  (exists frame,
      fixRequest image instruction
      = {| req_model := EDIT_MODEL;
           req_parts := [InlineData (JStr (lit "image/jpeg"))
                           (JStr (cleanBase64 image));
                         TextPart frame];
           req_googleSearch := false;
           req_imageConfig := None |} /\
      contains (lit "Instruction: " ++ instruction ++ lit ".") frame) /\
  (forall e,
      generateContent world (trace w) (editRequest image instruction)
      = Threw e ->
      editInfographicImage world image instruction w
      = (Threw e, sent (editRequest image instruction))) /\
  (forall e,
      generateContent world (trace w) (fixRequest image instruction)
      = Threw e ->
      fixInfographicImage world image instruction w
      = (Threw e, sent (fixRequest image instruction))) /\
  (forall response,
      generateContent world (trace w) (editRequest image instruction)
      = Returned response ->
      editInfographicImage world image instruction w
      = (match firstInlineImage (partsOf response) with
         | Some d => Returned d
         | None => Threw (Error (lit "Failed to edit image"))
         end, sent (editRequest image instruction))) /\
  (forall response,
      generateContent world (trace w) (fixRequest image instruction)
      = Returned response ->
      fixInfographicImage world image instruction w
      = (match firstInlineImage (partsOf response) with
         | Some d => Returned d
         | None => Threw (Error (lit "Failed to fix image"))
         end, sent (fixRequest image instruction))).
Proof.
  cbv zeta. split; [| split; [| split; [| split]]].
  - intros payload [-> | [-> | ->]]; reflexivity.
  - intros H1 H2 H3. unfold cleanBase64. rewrite H1, H2, H3. reflexivity.
  - reflexivity.
  - eexists. split; [reflexivity |].
    exists (nl ++ lit "    Edit this image. " ++ nl
            ++ lit "    Goal: Simplify and Fix." ++ nl ++ lit "    "),
      (nl ++ lit "    Ensure the design is clean and any text is large and legible."
       ++ nl ++ lit "  ").
    unfold fixPrompt. cbn [join]. rewrite <- !app_assoc. reflexivity.
  - unfold editInfographicImage, fixInfographicImage.
    repeat split; intros r H; run_monad; rewrite H;
      try reflexivity; destruct (firstInlineImage (partsOf r)); reflexivity.
Qed.

End ImageClient.

(** ** The parse of the research answer *)

Section ResearchParse.
Variable S : Type.
Variable world : Oracle.

Lemma In_dropWhile (A : Type) (p : A -> bool) (l : list A) (x : A) :
  In x (dropWhile p l) -> In x l.
Proof.
  induction l as [|y l IH]; simpl; [tauto |].
  destruct (p y); simpl; tauto.
Qed.

Lemma In_trim (s : jsstring) (c : N) : In c (trim s) -> In c s.
Proof.
  unfold trim, trimEnd, trimStart. intros H.
  apply in_rev in H. apply In_dropWhile in H. apply in_rev in H.
  apply In_dropWhile in H. exact H.
Qed.

Lemma In_stripDash (f : jsstring) (c : N) : In c (stripDash f) -> In c f.
Proof.
  unfold stripDash. destruct f as [|x r]; [tauto |].
  destruct x as [|p]; [tauto |].
  repeat (destruct p as [p|p|]; try tauto).
  intros H. right. apply In_dropWhile in H. exact H.
Qed.

Lemma split_no_sep (sep : N) (s l : jsstring) :
  In l (split sep s) -> ~ In sep l.
Proof.
  revert l. induction s as [|c s IH]; intros l; cbn [split].
  - intros [<- | []]. tauto.
  - destruct (N.eqb_spec c sep) as [-> | Hne].
    + intros [<- | H]; [tauto | auto].
    + destruct (split sep s) as [|h r] eqn:E.
      * intros [<- | []]. intros [H | []]. congruence.
      * intros [<- | H].
        -- intros [H | H]; [congruence |].
           apply (IH h); [left; reflexivity | exact H].
        -- apply IH. right. exact H.
Qed.

Lemma dropWhile_head (A : Type) (p : A -> bool) (l : list A) (c : A)
  (r : list A) :
  dropWhile p l = c :: r -> p c = false.
Proof.
  induction l as [|x l IH]; simpl; [discriminate |].
  destruct (p x) eqn:Hx; [exact IH |].
  intros E. inversion E; subst. exact Hx.
Qed.

Lemma dropWhile_keeps_last (A : Type) (p : A -> bool) (l : list A) (c : A) :
  p c = false -> exists l', dropWhile p (l ++ [c]) = l' ++ [c].
Proof.
  intros Hc. induction l as [|x l [l' IH]]; simpl.
  - rewrite Hc. exists []. reflexivity.
  - destruct (p x); [exists l'; exact IH |].
    exists (x :: l). reflexivity.
Qed.

(** Trimming twice is trimming once. *)
Lemma trim_idem (s : jsstring) : trim (trim s) = trim s.
Proof.
  unfold trim. set (u := trimStart s).
  assert (trimStart (trimEnd u) = trimEnd u) as Hu.
  { unfold u, trimStart.
    destruct (dropWhile isWhiteSpace s) as [|c r] eqn:E; [reflexivity |].
    pose proof (dropWhile_head _ _ E) as Hc.
    unfold trimEnd. cbn [rev].
    destruct (@dropWhile_keeps_last _ isWhiteSpace (rev r) c Hc) as [l' Hl].
    rewrite Hl, rev_app_distr. simpl. rewrite Hc.
    reflexivity. }
  rewrite Hu. unfold trimEnd. rewrite rev_involutive, dropWhile_idem.
  reflexivity.
Qed.

Lemma parseFacts_lines (text f : jsstring) :
  In f (parseFacts text) -> trimmedNoLineFeed f /\ f <> [].
Proof.
  unfold parseFacts. intros H. apply firstn_incl in H.
  apply filter_In in H. destruct H as [H Hne].
  apply in_map_iff in H. destruct H as [l [<- Hl]].
  split; [| apply nonEmpty_true; exact Hne].
  split; [apply trim_idem |].
  intros H. apply In_trim, In_stripDash in H.
  exact (split_no_sep _ _ _ Hl H).
Qed.

(** Which chunks the loop over the grounding chunks collects. *)
Lemma collectSearchResults_In (chunks : option (list GroundingChunk))
  (item : SearchResultItem.t) :
  In item (collectSearchResults chunks) <->
  exists cs chunk,
    chunks = Some cs /\ In chunk cs /\ cites chunk item.
Proof.
  unfold collectSearchResults, cites. destruct chunks as [cs |].
  - rewrite in_flat_map. split.
    + intros [chunk [Hin H]]. exists cs, chunk.
      split; [reflexivity |]. split; [exact Hin |].
      destruct (web chunk) as [w |]; [| destruct H].
      destruct (uri w) as [| | [|c u]] eqn:Hu;
        try (simpl in H; rewrite ?andb_false_r in H; contradiction).
      destruct (web_title w) as [| | [|d t]] eqn:Ht;
        try (simpl in H; rewrite ?andb_false_r in H; contradiction).
      cbn [truthy andb toStr] in H. destruct H as [<- | []].
      exists w. cbn [SearchResultItem.url SearchResultItem.title].
      repeat split; try assumption; discriminate.
    + intros [cs' [chunk [E [Hin [w [Hw [Hu [Ht [Hue Hte]]]]]]]]].
      inversion E; subst cs'. exists chunk. split; [exact Hin |].
      rewrite Hw, Hu, Ht. destruct item as [t u].
      cbn [SearchResultItem.url SearchResultItem.title] in *.
      destruct u; [contradiction |]. destruct t; [contradiction |].
      left. reflexivity.
  - split; [intros [] |]. intros [cs [chunk [E _]]]. discriminate.
Qed.

(** X6.  When the answer holds [IMAGE_PROMPT:], in any letter case, the
    image prompt that [researchTopicForPrompt] returns is all the text after
    the first such marker, trimmed.  If nothing but white space follows the
    marker the prompt is empty: the fallback prompt is not used. *)
Theorem researchTopicForPrompt_image_prompt
  (topic level style language : jsstring) (context : jsval) (w : World S)
  (response : GenResponse) (pre marker rest : jsstring) :
  generateContent world (trace w)
    (researchRequest topic level style language context) = Returned response ->
  responseText response = pre ++ marker ++ rest ->
  ci_equal marker (lit "IMAGE_PROMPT:") ->
  ~ occurs_ci (lit "IMAGE_PROMPT:") (pre ++ removelast marker) ->
  exists r w',
    researchTopicForPrompt world topic level style language context w
    = (Returned r, w') /\
    ResearchResult.imagePrompt r = trim rest /\
    (forallb isWhiteSpace rest = true -> ResearchResult.imagePrompt r = []).
Proof.
  intros H Htext Hm Hpre. eexists _, _. split.
  - apply researchTopicForPrompt_run. exact H.
  - cbn [parseResearch ResearchResult.imagePrompt].
    unfold parseImagePrompt, promptMatch. rewrite Htext.
    rewrite (@searchAfter_ci_first (lit "IMAGE_PROMPT:") pre marker rest Hm);
      [| apply (header_not_empty Hm); vm_compute; discriminate | exact Hpre].
    change (dropWhile isWhiteSpace rest) with (trimStart rest).
    rewrite trim_trimStart. split; [reflexivity |].
    intros Hws. apply trim_nil_iff. exact Hws.
Qed.

(** X7.  An answer that comes without text, or whose text holds no
    [FACTS:] header in any letter case, gives no facts.  Without text the
    image prompt is the fallback prompt as well. *)
Theorem researchTopicForPrompt_without_facts
  (topic level style language : jsstring) (context : jsval) (w : World S)
  (response : GenResponse) :
  generateContent world (trace w)
    (researchRequest topic level style language context) = Returned response ->
  exists r w',
    researchTopicForPrompt world topic level style language context w
    = (Returned r, w') /\
    (~ occurs_ci (lit "FACTS:") (responseText response) ->
     ResearchResult.facts r = []) /\
    (truthy (resp_text response) = false ->
     ResearchResult.facts r = [] /\
     ResearchResult.imagePrompt r
     = lit "Create a detailed infographic about " ++ topic ++ lit ". "
       ++ getLevelInstruction level ++ lit " " ++ getStyleInstruction style).
Proof.
  intros H. eexists _, _. split.
  - apply researchTopicForPrompt_run. exact H.
  - cbn [parseResearch ResearchResult.facts ResearchResult.imagePrompt].
    split.
    + intros Hno. apply searchAfter_ci_None in Hno.
      unfold parseFacts, factsRaw, factsMatch. rewrite Hno. reflexivity.
    + intros Hf. unfold responseText. rewrite Hf. split; reflexivity.
Qed.

(** A carriage return inside a line is no line feed and no white space at
    an end: it stays in the fact. *)
Example facts_keep_carriage_returns :
  parseFacts (lit "FACTS: " ++ lit "one" ++ [13%N] ++ lit "two" ++ nl
              ++ lit "- three")
  = [lit "one" ++ [13%N] ++ lit "two"; lit "three"].
Proof. vm_compute. reflexivity. Qed.

(** X8.  Every fact that [researchTopicForPrompt] returns is trimmed (it
    has no white space at either end), holds no line feed, the character
    the section is split at, and is not empty. *)
Theorem researchTopicForPrompt_facts_are_trimmed
  (topic level style language : jsstring) (context : jsval) (w : World S)
  (response : GenResponse) :
  generateContent world (trace w)
    (researchRequest topic level style language context) = Returned response ->
  exists r w',
    researchTopicForPrompt world topic level style language context w
    = (Returned r, w') /\
    forall f, In f (ResearchResult.facts r) -> trimmedNoLineFeed f /\ f <> [].
Proof.
  intros H. eexists _, _. split.
  - apply researchTopicForPrompt_run. exact H.
  - cbn [parseResearch ResearchResult.facts]. apply parseFacts_lines.
Qed.

(** X9.  Every citation that [researchTopicForPrompt] returns was carried
    by a grounding chunk of the answer, and its title and its URL are not
    empty.  A chunk without [web], or with a missing or empty [uri] or
    [title], gives no citation; an answer without grounding chunks gives
    none.  The URL of every chunk that carries both fields is among the
    citations. *)
Theorem researchTopicForPrompt_citations_come_from_chunks
  (topic level style language : jsstring) (context : jsval) (w : World S)
  (response : GenResponse) :
  generateContent world (trace w)
    (researchRequest topic level style language context) = Returned response ->
  exists r w',
    researchTopicForPrompt world topic level style language context w
    = (Returned r, w') /\
    let result := ResearchResult.searchResults r in
    (forall item,
        In item result ->
        exists cs chunk,
          resp_groundingChunks response = Some cs /\
          In chunk cs /\ cites chunk item) /\
    (forall cs chunk item,
        resp_groundingChunks response = Some cs ->
        In chunk cs -> cites chunk item ->
        In (SearchResultItem.url item) (urls result)) /\
    (resp_groundingChunks response = None -> result = []) /\
    (forall cs,
        resp_groundingChunks response = Some cs ->
        (forall chunk, In chunk cs ->
           match web chunk with
           | Some c => truthy (uri c) && truthy (web_title c) = false
           | None => True
           end) ->
        result = []).
Proof.
  intros H. eexists _, _. split.
  - apply researchTopicForPrompt_run. exact H.
  - cbv zeta. cbn [parseResearch ResearchResult.searchResults].
    destruct (uniqueResults_spec
                (collectSearchResults (resp_groundingChunks response)))
      as [_ [Hurls [Hlast _]]].
    split; [| split; [| split]].
    + intros item Hin. apply Hlast in Hin.
      destruct Hin as [before [after [E _]]].
      apply collectSearchResults_In. rewrite E. apply in_elt.
    + intros cs chunk item E Hin Hc. apply Hurls. unfold urls.
      apply in_map. apply collectSearchResults_In. eauto.
    + intros ->. reflexivity.
    + intros cs -> Hall.
      assert (collectSearchResults (Some cs) = []) as ->; [| reflexivity].
      unfold collectSearchResults.
      induction cs as [|chunk cs IH]; [reflexivity |].
      cbn [flat_map]. rewrite IH by (intros c Hc; apply Hall; right; exact Hc).
      specialize (Hall chunk (or_introl eq_refl)).
      destruct (web chunk) as [c |]; [| reflexivity].
      rewrite Hall. reflexivity.
Qed.

End ResearchParse.

(** ** The research request *)

Section ResearchRequest.

Lemma contains_head (p s : jsstring) :
  (exists post, s = p ++ post) -> contains p s.
Proof. intros [post ->]. exists [], post. reflexivity. Qed.

Lemma contains_skip (p a s : jsstring) : contains p s -> contains p (a ++ s).
Proof.
  intros [pre [post ->]]. exists (a ++ pre), post.
  rewrite <- app_assoc. reflexivity.
Qed.

Ltac here := apply contains_head; eexists; rewrite <- ?app_assoc; reflexivity.
Ltac find_part := solve [here] || (apply contains_skip; find_part).

(** X10.  The request that [researchTopicForPrompt] sends goes to the text
    model with the search tool switched on, and carries one text.  That text
    holds the topic between double quotes, the instruction of the chosen
    audience level and of the chosen style, and the language.  A context
    that is a non-empty string stands in it between the two context
    markers; with no context ([null], [undefined] or the empty string) the
    text is the same as with [null]. *)
Theorem researchRequest_carries_the_inputs
  (topic level style language : jsstring) (context : jsval) :
  let request := researchRequest topic level style language context in
  req_model request = TEXT_MODEL /\
  req_googleSearch request = true /\
  exists text,
    req_parts request = [TextPart text] /\
    contains (quote ++ topic ++ quote) text /\
    contains (getLevelInstruction level) text /\
    contains (getStyleInstruction style) text /\
    contains (lit "    Language: " ++ language ++ nl) text /\
    (forall c,
        context = JStr c -> c <> [] ->
        contains (lit "    --- BEGIN CONTEXT ---" ++ nl ++ lit "    " ++ c
                  ++ nl ++ lit "    --- END CONTEXT ---") text) /\
    (truthy context = false ->
     request = researchRequest topic level style language JNull).
Proof.
  cbv zeta. split; [reflexivity |]. split; [reflexivity |].
  eexists. split; [reflexivity |].
  unfold systemPrompt.
  split; [| split; [| split; [| split; [| split]]]].
  - cbn [join]. rewrite <- !app_assoc. find_part.
  - cbn [join]. rewrite <- !app_assoc. find_part.
  - cbn [join]. rewrite <- !app_assoc. find_part.
  - cbn [join]. rewrite <- !app_assoc. find_part.
  - intros c -> Hc. destruct c as [|x c]; [contradiction |].
    cbn [truthy toStr join]. rewrite <- !app_assoc. find_part.
  - intros H. unfold researchRequest, systemPrompt. rewrite H. reflexivity.
Qed.

End ResearchRequest.

(** ** The two cycles of the controller, step by step *)

Section Cycles.
Variable world : Oracle.

Ltac run_monad :=
  cbv beta iota zeta
    delta [tryCatch tryFinally bind await emit ret throw liftCompletion update
             callModel dateNow store trace fst snd
             researchTopicForPrompt generateInfographicImage
             editInfographicImage
             setIsLoading setIsSyncing setLoadingMessage setLoadingStep
             setLoadingFacts setError setImageHistory setActiveImageId
             setCurrentSearchResults setHasApiKey].

Ltac fields :=
  cbn [topic activeImageId complexityLevel visualStyle language aspectRatio
       resolution isLoading isSyncing loadingMessage loadingStep loadingFacts
       error imageHistory currentSearchResults isDarkMode showStorageModal
       storageStatus contextSources showContextOptions showUrlInput
       urlInputValue hasApiKey checkingKey
       withIsLoading withIsSyncing withLoadingMessage withLoadingStep
       withLoadingFacts withError withImageHistory withActiveImageId
       withCurrentSearchResults withHasApiKey].

Ltac split_oracle :=
  match goal with
  | |- context [match generateContent ?w ?t ?r with _ => _ end] =>
      destruct (generateContent w t r) eqn:?
  | |- context [match firstInlineImage ?p with _ => _ end] =>
      destruct (firstInlineImage p) eqn:?
  end; run_monad.

Ltac leaf :=
  unfold failedWith, succeededWith, sameInputs; fields;
  rewrite <- ?app_assoc; cbn [app];
  repeat split; try reflexivity.

(** The awaited steps of a generation cycle, as the world answers them. *)
Lemma generateOutcome_cases (w : World AppState) :
  let s := store w in
  generateOutcome world w
  = match generateContent world (trace w) (researchOf s) with
    | Threw e => Threw e
    | Returned response =>
        match generateContent world (trace w ++ [GenerateContent (researchOf s)])
                (imageOf s response) with
        | Threw e => Threw e
        | Returned answer =>
            match firstInlineImage (partsOf answer) with
            | Some d => Returned d
            | None => Threw (Error (lit "Failed to generate image"))
            end
        end
    end.
Proof.
  destruct w as [s t]. cbv zeta.
  unfold generateOutcome, generateSteps, researchOf, imageOf, resultOf.
  run_monad.
  destruct (generateContent world t _) as [response | e]; [| reflexivity].
  run_monad.
  destruct (generateContent world _ _) as [answer | e]; [| reflexivity].
  destruct (firstInlineImage (partsOf answer)); reflexivity.
Qed.

(** A generation cycle that gets past its guards, case by case. *)
Lemma handleGenerate_cases (w : World AppState) :
  generateAccepted (store w) ->
  let s := store w in
  let w' := invoke (handleGenerate world) w in
  let s' := store w' in
  fst (handleGenerate world s w) = Returned tt /\
  isLoading s' = false /\ loadingStep s' = 0%N /\ sameInputs s s' /\
  match generateContent world (trace w) (researchOf s) with
  | Threw e =>
      trace w' = trace w ++ [GenerateContent (researchOf s);
                             ConsoleError [] (Some e)] /\
      loadingFacts s' = [] /\ currentSearchResults s' = [] /\
      failedWith accessDeniedOnGenerate serviceUnavailable e s s'
  | Returned response =>
      let r := resultOf s response in
      let sent := [GenerateContent (researchOf s);
                   GenerateContent (imageOf s response)] in
      loadingFacts s' = ResearchResult.facts r /\
      currentSearchResults s' = ResearchResult.searchResults r /\
      match generateOutcome world w with
      | Threw e =>
          trace w' = trace w ++ sent ++ [ConsoleError [] (Some e)] /\
          failedWith accessDeniedOnGenerate serviceUnavailable e s s'
      | Returned d =>
          let img :=
            GeneratedImage.Build
              (numToString (clock world (trace w ++ sent))) d
              (effectiveTopic s) (clock world (trace w ++ sent ++ [DateNow]))
              (complexityLevel s) (visualStyle s) (language s)
              (aspectRatio s) (resolution s) in
          trace w' = trace w ++ sent
                       ++ [DateNow; DateNow;
                           StartUpload d (GeneratedImage.id img)] /\
          succeededWith img s s'
      end
  end.
Proof.
  intros Ha. cbv zeta. rewrite generateOutcome_cases.
  destruct w as [s t]. cbn [store trace] in *. destruct Ha as [Hl Hin].
  unfold invoke, handleGenerate, researchOf, imageOf, resultOf.
  cbn [store trace].
  rewrite Hl, (guard_passes _ Hin). run_monad.
  split_oracle.
  - split_oracle.
    + split_oracle.
      * leaf.
      * destruct (isAccessError _) eqn:Hacc; run_monad; leaf;
          rewrite Hacc; reflexivity.
    + destruct (isAccessError _) eqn:Hacc; run_monad; leaf;
      rewrite Hacc; reflexivity.
  - destruct (isAccessError _) eqn:Hacc; run_monad; leaf;
      rewrite Hacc; reflexivity.
Qed.

Lemma editOutcome_cases (w : World AppState) (current : GeneratedImage.t)
  (editPrompt : jsstring) :
  editOutcome world w current editPrompt
  = match generateContent world (trace w)
            (editRequest (GeneratedImage.data current) editPrompt) with
    | Threw e => Threw e
    | Returned answer =>
        match firstInlineImage (partsOf answer) with
        | Some d => Returned d
        | None => Threw (Error (lit "Failed to edit image"))
        end
    end.
Proof.
  destruct w as [s t]. unfold editOutcome. run_monad.
  destruct (generateContent world t _) as [answer | e]; [| reflexivity].
  destruct (firstInlineImage (partsOf answer)); reflexivity.
Qed.

(** An edit cycle that gets past its guards, case by case. *)
Lemma handleEdit_cases (w : World AppState) (editPrompt : jsstring)
  (current : GeneratedImage.t) :
  editAccepted (store w) current ->
  let s := store w in
  let w' := invoke (fun s => handleEdit world s editPrompt) w in
  let s' := store w' in
  let sent :=
    [GenerateContent
       (editRequest (GeneratedImage.data current) editPrompt)] in
  fst (handleEdit world s editPrompt w) = Returned tt /\
  isLoading s' = false /\ loadingStep s' = 0%N /\ sameInputs s s' /\
  loadingFacts s' = loadingFacts s /\
  currentSearchResults s' = currentSearchResults s /\
  match editOutcome world w current editPrompt with
  | Threw e =>
      trace w' = trace w ++ sent ++ [ConsoleError [] (Some e)] /\
      failedWith accessDeniedOnEdit modificationFailed e s s'
  | Returned d =>
      let img :=
        GeneratedImage.Build (numToString (clock world (trace w ++ sent))) d
          editPrompt (clock world (trace w ++ sent ++ [DateNow]))
          (GeneratedImage.level current) (GeneratedImage.style current)
          (GeneratedImage.language current)
          (GeneratedImage.aspectRatio current)
          (GeneratedImage.resolution current) in
      trace w' = trace w ++ sent
                   ++ [DateNow; DateNow;
                       StartUpload d (GeneratedImage.id img)] /\
      succeededWith img s s'
  end.
Proof.
  intros Ha. cbv zeta. rewrite editOutcome_cases.
  destruct w as [s t]. cbn [store trace] in *. destruct Ha as [Ht Hf].
  unfold invoke, handleEdit. cbn [store trace].
  rewrite Ht, Hf. cbn [negb]. run_monad.
  split_oracle.
  - split_oracle.
    + leaf.
    + destruct (isAccessError _) eqn:Hacc; run_monad; leaf;
        rewrite Hacc; reflexivity.
  - destruct (isAccessError _) eqn:Hacc; run_monad; leaf;
      rewrite Hacc; reflexivity.
Qed.

Lemma generate_guards (s : AppState) :
  isLoading s = true \/
  (isLoading s = false /\ trim (topic s) = [] /\ contextSources s = []) \/
  generateAccepted s.
Proof.
  unfold generateAccepted. destruct (isLoading s); [left; reflexivity |].
  right. destruct (trim (topic s)) as [|c r].
  - destruct (contextSources s) as [|x l].
    + left. auto.
    + right. split; [reflexivity |]. right. discriminate.
  - right. split; [reflexivity |]. left. discriminate.
Qed.

Lemma edit_guards (s : AppState) :
  (exists current, editAccepted s current) \/
  (forall editPrompt w,
      store w = s -> handleEdit world s editPrompt w = (Returned tt, w)).
Proof.
  unfold editAccepted. destruct (truthy (activeImageId s)) eqn:Ht.
  - destruct (findImage (imageHistory s) (activeImageId s)) as [img |] eqn:Hf.
    + left. exists img. auto.
    + right. intros p w _. unfold handleEdit. rewrite Ht, Hf. reflexivity.
  - right. intros p w _. unfold handleEdit. rewrite Ht. reflexivity.
Qed.

(** X11.  [handleGenerate] and [handleEdit] never reject: whatever the
    state and whatever the model API does, the call returns.  When a cycle
    has got past the guards it ends with the loading flag off and the
    loading step back at 0, on success and on failure alike, and it leaves
    the inputs of the form (topic, context sources, level, style, language,
    aspect ratio, resolution) as they were. *)
Theorem cycles_always_settle (w : World AppState) (editPrompt : jsstring) :
  fst (handleGenerate world (store w) w) = Returned tt /\
  fst (handleEdit world (store w) editPrompt w) = Returned tt /\
  (generateAccepted (store w) ->
   let s' := store (invoke (handleGenerate world) w) in
   isLoading s' = false /\ loadingStep s' = 0%N /\ sameInputs (store w) s') /\
  (forall current,
      editAccepted (store w) current ->
      let s' := store (invoke (fun s => handleEdit world s editPrompt) w) in
      isLoading s' = false /\ loadingStep s' = 0%N /\
      sameInputs (store w) s').
Proof.
  split; [| split; [| split]].
  - destruct (generate_guards (store w)) as [H | [[H1 [H2 H3]] | H]].
    + rewrite (handleGenerate_when_loading world w H). reflexivity.
    + unfold handleGenerate. rewrite H1, H2, H3. reflexivity.
    + apply (handleGenerate_cases w H).
  - destruct (edit_guards (store w)) as [[current H] | H].
    + apply (handleEdit_cases w editPrompt H).
    + rewrite (H editPrompt w eq_refl). reflexivity.
  - intros H. destruct (handleGenerate_cases w H) as [_ [H1 [H2 [H3 _]]]].
    cbv zeta. auto.
  - intros current H.
    destruct (handleEdit_cases w editPrompt H) as [_ [H1 [H2 [H3 _]]]].
    cbv zeta. auto.
Qed.

(** X12.  A generation cycle that gets past the guards sends the research
    request first, made of the effective topic, the settings of the form
    and the context.  If that fails nothing else is requested.  Otherwise
    the image request follows, with the image prompt of the research and
    the aspect ratio and resolution of the form.  Only when an image comes
    back does the cycle read the clock and start an upload: one upload, of
    that image, under the identifier of the new history entry, and the
    syncing flag goes on.  A failure is logged, starts no upload and leaves
    the syncing flag as it was. *)
Theorem generation_cycle_events (w : World AppState) :
  generateAccepted (store w) ->
  let s := store w in
  let w' := invoke (handleGenerate world) w in
  exists evs,
    trace w' = trace w ++ evs /\
    (forall e,
        generateContent world (trace w) (researchOf s) = Threw e ->
        evs = [GenerateContent (researchOf s); ConsoleError [] (Some e)] /\
        isSyncing (store w') = isSyncing s) /\
    (forall response e,
        generateContent world (trace w) (researchOf s) = Returned response ->
        generateOutcome world w = Threw e ->
        evs = [GenerateContent (researchOf s);
               GenerateContent (imageOf s response);
               ConsoleError [] (Some e)] /\
        isSyncing (store w') = isSyncing s) /\
    (forall response d,
        generateContent world (trace w) (researchOf s) = Returned response ->
        generateOutcome world w = Returned d ->
        exists img,
          imageHistory (store w') = img :: imageHistory s /\
          GeneratedImage.data img = d /\
          evs = [GenerateContent (researchOf s);
                 GenerateContent (imageOf s response);
                 DateNow; DateNow;
                 StartUpload d (GeneratedImage.id img)] /\
          uploadsStarted evs = [(d, GeneratedImage.id img)] /\
          isSyncing (store w') = true).
Proof.
  intros Ha. cbv zeta.
  destruct (handleGenerate_cases w Ha) as [_ [_ [_ [_ H]]]]. cbv zeta in H.
  destruct (generateContent world (trace w) (researchOf (store w)))
    as [response | e] eqn:E1.
  - destruct H as [_ [_ H]].
    destruct (generateOutcome world w) as [d | e] eqn:E2.
    + destruct H as [Ht [Hh [_ [Hs _]]]].
      eexists. split; [exact Ht |].
      split; [discriminate |]. split; [discriminate |].
      intros r d' Er Ed. inversion Er; subst. inversion Ed; subst.
      eexists. split; [exact Hh |]. repeat split. exact Hs.
    + destruct H as [Ht [_ [_ [Hs _]]]].
      eexists. split; [exact Ht |].
      split; [discriminate |]. split; [| discriminate].
      intros r e' Er Ee. inversion Er; subst. inversion Ee; subst.
      split; [reflexivity | exact Hs].
  - destruct H as [Ht [_ [_ [_ [_ [Hs _]]]]]].
    eexists. split; [exact Ht |].
    split; [| split; discriminate].
    intros e' Ee. inversion Ee; subst. split; [reflexivity | exact Hs].
Qed.

(** X13.  [handleEdit] does nothing at all, no request and no state
    change, unless the active identifier is a non-empty string that names
    an image of the history.  When it does, it sends one request: the data
    of that image with the instruction.  On success it reads the clock and
    starts one upload, of the new image under the identifier of the new
    history entry; on failure it logs the error and starts none. *)
Theorem edit_cycle_events (w : World AppState) (editPrompt : jsstring) :
  ((forall current, ~ editAccepted (store w) current) ->
   handleEdit world (store w) editPrompt w = (Returned tt, w)) /\
  (forall current,
      editAccepted (store w) current ->
      let w' := invoke (fun s => handleEdit world s editPrompt) w in
      let request :=
        editRequest (GeneratedImage.data current) editPrompt in
      (forall e,
          editOutcome world w current editPrompt = Threw e ->
          trace w' = trace w ++ [GenerateContent request;
                                 ConsoleError [] (Some e)] /\
          isSyncing (store w') = isSyncing (store w)) /\
      (forall d,
          editOutcome world w current editPrompt = Returned d ->
          exists img,
            imageHistory (store w') = img :: imageHistory (store w) /\
            GeneratedImage.data img = d /\
            trace w' = trace w ++ [GenerateContent request; DateNow; DateNow;
                                   StartUpload d (GeneratedImage.id img)] /\
            isSyncing (store w') = true)).
Proof.
  split.
  - intros Hno. destruct (edit_guards (store w)) as [[current H] | H].
    + destruct (Hno current H).
    + apply H. reflexivity.
  - intros current Ha. cbv zeta.
    destruct (handleEdit_cases w editPrompt Ha) as [_ [_ [_ [_ [_ [_ H]]]]]].
    cbv zeta in H.
    destruct (editOutcome world w current editPrompt) as [d | e].
    + destruct H as [Ht [Hh [_ [Hs _]]]]. split; [discriminate |].
      intros d' Ed. inversion Ed; subst.
      eexists. split; [exact Hh |]. split; [reflexivity |].
      split; [exact Ht | exact Hs].
    + destruct H as [Ht [_ [_ [Hs _]]]]. split; [| discriminate].
      intros e' Ee. inversion Ee; subst.
      split; [exact Ht | exact Hs].
Qed.

(** X14.  The history entry of a new image records what was asked for.
    After a generation: the image, the effective topic as its prompt, and
    the level, style, language, aspect ratio and resolution the form had
    when the cycle started.  After an edit: the image, the edit instruction
    as its prompt, and the level, style, language, aspect ratio and
    resolution of the image that was edited, not those of the form.  In
    both, the identifier is the decimal form of what the clock reads right
    after the last request of the cycle, and the time stamp is what it
    reads next. *)
Theorem new_image_records_the_request (w : World AppState) :
  (forall response d,
      generateAccepted (store w) ->
      generateContent world (trace w) (researchOf (store w))
      = Returned response ->
      generateOutcome world w = Returned d ->
      let s := store w in
      let requested :=
        trace w ++ [GenerateContent (researchOf s);
                    GenerateContent (imageOf s response)] in
      imageHistory (store (invoke (handleGenerate world) w))
      = GeneratedImage.Build
          (numToString (clock world requested)) d (effectiveTopic s)
          (clock world (requested ++ [DateNow]))
          (complexityLevel s) (visualStyle s) (language s)
          (aspectRatio s) (resolution s)
        :: imageHistory s) /\
  (forall editPrompt current d,
      editAccepted (store w) current ->
      editOutcome world w current editPrompt = Returned d ->
      let requested :=
        trace w ++ [GenerateContent
                      (editRequest (GeneratedImage.data current)
                         editPrompt)] in
      imageHistory
        (store (invoke (fun s => handleEdit world s editPrompt) w))
      = GeneratedImage.Build
          (numToString (clock world requested)) d editPrompt
          (clock world (requested ++ [DateNow]))
          (GeneratedImage.level current) (GeneratedImage.style current)
          (GeneratedImage.language current)
          (GeneratedImage.aspectRatio current)
          (GeneratedImage.resolution current)
        :: imageHistory (store w)).
Proof.
  split.
  - intros response d Ha Hr Ho. cbv zeta.
    destruct (handleGenerate_cases w Ha) as [_ [_ [_ [_ H]]]].
    cbv zeta in H. rewrite Hr, Ho in H.
    destruct H as [_ [_ [_ [Hh _]]]]. rewrite Hh, <- app_assoc.
    reflexivity.
  - intros p current d Ha Ho. cbv zeta.
    destruct (handleEdit_cases w p Ha) as [_ [_ [_ [_ [_ [_ H]]]]]].
    cbv zeta in H. rewrite Ho in H. destruct H as [_ [Hh _]].
    rewrite Hh, <- app_assoc. reflexivity.
Qed.

(** X15.  The facts and the citations in the state are those of the last
    research that was answered.  A generation cycle clears both when it
    starts; if the research fails they stay empty; once the research is
    answered they are its facts and its citations, and they stay so when
    the image step fails afterwards, while the history and the active image
    are still the old ones.  An edit cycle leaves both untouched. *)
Theorem citations_follow_the_last_research (w : World AppState) :
  (generateAccepted (store w) ->
   let s := store w in
   let s' := store (invoke (handleGenerate world) w) in
   (forall e,
       generateContent world (trace w) (researchOf s) = Threw e ->
       loadingFacts s' = [] /\ currentSearchResults s' = []) /\
   (forall response,
       generateContent world (trace w) (researchOf s) = Returned response ->
       loadingFacts s' = ResearchResult.facts (resultOf s response) /\
       currentSearchResults s'
       = ResearchResult.searchResults (resultOf s response) /\
       (forall e,
           generateOutcome world w = Threw e ->
           imageHistory s' = imageHistory s /\
           activeImageId s' = activeImageId s))) /\
  (forall editPrompt current,
      editAccepted (store w) current ->
      let s' := store (invoke (fun s => handleEdit world s editPrompt) w) in
      loadingFacts s' = loadingFacts (store w) /\
      currentSearchResults s' = currentSearchResults (store w)).
Proof.
  split.
  - intros Ha. cbv zeta.
    destruct (handleGenerate_cases w Ha) as [_ [_ [_ [_ H]]]].
    cbv zeta in H.
    destruct (generateContent world (trace w) (researchOf (store w)))
      as [response | e].
    + split; [discriminate |]. intros r Er. inversion Er; subst.
      destruct H as [H1 [H2 H]]. split; [exact H1 |]. split; [exact H2 |].
      intros e He. rewrite He in H. destruct H as [_ [H3 [H4 _]]]. auto.
    + split; [| discriminate]. intros e' _.
      destruct H as [_ [H1 [H2 _]]]. auto.
  - intros p current Ha.
    destruct (handleEdit_cases w p Ha) as [_ [_ [_ [_ [H1 [H2 _]]]]]].
    cbv zeta. auto.
Qed.

End Cycles.

(** ** The upload of a new image *)

Section BackgroundUpload.
Variable world : Oracle.

Lemma outcome_is_png (w : World AppState) (d : jsstring) :
  (generateOutcome world w = Returned d \/
   exists current editPrompt,
     editOutcome world w current editPrompt = Returned d) ->
  exists payload, d = pngDataUri payload.
Proof.
  assert (forall parts, firstInlineImage parts = Some d ->
                        exists payload, d = pngDataUri payload) as Hpng.
  { intros parts H. apply firstInlineImage_Some in H.
    destruct H as [_ [_ [payload [_ [_ [_ [_ H]]]]]]]. eauto. }
  intros [H | [current [p H]]].
  - rewrite generateOutcome_cases in H. cbv zeta in H.
    destruct (generateContent world _ _); [| discriminate].
    destruct (generateContent world _ _); [| discriminate].
    destruct (firstInlineImage _) eqn:E; [| discriminate].
    inversion H; subst. eauto.
  - rewrite editOutcome_cases in H.
    destruct (generateContent world _ _); [| discriminate].
    destruct (firstInlineImage _) eqn:E; [| discriminate].
    inversion H; subst. eauto.
Qed.

(** X16.  The upload that a successful cycle starts, when it settles after
    the cycle: it never throws, and it changes one cell of the state, the
    syncing flag, which goes off; the history, the active image and the
    error stay.  Without a storage configuration no request is made.  With
    one, and the image read, exactly one upload request is sent: to the
    object [infographic_<id>.png] of the configured bucket, where [<id>] is
    the identifier of the new history entry, with the configured token and
    the content type [image/png]. *)
Theorem upload_of_a_new_image
  (environment : Environment) (w w' : World AppState) (d : jsstring) :
  Produces world w d w' ->
  exists img evs,
    imageHistory (store w') = img :: imageHistory (store w) /\
    uploadInBackground world environment d (GeneratedImage.id img) w'
    = (Returned tt,
       {| store := withIsSyncing false (store w');
          trace := trace w' ++ evs |}) /\
    isSyncing (withIsSyncing false (store w')) = false /\
    imageHistory (withIsSyncing false (store w')) = imageHistory (store w') /\
    activeImageId (withIsSyncing false (store w'))
    = JStr (GeneratedImage.id img) /\
    error (withIsSyncing false (store w')) = error (store w') /\
    (isConfigured (getGCSConfig environment) = false ->
     filter isRequest evs = []) /\
    (isConfigured (getGCSConfig environment) = true ->
     forall blob,
       fetchBlob world (trace w') d = Returned blob ->
       exists rest,
         evs = FetchData d
               :: FetchPost
                    (lit "https://storage.googleapis.com/upload/storage/v1/b/"
                     ++ toStr (bucket (getGCSConfig environment))
                     ++ lit "/o?uploadType=media&name=infographic_"
                     ++ GeneratedImage.id img ++ lit ".png")
                    (lit "Bearer " ++ toStr (token (getGCSConfig environment)))
                    (lit "image/png") blob
               :: rest /\
         filter isRequest rest = []).
Proof.
  intros Hp.
  assert (exists payload, d = pngDataUri payload) as [payload Hd].
  { apply (@outcome_is_png w). destruct Hp as [w d Ha Ho | w p cur d Ha Ho];
      [left; exact Ho | right; eauto]. }
  assert (exists img,
             imageHistory (store w') = img :: imageHistory (store w) /\
             activeImageId (store w') = JStr (GeneratedImage.id img))
    as [img [Hh Hact]].
  { destruct Hp as [w d Ha Ho | w p cur d Ha Ho].
    - destruct (@handleGenerate_success world w d Ha Ho)
        as [_ [img [H1 [_ [H3 _]]]]]. eauto.
    - destruct (@handleEdit_success world w p cur d Ha Ho)
        as [_ [img [H1 [_ [H3 _]]]]]. eauto. }
  destruct (uploadToGCS_behaviour world environment d (GeneratedImage.id img)
              w') as [result [evs [Hrun [Hoff Hon]]]].
  exists img, evs. split; [exact Hh |]. split.
  { unfold uploadInBackground.
    cbv beta iota zeta delta [tryFinally bind ret setIsSyncing update].
    rewrite Hrun. reflexivity. }
  split; [reflexivity |]. split; [reflexivity |].
  split; [exact Hact |]. split; [reflexivity |]. split.
  - intros Hc. apply Hoff. exact Hc.
  - intros Hc blob Hb. destruct (Hon Hc) as [_ [_ [Hsent _]]].
    destruct (Hsent blob Hb) as [_ [rest [Hevs Hrest]]].
    exists rest. split; [| exact Hrest]. rewrite Hevs, Hd.
    rewrite pngDataUri_mimeType. unfold uploadUrl, fileName, bearer.
    rewrite <- ?app_assoc. reflexivity.
Qed.

End BackgroundUpload.

(** ** What is sent for the context sources *)

Section Context.

Lemma describeSources_nth (sources : list ContextSource.t) (index : N)
  (k : nat) (source : ContextSource.t) :
  nth_error sources k = Some source ->
  nth_error (describeSources index sources) k
  = Some (match ContextSource.type source with
          | ContextSource.file =>
              lit "SOURCE " ++ numToString (index + N.of_nat k + 1)
              ++ lit " (File: " ++ ContextSource.name source ++ lit "):"
              ++ nl ++ ContextSource.content source
          | ContextSource.url =>
              lit "SOURCE " ++ numToString (index + N.of_nat k + 1)
              ++ lit " (URL: " ++ ContextSource.content source ++ lit "):"
              ++ nl ++ lit "Please visit this URL to gather relevant context."
          end).
Proof.
  revert index k. induction sources as [|x sources IH]; intros index k.
  - destruct k; discriminate.
  - destruct k as [|k]; cbn [nth_error describeSources].
    + intros E. inversion E; subst. rewrite N.add_0_r. reflexivity.
    + intros E. rewrite (IH (index + 1)%N k E).
      replace (index + 1 + N.of_nat k + 1)%N
        with (index + N.of_nat (S k) + 1)%N by lia.
      reflexivity.
Qed.

Lemma describeSources_length (sources : list ContextSource.t) (index : N) :
  List.length (describeSources index sources) = List.length sources.
Proof.
  revert index. induction sources as [|x sources IH]; intros index;
    [reflexivity |].
  cbn [describeSources List.length]. rewrite IH. reflexivity.
Qed.

Lemma join_not_empty (sep x : jsstring) (l : list jsstring) :
  x <> [] -> join sep (x :: l) <> [].
Proof.
  intros Hx. destruct x as [|c x]; [contradiction |].
  destruct l; cbn [join]; discriminate.
Qed.

(** X17.  What a generation cycle sends for the context sources.  With no
    source the context is [null].  Otherwise it is one non-empty text with
    a block for each source, in the order of the list: block number k
    (counted from 1) starts with [SOURCE k]; for a file it gives the name
    and then the content, for a URL it gives the URL and asks to visit it.
    The topic that is researched is the trimmed topic when that is not
    empty, and a sentence that names all the sources otherwise; when the
    cycle gets past the guards it is never empty. *)
Theorem context_lists_the_sources (s : AppState) :
  (contextSources s = [] -> contextData s = JNull) /\
  (contextSources s <> [] ->
   exists text,
     contextData s = JStr text /\ text <> [] /\
     text = join (nl ++ nl ++ lit "---" ++ nl ++ nl)
              (describeSources 0 (contextSources s))) /\
  List.length (describeSources 0 (contextSources s))
  = List.length (contextSources s) /\
  (forall k source,
      nth_error (contextSources s) k = Some source ->
      nth_error (describeSources 0 (contextSources s)) k
      = Some (match ContextSource.type source with
              | ContextSource.file =>
                  lit "SOURCE " ++ numToString (N.of_nat k + 1)
                  ++ lit " (File: " ++ ContextSource.name source ++ lit "):"
                  ++ nl ++ ContextSource.content source
              | ContextSource.url =>
                  lit "SOURCE " ++ numToString (N.of_nat k + 1)
                  ++ lit " (URL: " ++ ContextSource.content source
                  ++ lit "):" ++ nl
                  ++ lit "Please visit this URL to gather relevant context."
              end)) /\
  (trim (topic s) <> [] -> effectiveTopic s = trim (topic s)) /\
  (trim (topic s) = [] -> contextSources s <> [] ->
   effectiveTopic s
   = lit "Create a comprehensive infographic visualizing the key concepts from the provided sources ("
     ++ join (lit ", ") (List.map ContextSource.name (contextSources s))
     ++ lit ").") /\
  (generateAccepted s -> effectiveTopic s <> []).
Proof.
  assert (trim (topic s) <> [] -> effectiveTopic s = trim (topic s)) as H1.
  { intros H. unfold effectiveTopic.
    destruct (trim (topic s)); [contradiction | reflexivity]. }
  assert (trim (topic s) = [] -> contextSources s <> [] ->
          effectiveTopic s
          = lit "Create a comprehensive infographic visualizing the key concepts from the provided sources ("
            ++ join (lit ", ") (List.map ContextSource.name (contextSources s))
            ++ lit ").") as H2.
  { intros H Hc. unfold effectiveTopic. rewrite H.
    destruct (contextSources s); [contradiction | reflexivity]. }
  split; [| split; [| split; [| split; [| split; [| split]]]]].
  - intros H. unfold contextData. rewrite H. reflexivity.
  - intros H. unfold contextData.
    destruct (contextSources s) as [|x l] eqn:E; [contradiction |].
    eexists. split; [reflexivity |]. split; [| reflexivity].
    cbn [describeSources]. apply join_not_empty.
    destruct (ContextSource.type x); discriminate.
  - apply describeSources_length.
  - intros k source H. rewrite (describeSources_nth _ 0 _ H).
    rewrite N.add_0_l. reflexivity.
  - exact H1.
  - exact H2.
  - intros [_ Ha]. destruct (trim (topic s)) as [|c r] eqn:E.
    + destruct Ha as [Ha | Ha]; [contradiction |].
      rewrite (H2 eq_refl Ha). discriminate.
    + rewrite H1 by discriminate. discriminate.
Qed.

End Context.

(** ** The other handlers of the component *)

Section Handlers.
Variable world : Oracle.

Ltac run_monad :=
  cbv beta iota zeta
    delta [tryCatch tryFinally bind await emit ret throw liftCompletion update
             store trace fst snd
             setIsLoading setIsSyncing setLoadingMessage setLoadingStep
             setLoadingFacts setError setImageHistory setActiveImageId
             setCurrentSearchResults setHasApiKey
             setTopic setContextSources setShowContextOptions setShowUrlInput
             setUrlInputValue setCheckingKey setShowStorageModal
             setStorageStatus].

Ltac fields :=
  cbn [topic activeImageId complexityLevel visualStyle language aspectRatio
       resolution isLoading isSyncing loadingMessage loadingStep loadingFacts
       error imageHistory currentSearchResults isDarkMode showStorageModal
       storageStatus contextSources showContextOptions showUrlInput
       urlInputValue hasApiKey checkingKey
       withIsLoading withIsSyncing withLoadingMessage withLoadingStep
       withLoadingFacts withError withImageHistory withActiveImageId
       withCurrentSearchResults withHasApiKey
       withTopic withContextSources withShowContextOptions withShowUrlInput
       withUrlInputValue withCheckingKey withShowStorageModal
       withStorageStatus].

Lemma findImage_None_edit (s : AppState) (editPrompt : jsstring)
  (w : World AppState) :
  activeImageId s = JNull ->
  handleEdit world s editPrompt w = (Returned tt, w).
Proof. intros H. unfold handleEdit. rewrite H. reflexivity. Qed.

(** X18.  [handleNewSession] empties the topic, the context sources, the
    citations, the facts, the error and the loading message and step, and
    deselects the active image.  It makes no request, and it keeps the
    history, the settings of the form, the key flag and the loading and
    syncing flags (a cycle in flight goes on).  Afterwards no image is on
    display, an edit does nothing, and a submit is turned down for want of
    a topic. *)
Theorem handleNewSession_resets_the_form (w : World AppState) :
  exists s',
    handleNewSession w = (Returned tt, {| store := s'; trace := trace w |}) /\
    (topic s' = [] /\ contextSources s' = [] /\ activeImageId s' = JNull /\
     currentSearchResults s' = [] /\ error s' = JNull /\
     loadingFacts s' = [] /\ loadingStep s' = 0%N /\ loadingMessage s' = []) /\
    (imageHistory s' = imageHistory (store w) /\
     isLoading s' = isLoading (store w) /\
     isSyncing s' = isSyncing (store w) /\
     hasApiKey s' = hasApiKey (store w) /\
     complexityLevel s' = complexityLevel (store w) /\
     visualStyle s' = visualStyle (store w) /\
     language s' = language (store w) /\
     aspectRatio s' = aspectRatio (store w) /\
     resolution s' = resolution (store w) /\
     storageStatus s' = storageStatus (store w)) /\
    activeImage s' = None /\
    onEdit (render world s') = None /\
    (forall editPrompt w', handleEdit world s' editPrompt w' = (Returned tt, w')) /\
    (isLoading (store w) = false ->
     forall t,
       handleGenerate world s' {| store := s'; trace := t |}
       = (Returned tt,
          {| store := withError (JStr validationError) s'; trace := t |})).
Proof.
  destruct w as [s t]. unfold handleNewSession. run_monad.
  eexists. split; [reflexivity |]. fields.
  split; [repeat split |]. split; [repeat split |].
  assert (forall h, findImage h JNull = None) as Hnone.
  { intros h. unfold findImage. induction h as [|x h IH]; [reflexivity |].
    cbn [find strictEq]. exact IH. }
  split; [unfold activeImage; fields; apply Hnone |].
  split.
  { unfold render, activeImage. cbn [onEdit]. fields. rewrite Hnone.
    reflexivity. }
  split.
  { intros p w'. apply findImage_None_edit. reflexivity. }
  intros Hl u. unfold handleGenerate. fields. rewrite Hl. reflexivity.
Qed.

Lemma findImage_In (history : list GeneratedImage.t) (img : GeneratedImage.t) :
  In img history ->
  exists current,
    findImage history (JStr (GeneratedImage.id img)) = Some current /\
    GeneratedImage.id current = GeneratedImage.id img /\
    In current history /\
    (NoDup (List.map GeneratedImage.id history) -> current = img).
Proof.
  unfold findImage. induction history as [|x h IH]; [intros [] |].
  intros Hin. cbn [find strictEq].
  destruct (streqb (GeneratedImage.id x) (GeneratedImage.id img)) eqn:E.
  - apply streqb_eq in E. exists x. split; [reflexivity |].
    split; [exact E |]. split; [left; reflexivity |].
    intros Hnd. destruct Hin as [-> | Hin]; [reflexivity |].
    cbn [List.map] in Hnd. inversion Hnd as [| ? ? Hnot _]; subst.
    exfalso. apply Hnot. rewrite E. apply in_map. exact Hin.
  - destruct Hin as [-> | Hin].
    + rewrite streqb_refl in E. discriminate.
    + destruct (IH Hin) as [cur [H1 [H2 [H3 H4]]]].
      exists cur. split; [exact H1 |]. split; [exact H2 |].
      split; [right; exact H3 |].
      intros Hnd. apply H4. cbn [List.map] in Hnd.
      inversion Hnd; assumption.
Qed.

(** X19.  A click on a thumbnail of the archive makes that image the one
    on display: the active image becomes the first entry of the history
    that has the identifier of the thumbnail, which is the thumbnail's own
    image when the identifiers of the history are distinct.  Nothing else
    changes and nothing is requested.  The image can then be edited: the
    edit control is rendered unless a cycle is in flight, and an edit gets
    past its guards when the identifier is not the empty string. *)
Theorem selectArchived_shows_the_image
  (w : World AppState) (img : GeneratedImage.t) :
  In img (imageHistory (store w)) ->
  exists current,
    selectArchived img w
    = (Returned tt,
       {| store := withActiveImageId (JStr (GeneratedImage.id img)) (store w);
          trace := trace w |}) /\
    let s' := withActiveImageId (JStr (GeneratedImage.id img)) (store w) in
    activeImage s' = Some current /\
    GeneratedImage.id current = GeneratedImage.id img /\
    (NoDup (List.map GeneratedImage.id (imageHistory (store w))) ->
     current = img) /\
    imageHistory s' = imageHistory (store w) /\
    error s' = error (store w) /\
    (isLoading (store w) = false ->
     onEdit (render world s') = Some (handleEdit world s')) /\
    (GeneratedImage.id img <> [] -> editAccepted s' current).
Proof.
  intros Hin. destruct (findImage_In _ _ Hin) as [cur [H1 [H2 [_ H4]]]].
  exists cur. split; [reflexivity |]. cbv zeta.
  unfold activeImage, editAccepted, render. cbn [onEdit]. fields.
  unfold activeImage. fields. rewrite H1.
  repeat split; try assumption.
  - intros ->. reflexivity.
  - destruct (GeneratedImage.id img); [contradiction | reflexivity].
Qed.

Lemma filter_fresh (sources : list ContextSource.t) (id : jsstring) :
  ~ In id (List.map ContextSource.id sources) ->
  filter (fun source => negb (streqb (ContextSource.id source) id)) sources
  = sources.
Proof.
  induction sources as [|x l IH]; [reflexivity |].
  cbn [List.map In filter]. intros H.
  destruct (streqb (ContextSource.id x) id) eqn:E.
  - apply streqb_eq in E. exfalso. apply H. left. exact E.
  - cbn [negb]. rewrite IH by tauto. reflexivity.
Qed.

(** X20.  [handleUrlSubmit] ignores an address that is empty or blank:
    nothing changes.  Any other address is added, as typed, at the end of
    the context sources, with the address for its name and its content; the
    input is emptied, both dialogs close and the error is cleared.  From
    then on a submit is not turned down for want of a topic.
    [removeContextSource] drops every source that has the identifier given
    and keeps the others in their order; so adding a source and removing it
    again restores the list, provided its identifier was not in use. *)
Theorem url_sources_are_added_and_removed
  (w : World AppState) (randomId : jsstring) :
  let s := store w in
  let added :=
    ContextSource.Build randomId ContextSource.url (urlInputValue s)
      (urlInputValue s) in
  (trim (urlInputValue s) = [] ->
   handleUrlSubmit s randomId w = (Returned tt, w)) /\
  (trim (urlInputValue s) <> [] ->
   exists s',
     handleUrlSubmit s randomId w
     = (Returned tt, {| store := s'; trace := trace w |}) /\
     contextSources s' = contextSources s ++ [added] /\
     urlInputValue s' = [] /\ showUrlInput s' = false /\
     showContextOptions s' = false /\ error s' = JNull /\
     topic s' = topic s /\ imageHistory s' = imageHistory s /\
     (isLoading s = false -> generateAccepted s') /\
     (~ In randomId (List.map ContextSource.id (contextSources s)) ->
      contextSources
        (store (snd (removeContextSource randomId
                       {| store := s'; trace := trace w |})))
      = contextSources s)) /\
  (forall id,
      exists s',
        removeContextSource id w
        = (Returned tt, {| store := s'; trace := trace w |}) /\
        contextSources s'
        = filter (fun source => negb (streqb (ContextSource.id source) id))
            (contextSources s) /\
        (forall source,
            In source (contextSources s') <->
            In source (contextSources s) /\ ContextSource.id source <> id) /\
        topic s' = topic s /\ error s' = error s).
Proof.
  destruct w as [s t]. cbv zeta. cbn [store trace].
  split; [| split].
  - intros H. unfold handleUrlSubmit. rewrite H. reflexivity.
  - intros H. unfold handleUrlSubmit.
    destruct (trim (urlInputValue s)) as [|c r] eqn:E; [contradiction |].
    cbn [nonEmpty negb]. run_monad. eexists. split; [reflexivity |]. fields.
    do 7 (split; [reflexivity |]). split.
    + intros Hl. unfold generateAccepted. fields.
      split; [exact Hl |]. right. destruct (contextSources s); discriminate.
    + intros Hfresh. unfold removeContextSource. run_monad. fields.
      rewrite filter_app, (filter_fresh _ _ Hfresh). cbn [filter].
      cbn [ContextSource.id]. rewrite streqb_refl. cbn [negb].
      apply app_nil_r.
  - intros id. unfold removeContextSource. run_monad.
    eexists. split; [reflexivity |]. fields.
    split; [reflexivity |]. split; [| split; reflexivity].
    intros source. rewrite filter_In, negb_true_iff, streqb_neq. tauto.
Qed.

Lemma find_first (A : Type) (f : A -> bool) (pre post : list A) (x : A) :
  (forall y, In y pre -> f y = false) -> f x = true ->
  find f (pre ++ x :: post) = Some x.
Proof.
  intros Hpre Hx. induction pre as [|y pre IH]; simpl.
  - rewrite Hx. reflexivity.
  - rewrite (Hpre y (or_introl eq_refl)). apply IH.
    intros z Hz. apply Hpre. right. exact Hz.
Qed.

Lemma find_none_all (A : Type) (f : A -> bool) (l : list A) :
  (forall y, In y l -> f y = false) -> find f l = None.
Proof.
  intros H. induction l as [|y l IH]; [reflexivity |]. simpl.
  rewrite (H y (or_introl eq_refl)). apply IH.
  intros z Hz. apply H. right. exact Hz.
Qed.

(** X21.  [handleFileUpload] accepts a selection only as a whole.  When
    one of the files is larger than 1 MB (1048576 bytes; a file of exactly
    that size passes) no file is read, not even the smaller ones, and the
    error names the first file that is too large.  Otherwise the reading of
    every file is started, in the order of the selection, the error is
    cleared and the options close.  An empty selection, or none, does
    nothing.  In no case does the handler itself touch the context
    sources: each file joins them, at the end, when its reading completes,
    under its name and with the text read. *)
Theorem handleFileUpload_size_limit
  (files : option (list File)) (w : World AppState) :
  exists started s',
    handleFileUpload files w
    = (Returned started, {| store := s'; trace := trace w |}) /\
    contextSources s' = contextSources (store w) /\
    (files = None \/ files = Some [] -> started = [] /\ s' = store w) /\
    (forall selection,
        files = Some selection -> selection <> [] ->
        (forall file, In file selection ->
           (file_size file <= 1048576)%N) ->
        started = selection /\ error s' = JNull /\
        showContextOptions s' = false) /\
    (forall pre file post,
        files = Some (pre ++ file :: post) ->
        (forall f, In f pre -> (file_size f <= 1048576)%N) ->
        (1048576 < file_size file)%N ->
        started = [] /\
        error s' = JStr (tooLarge (file_name file)) /\
        showContextOptions s' = showContextOptions (store w)) /\
    (forall file content randomId,
        contextSources (store (snd (onload file content randomId w)))
        = contextSources (store w)
          ++ [ContextSource.Build randomId ContextSource.file
                (file_name file) content]).
Proof.
  destruct w as [s t]. cbn [store trace].
  assert (forall file content randomId,
             contextSources
               (store (snd (onload file content randomId
                              {| store := s; trace := t |})))
             = contextSources s
               ++ [ContextSource.Build randomId ContextSource.file
                     (file_name file) content]) as Hload
    by (intros; reflexivity).
  unfold handleFileUpload.
  destruct files as [[|f0 l] |].
  - exists [], s. split; [reflexivity |]. split; [reflexivity |].
    split; [intros _; split; reflexivity |].
    split; [| split; [| exact Hload]].
    + intros sel E Hne. inversion E; subst. contradiction.
    + intros pre file post E. destruct pre; discriminate.
  - destruct (find (fun file => (1024 * 1024 <? file_size file)%N) (f0 :: l))
      as [big |] eqn:Hfind; run_monad.
    + eexists [], _. split; [reflexivity |]. fields.
      split; [reflexivity |]. split; [intros [H | H]; discriminate |].
      split; [| split; [| exact Hload]].
      * intros sel E Hne Hall. inversion E; subst sel.
        apply find_some in Hfind. destruct Hfind as [Hin Hbig].
        apply N.ltb_lt in Hbig. specialize (Hall _ Hin).
        change (1024 * 1024)%N with 1048576%N in Hbig. lia.
      * intros pre file post E Hpre Hbig. inversion E as [E'].
        rewrite E' in Hfind. rewrite find_first in Hfind.
        -- inversion Hfind; subst. repeat split.
        -- intros y Hy. apply N.ltb_ge. apply (Hpre y Hy).
        -- apply N.ltb_lt. exact Hbig.
    + eexists (f0 :: l), _. split; [reflexivity |]. fields.
      split; [reflexivity |]. split; [intros [H | H]; discriminate |].
      split; [| split; [| exact Hload]].
      * intros sel E _ _. inversion E; subst. repeat split.
      * intros pre file post E Hpre Hbig. inversion E as [E'].
        rewrite E' in Hfind. rewrite find_first in Hfind; [discriminate | |].
        -- intros y Hy. apply N.ltb_ge. apply (Hpre y Hy).
        -- apply N.ltb_lt. exact Hbig.
  - exists [], s. split; [reflexivity |]. split; [reflexivity |].
    split; [intros _; split; reflexivity |].
    split; [| split; [| exact Hload]].
    + intros sel E. discriminate.
    + intros pre file post E. discriminate.
Qed.

End Handlers.

(** ** The API key *)

Section ApiKey.
Variable world : Oracle.

Ltac run_monad :=
  cbv beta iota zeta
    delta [tryCatch tryFinally bind await emit ret throw liftCompletion update
             store trace fst snd setError setHasApiKey setCheckingKey].

Ltac fields :=
  cbn [topic activeImageId complexityLevel visualStyle language aspectRatio
       resolution isLoading isSyncing loadingMessage loadingStep loadingFacts
       error imageHistory currentSearchResults isDarkMode showStorageModal
       storageStatus contextSources showContextOptions showUrlInput
       urlInputValue hasApiKey checkingKey
       withError withHasApiKey withCheckingKey].

(** X22.  The check of the API key at start-up always ends with the
    checking flag off, and never throws.  Outside AI Studio, or when AI
    Studio has no such method, the key is taken to be there; otherwise the
    key flag is what AI Studio answers, and when the question fails the
    failure is logged and the flag stays as it was.  [handleSelectKey] does
    nothing when there is no key selector.  When the selector completes,
    the key flag goes on and the error is cleared, so the key dialog is
    not shown; when it fails, the failure is logged and nothing changes. *)
Theorem api_key_is_checked_and_selected
  (aistudio : option AiStudio) (w : World AppState) :
  (exists s' evs,
      checkKey aistudio w
      = (Returned tt, {| store := s'; trace := trace w ++ evs |}) /\
      checkingKey s' = false /\
      keyModalShown s' = negb (hasApiKey s') /\
      hasApiKey s'
      = match aistudio with
        | Some a =>
            match hasSelectedApiKey a with
            | Some (Returned hasKey) => hasKey
            | Some (Threw _) => hasApiKey (store w)
            | None => true
            end
        | None => true
        end /\
      (forall a e,
          aistudio = Some a -> hasSelectedApiKey a = Some (Threw e) ->
          evs = [ConsoleError (lit "Error checking API key:") (Some e)]) /\
      imageHistory s' = imageHistory (store w) /\
      error s' = error (store w)) /\
  (aistudio = None \/
   (exists a, aistudio = Some a /\ openSelectKey a = None) ->
   handleSelectKey aistudio w = (Returned tt, w)) /\
  (forall a,
      aistudio = Some a -> openSelectKey a = Some (Returned tt) ->
      exists s',
        handleSelectKey aistudio w
        = (Returned tt, {| store := s'; trace := trace w |}) /\
        hasApiKey s' = true /\ error s' = JNull /\
        keyModalShown s' = false /\
        imageHistory s' = imageHistory (store w) /\
        activeImageId s' = activeImageId (store w) /\
        topic s' = topic (store w)) /\
  (forall a e,
      aistudio = Some a -> openSelectKey a = Some (Threw e) ->
      handleSelectKey aistudio w
      = (Returned tt,
         {| store := store w;
            trace := trace w
                     ++ [ConsoleError (lit "Failed to open key selector:")
                           (Some e)] |})).
Proof.
  destruct w as [s t]. cbn [store trace].
  split; [| split; [| split]].
  - unfold checkKey, keyModalShown.
    destruct aistudio as [[[[hasKey | e] |] sel] |]; run_monad;
      cbn [hasSelectedApiKey]; run_monad.
    + exists (withCheckingKey false (withHasApiKey hasKey s)), [].
      rewrite app_nil_r. fields. repeat split; try reflexivity.
      intros a e Ea Eh. inversion Ea; subst. discriminate.
    + eexists (withCheckingKey false s), [_]. fields.
      repeat split; try reflexivity.
      intros a e' Ea Eh. inversion Ea; subst. cbn in Eh.
      inversion Eh; subst. reflexivity.
    + exists (withCheckingKey false (withHasApiKey true s)), [].
      rewrite app_nil_r. fields. repeat split; try reflexivity.
      intros a e Ea Eh. inversion Ea; subst. discriminate.
    + exists (withCheckingKey false (withHasApiKey true s)), [].
      rewrite app_nil_r. fields. repeat split; try reflexivity.
      intros a e Ea. discriminate.
  - intros [-> | [a [-> H]]]; unfold handleSelectKey;
      [reflexivity | rewrite H; reflexivity].
  - intros a -> H. unfold handleSelectKey, keyModalShown. rewrite H.
    run_monad. eexists. split; [reflexivity |]. fields.
    rewrite andb_false_r. repeat split.
  - intros a e -> H. unfold handleSelectKey. rewrite H. run_monad.
    reflexivity.
Qed.

(** X23.  After a cycle has failed, the error block offers the selection
    of another key exactly when the failure was classified as an access
    failure: the two access-denied messages hold the words the block looks
    for, and the two generic messages do not.  It is not offered with the
    validation message of a submit without a topic. *)
Theorem key_selection_is_offered_after_access_failures
  (w : World AppState) (e : jserror) :
  (generateAccepted (store w) ->
   generateOutcome world w = Threw e ->
   offersKeySelection (store (invoke (handleGenerate world) w))
   = isAccessError e) /\
  (forall editPrompt current,
      editAccepted (store w) current ->
      editOutcome world w current editPrompt = Threw e ->
      offersKeySelection
        (store (invoke (fun s => handleEdit world s editPrompt) w))
      = isAccessError e) /\
  (isLoading (store w) = false ->
   trim (topic (store w)) = [] -> contextSources (store w) = [] ->
   error (store (invoke (handleGenerate world) w)) = JStr validationError /\
   offersKeySelection (store (invoke (handleGenerate world) w)) = false).
Proof.
  split; [| split].
  - intros Ha Ho.
    destruct (@handleGenerate_failure world w e Ha Ho)
      as [_ [_ [_ [_ [H _]]]]].
    cbv zeta in H. unfold offersKeySelection. rewrite H.
    destruct (isAccessError e); reflexivity.
  - intros p current Ha Ho.
    destruct (@handleEdit_failure world w p current e Ha Ho)
      as [_ [_ [_ [_ [H _]]]]].
    cbv zeta in H. unfold offersKeySelection. rewrite H.
    destruct (isAccessError e); reflexivity.
  - intros Hl Ht Hc. destruct w as [s t]. cbn [store trace] in *.
    unfold invoke, handleGenerate. cbn [store]. rewrite Hl, Ht, Hc.
    split; reflexivity.
Qed.

End ApiKey.

(** ** The browser storage: the saved history and the storage settings *)

Section Storage.

Ltac run_monad :=
  cbv beta iota zeta
    delta [bind update ret store trace fst snd handleClearHistory handleSave
             afterSave onClose clearOverrides].

Ltac fields :=
  cbn [app infogenius_history_v1 settings saved
       withApp withHistoryItem withSettings withSaved
       GCS_BUCKET_NAME GCS_ACCESS_TOKEN GCS_CREDENTIALS gcs_bucket_override
       gcs_token_override withBucketOverride withTokenOverride
       topic activeImageId isLoading error imageHistory currentSearchResults
       showStorageModal storageStatus contextSources
       withImageHistory withActiveImageId withCurrentSearchResults
       withShowStorageModal withStorageStatus].

(** X24.  [handleClearHistory] asks first.  When the answer is no, nothing
    changes: no state cell, nothing in the browser storage.  When it is yes,
    the history and the citations become empty and no image is active; the
    handler removes the saved history from the browser storage, and the save
    effect of the render that follows writes it again, as the serialisation
    of the empty history.  The topic, the context sources, the error, the
    loading flag and the storage settings stay.  No request is made either
    way. *)
Theorem handleClearHistory_asks_first
  (stringify : list GeneratedImage.t -> jsstring)
  (confirmed : bool) (w : World Page) :
  let handled := snd (handleClearHistory confirmed w) in
  let rendered := snd (clearHistory stringify confirmed w) in
  fst (clearHistory stringify confirmed w) = Returned tt /\
  trace rendered = trace w /\
  (confirmed = false -> rendered = w) /\
  (confirmed = true ->
   imageHistory (app (store rendered)) = [] /\
   activeImageId (app (store rendered)) = JNull /\
   currentSearchResults (app (store rendered)) = [] /\
   activeImage (app (store rendered)) = None /\
   infogenius_history_v1 (store handled) = JNull /\
   infogenius_history_v1 (store rendered) = JStr (stringify []) /\
   topic (app (store rendered)) = topic (app (store w)) /\
   contextSources (app (store rendered)) = contextSources (app (store w)) /\
   error (app (store rendered)) = error (app (store w)) /\
   isLoading (app (store rendered)) = isLoading (app (store w)) /\
   settings (store rendered) = settings (store w)).
Proof.
  destruct w as [p t]. cbv zeta. destruct confirmed.
  - split; [reflexivity |]. split; [reflexivity |].
    split; [discriminate |]. intros _. repeat split.
  - split; [reflexivity |]. split; [reflexivity |].
    split; [reflexivity | discriminate].
Qed.

Lemma jsor_falsy (a b : jsval) : truthy a = false -> jsor a b = b.
Proof. intros H. unfold jsor. rewrite H. reflexivity. Qed.

(** The configuration depends on an override only through its being
    truthy, and through its value when it is. *)
Lemma getGCSConfig_normal (e : Environment) :
  getGCSConfig e
  = getGCSConfig
      (withTokenOverride
         (if truthy (gcs_token_override e) then gcs_token_override e
          else JNull)
         (withBucketOverride
            (if truthy (gcs_bucket_override e) then gcs_bucket_override e
             else JNull) e)).
Proof.
  unfold getGCSConfig, withTokenOverride, withBucketOverride. fields.
  destruct (gcs_bucket_override e) as [| | [|? ?]],
    (gcs_token_override e) as [| | [|? ?]];
    cbn [truthy]; unfold jsor; cbn [truthy]; reflexivity.
Qed.

(** X25.  The settings dialog.  [handleSave] stores each field that is not
    empty as an override and removes the override of a field left empty; it
    touches no environment variable.  When the dialog closes afterwards the
    status shown is the configuration the uploader will resolve.  With both
    fields filled in, that configuration is the entered bucket and token,
    from the manual source, whatever the environment holds.  With both left
    empty it is what the environment alone gives, the same as after
    [Clear Overrides].  Saving the dialog as it opened, with nothing
    edited, leaves the resolved configuration as it was. *)
Theorem settings_dialog_saves_the_overrides
  (bucketInput tokenInput : jsstring) (w : World Page) :
  let e := settings (store w) in
  let w1 := snd (handleSave bucketInput tokenInput w) in
  let w2 := snd (afterSave w1) in
  let e' := settings (store w2) in
  let cleared := settings (store (snd (clearOverrides w))) in
  fst (handleSave bucketInput tokenInput w) = Returned tt /\
  fst (afterSave w1) = Returned tt /\
  trace w2 = trace w /\
  saved (store w1) = true /\ saved (store w2) = false /\
  gcs_bucket_override e'
  = (if truthy (JStr bucketInput) then JStr bucketInput else JNull) /\
  gcs_token_override e'
  = (if truthy (JStr tokenInput) then JStr tokenInput else JNull) /\
  GCS_BUCKET_NAME e' = GCS_BUCKET_NAME e /\
  GCS_ACCESS_TOKEN e' = GCS_ACCESS_TOKEN e /\
  GCS_CREDENTIALS e' = GCS_CREDENTIALS e /\
  showStorageModal (app (store w2)) = false /\
  storageStatus (app (store w2)) = getGCSConfig e' /\
  imageHistory (app (store w2)) = imageHistory (app (store w)) /\
  (bucketInput <> [] -> tokenInput <> [] ->
   getGCSConfig e'
   = {| bucket := JStr bucketInput; token := JStr tokenInput;
        isConfigured := true; source := manual |}) /\
  (bucketInput = [] -> tokenInput = [] ->
   e' = cleared /\
   gcs_bucket_override e' = JNull /\ gcs_token_override e' = JNull /\
   source (getGCSConfig e') <> manual /\
   storageStatus (app (store (snd (clearOverrides w))))
   = getGCSConfig cleared) /\
  (bucketInput = inputOf (gcs_bucket_override e) ->
   tokenInput = inputOf (gcs_token_override e) ->
   getGCSConfig e' = getGCSConfig e).
Proof.
  destruct w as [p t]. cbv zeta. cbn [store trace].
  unfold handleSave, afterSave, onClose, clearOverrides.
  do 13 (split; [destruct bucketInput, tokenInput; reflexivity |]).
  split; [| split].
  - intros Hb Ht. destruct bucketInput; [contradiction |].
    destruct tokenInput; [contradiction |]. reflexivity.
  - intros -> ->. run_monad. fields.
    split; [reflexivity |]. split; [reflexivity |]. split; [reflexivity |].
    split; [| reflexivity].
    unfold getGCSConfig. simpl.
    destruct (truthy _); discriminate.
  - intros -> ->. run_monad. fields.
    rewrite (getGCSConfig_normal (settings p)). unfold inputOf.
    destruct (gcs_bucket_override (settings p)) as [| | [|? ?]],
      (gcs_token_override (settings p)) as [| | [|? ?]]; reflexivity.
Qed.

End Storage.

(** ** Sessions: what every reachable state satisfies *)

From Stdlib Require DecimalPos.

Section Sessions.
Variable world : Oracle.

Ltac run_monad :=
  cbv beta iota zeta
    delta [tryCatch tryFinally bind await emit ret throw liftCompletion update
             store trace fst snd
             setIsLoading setIsSyncing setLoadingMessage setLoadingStep
             setLoadingFacts setError setImageHistory setActiveImageId
             setCurrentSearchResults setHasApiKey
             setTopic setContextSources setShowContextOptions setShowUrlInput
             setUrlInputValue setCheckingKey setShowStorageModal
             setStorageStatus].



Variable stringify : list GeneratedImage.t -> jsstring.
Variable parse : jsstring -> completion (list GeneratedImage.t).




End Sessions.

(** ** The two revisions of the uploader *)

Section Revisions.
Variable S : Type.
Variable world : Oracle.

(** X27.  With no override in the browser storage, the uploader and its
    earlier, environment-only revision make the same requests, in every
    world: none without a bucket and a token in the environment, and
    otherwise the same read of the image followed by the same upload
    request.  The earlier revision logs a failure exactly when the current
    one returns [false] in a configured environment. *)
Theorem uploader_revisions_make_the_same_requests
  (e : Environment) (base64Data id : jsstring) (w : World S) :
  truthy (gcs_bucket_override e) = false ->
  truthy (gcs_token_override e) = false ->
  exists result evs evs',
    StorageService.uploadToGCS world e base64Data id w
    = (Returned result, {| store := store w; trace := trace w ++ evs |}) /\
    StorageServiceEnvOnly.uploadToGCS world e base64Data id w
    = (Returned tt, {| store := store w; trace := trace w ++ evs' |}) /\
    filter isRequest evs = filter isRequest evs' /\
    (isConfigured (getGCSConfig e) = true ->
     (result = false <-> failureLogged evs')).
Proof.
  intros Hb Ht.
  destruct (uploadToGCS_behaviour world e base64Data id w)
    as [result [evs [Hrun [Hoff Hon]]]].
  destruct (uploadToGCS_env_only_behaviour world e base64Data id w)
    as [evs' [Hrun' [Hoff' Hon']]].
  exists result, evs, evs'. split; [exact Hrun |]. split; [exact Hrun' |].
  assert (jsor (gcs_bucket_override e) (GCS_BUCKET_NAME e)
          = GCS_BUCKET_NAME e) as Eb by (unfold jsor; rewrite Hb; reflexivity).
  assert (jsor (gcs_token_override e) (envToken e) = envToken e) as Et
    by (unfold jsor; rewrite Ht; reflexivity).
  assert (isConfigured (getGCSConfig e)
          = truthy (GCS_BUCKET_NAME e) && truthy (envToken e)) as Ec.
  { unfold getGCSConfig. cbn [isConfigured]. fold (envToken e).
    rewrite Eb, Et. reflexivity. }
  destruct (isConfigured (getGCSConfig e)) eqn:Hc.
  - symmetry in Ec. apply andb_true_iff in Ec. destruct Ec as [Tb Tt].
    assert (bucket (getGCSConfig e) = GCS_BUCKET_NAME e) as Ebucket.
    { unfold getGCSConfig. cbn [bucket]. rewrite Eb. unfold jsor.
      rewrite Tb. reflexivity. }
    assert (token (getGCSConfig e) = envToken e) as Etoken.
    { unfold getGCSConfig. cbn [token]. fold (envToken e). rewrite Et.
      unfold jsor at 1. rewrite Tt. reflexivity. }
    rewrite Ebucket, Etoken in Hon.
    assert (present (GCS_BUCKET_NAME e) /\ present (envToken e)) as Hp
      by (split; apply truthy_present; assumption).
    destruct (Hon eq_refl) as [_ [Hthrow [Hsent [Htrue Hfalse]]]].
    destruct (Hon' Hp) as [_ [Hthrow' [Hsent' Hlog']]].
    split.
    + destruct (fetchBlob world (trace w) base64Data) as [blob | err] eqn:E.
      * destruct (Hsent blob eq_refl) as [_ [rest [-> Hrest]]].
        destruct (Hsent' blob eq_refl) as [_ [rest' [-> Hrest']]].
        cbn [filter isRequest]. rewrite Hrest, Hrest'. reflexivity.
      * rewrite (Hthrow err eq_refl), (Hthrow' err eq_refl). reflexivity.
    + intros _. rewrite Hlog'. rewrite <- Htrue.
      destruct result; split; try discriminate; congruence.
  - split; [| discriminate].
    destruct (Hoff eq_refl) as [_ ->]. symmetry. apply Hoff'.
    intros [Pb Pt]. apply truthy_present in Pb, Pt.
    rewrite Pb, Pt in Ec. discriminate.
Qed.

End Revisions.

(** ** Examples for the further properties *)

Section MoreExamples.

Import Samples Scenarios.

Lemma mimeType_reads_the_data_uri_witness :
  mimeType (lit "data:image/jpeg;base64,/9j/4AAQ") = lit "image/jpeg" /\
  mimeType (lit "data:image/png,AAAA") = lit "image/png".
Proof.
  split.
  - apply (proj1 (mimeType_reads_the_data_uri
                    (lit "data:image/jpeg;base64,/9j/4AAQ"))
             (lit "image/jpeg") (lit "/9j/4AAQ")).
    + vm_compute. discriminate.
    + vm_compute. intuition discriminate.
    + reflexivity.
  - reflexivity.
Defined.

Lemma image_results_are_png_data_uris_witness :
  exists payload,
    payload <> [] /\
    lit "data:image/png;base64,iVBORw0KGgo=" = pngDataUri payload /\
    mimeType (lit "data:image/png;base64,iVBORw0KGgo=") = lit "image/png" /\
    forall instruction,
      req_parts
        (editRequest (lit "data:image/png;base64,iVBORw0KGgo=") instruction)
      = [InlineData (JStr (lit "image/jpeg")) (JStr payload);
         TextPart instruction].
Proof.
  apply (@image_results_are_png_data_uris AppState world typed
           (lit "data:image/png;base64,iVBORw0KGgo=")).
  left. exists (lit "A leaf in cross-section."), (lit "16:9"), (lit "1K").
  reflexivity.
Defined.

(** The first part with bytes is taken, whatever type it declares. *)
Lemma generateInfographicImage_takes_first_image_witness :
  let jpegWorld :=
    {| fetchBlob := fetchBlob world;
       fetchUpload := fetchUpload world;
       generateContent := fun _ _ => Returned mislabelledResponse;
       clock := clock world |} in
  fst (generateInfographicImage jpegWorld (lit "A leaf") (lit "16:9")
         (lit "1K") typed)
  = Returned (lit "data:image/png;base64,/9j/4AAQ").
Proof.
  cbv zeta.
  destruct (generateInfographicImage_takes_first_image
              {| fetchBlob := fetchBlob world;
                 fetchUpload := fetchUpload world;
                 generateContent := fun _ _ => Returned mislabelledResponse;
                 clock := clock world |}
              (lit "A leaf") (lit "16:9") (lit "1K") typed)
    as [_ [_ [_ [H _]]]].
  rewrite (H mislabelledResponse
             [TextPart (lit "Here is your image.");
              InlineData (JStr (lit "image/png")) (JStr [])]
             (JStr (lit "image/jpeg")) (lit "/9j/4AAQ")
             [InlineData (JStr (lit "image/png")) (JStr (lit "iVBORw0KGgo="))]
             eq_refl eq_refl).
  - reflexivity.
  - vm_compute. discriminate.
  - reflexivity.
Defined.

Lemma researchTopicForPrompt_image_prompt_witness :
  exists r w',
    researchTopicForPrompt world photosynthesis highSchool defaultStyle
      english JNull typed = (Returned r, w') /\
    ResearchResult.imagePrompt r = lit "A leaf in cross-section.".
Proof.
  destruct (@researchTopicForPrompt_image_prompt AppState world
              photosynthesis highSchool defaultStyle english JNull typed
              researchResponse
              (firstn (List.length researchText - 41) researchText)
              (lit "Image_Prompt:")
              (nl ++ lit "  A leaf in cross-section. ") eq_refl)
    as [r [w' [Hrun [Hprompt _]]]].
  - vm_compute. reflexivity.
  - vm_compute. repeat constructor.
  - apply searchAfter_ci_None. vm_compute. reflexivity.
  - exists r, w'. split; [exact Hrun |]. rewrite Hprompt.
    vm_compute. reflexivity.
Defined.

Lemma researchTopicForPrompt_without_facts_witness :
  exists r w',
    researchTopicForPrompt silentWorld photosynthesis highSchool defaultStyle
      english JNull typed = (Returned r, w') /\
    ResearchResult.facts r = [] /\
    ResearchResult.searchResults r = [] /\
    ResearchResult.imagePrompt r
    = lit "Create a detailed infographic about Photosynthesis. "
      ++ getLevelInstruction highSchool ++ lit " "
      ++ getStyleInstruction defaultStyle.
Proof.
  destruct (@researchTopicForPrompt_without_facts AppState silentWorld
              photosynthesis highSchool defaultStyle english JNull typed
              emptyResponse eq_refl)
    as [r [w' [Hrun [_ Hnone]]]].
  destruct (Hnone eq_refl) as [Hfacts Hprompt].
  exists r, w'. split; [exact Hrun |]. split; [exact Hfacts |].
  split; [| exact Hprompt].
  inversion Hrun. reflexivity.
Defined.

Lemma researchTopicForPrompt_facts_are_trimmed_witness :
  exists r w',
    researchTopicForPrompt world photosynthesis highSchool defaultStyle
      english JNull typed = (Returned r, w') /\
    In (lit "Chlorophyll is green") (ResearchResult.facts r) /\
    forall f, In f (ResearchResult.facts r) -> trimmedNoLineFeed f /\ f <> [].
Proof.
  destruct (@researchTopicForPrompt_facts_are_trimmed AppState world
              photosynthesis highSchool defaultStyle english JNull typed
              researchResponse eq_refl)
    as [r [w' [Hrun Hlines]]].
  exists r, w'. split; [exact Hrun |]. split; [| exact Hlines].
  inversion Hrun. vm_compute. auto.
Defined.

Lemma researchTopicForPrompt_citations_come_from_chunks_witness :
  exists r w',
    researchTopicForPrompt world photosynthesis highSchool defaultStyle
      english JNull typed = (Returned r, w') /\
    In pageB (urls (ResearchResult.searchResults r)) /\
    forall item,
      In item (ResearchResult.searchResults r) ->
      exists cs chunk,
        resp_groundingChunks researchResponse = Some cs /\
        In chunk cs /\ cites chunk item.
Proof.
  destruct (@researchTopicForPrompt_citations_come_from_chunks AppState world
              photosynthesis highSchool defaultStyle english JNull typed
              researchResponse eq_refl)
    as [r [w' [Hrun [Hfrom [Hto _]]]]].
  exists r, w'. split; [exact Hrun |]. split; [| exact Hfrom].
  apply (Hto _ (chunkOf citationB) citationB eq_refl).
  - right. left. reflexivity.
  - eexists. repeat split; vm_compute; discriminate.
Defined.

Lemma typed_accepted : generateAccepted (store typed).
Proof. split; [reflexivity | left; vm_compute; discriminate]. Defined.

Lemma generation_cycle_events_witness :
  exists evs,
    trace (invoke (handleGenerate world) typed) = trace typed ++ evs /\
    List.length evs = 5 /\
    modelRequests evs
    = [researchOf (store typed); imageOf (store typed) researchResponse] /\
    uploadsStarted evs
    = [(lit "data:image/png;base64,iVBORw0KGgo=", lit "1730000000002")].
Proof.
  destruct (generation_cycle_events world typed typed_accepted)
    as [evs [Htrace [_ [_ Hok]]]].
  destruct (Hok researchResponse (lit "data:image/png;base64,iVBORw0KGgo=")
              eq_refl eq_refl)
    as [img [Hh [_ [Hevs [Hup _]]]]].
  exists evs. split; [exact Htrace |].
  assert (imageHistory (store (invoke (handleGenerate world) typed))
          = [firstImage]) as E by reflexivity.
  rewrite E in Hh. injection Hh as <-.
  rewrite Hevs. repeat split.
Defined.

Lemma upload_of_a_new_image_witness :
  exists evs rest,
    uploadInBackground world configured
      (lit "data:image/png;base64,iVBORw0KGgo=") (lit "1730000000002")
      afterGenerate
    = (Returned tt,
       {| store := withIsSyncing false (store afterGenerate);
          trace := trace afterGenerate ++ evs |}) /\
    evs = FetchData (lit "data:image/png;base64,iVBORw0KGgo=")
          :: FetchPost
               (lit "https://storage.googleapis.com/upload/storage/v1/b/infographics/o?uploadType=media&name=infographic_1730000000002.png")
               (lit "Bearer ya29.token") (lit "image/png")
               [137; 80; 78; 71]%N
          :: rest.
Proof.
  destruct (@upload_of_a_new_image world configured typed afterGenerate
              (lit "data:image/png;base64,iVBORw0KGgo="))
    as [img [evs [Hh [Hrun [_ [_ [_ [_ [_ Hon]]]]]]]]].
  - apply produces_generate; [exact typed_accepted | reflexivity].
  - assert (imageHistory (store afterGenerate) = [firstImage]) as E
      by reflexivity.
    rewrite E in Hh. injection Hh as <-.
    destruct (Hon eq_refl [137; 80; 78; 71]%N eq_refl) as [rest [Hevs _]].
    exists evs, rest. split; [exact Hrun |]. rewrite Hevs. reflexivity.
Defined.

Lemma selectArchived_shows_the_image_witness :
  activeImage (store renewed) = None /\
  activeImage
    (withActiveImageId (JStr (GeneratedImage.id generatedImage))
       (store renewed))
  = Some generatedImage.
Proof.
  assert (imageHistory (store renewed) = [editedImage; generatedImage]) as E
    by (vm_compute; reflexivity).
  split; [vm_compute; reflexivity |].
  destruct (@selectArchived_shows_the_image world renewed generatedImage)
    as [current [_ [Hact [_ [Hsame _]]]]].
  - rewrite E. right. left. reflexivity.
  - rewrite Hact. f_equal. apply Hsame. rewrite E.
    repeat constructor; vm_compute; intuition discriminate.
Defined.




Lemma uploader_revisions_make_the_same_requests_witness :
  exists result evs evs',
    StorageService.uploadToGCS world configured
      (lit "data:image/png;base64,iVBORw0KGgo=") (lit "1730000000002") typed
    = (Returned result, {| store := store typed; trace := trace typed ++ evs |}) /\
    StorageServiceEnvOnly.uploadToGCS world configured
      (lit "data:image/png;base64,iVBORw0KGgo=") (lit "1730000000002") typed
    = (Returned tt, {| store := store typed; trace := trace typed ++ evs' |}) /\
    filter isRequest evs = filter isRequest evs'.
Proof.
  destruct (@uploader_revisions_make_the_same_requests AppState world
              configured (lit "data:image/png;base64,iVBORw0KGgo=")
              (lit "1730000000002") typed eq_refl eq_refl)
    as [result [evs [evs' [H1 [H2 [H3 _]]]]]].
  exists result, evs, evs'. auto.
Defined.

(** Three files are selected and the second is one byte too large: nothing
    is read, and the error names that file. *)
Lemma handleFileUpload_size_limit_witness :
  fst (handleFileUpload (Some [notes; thesis; readme]) typed) = Returned [] /\
  error (store (snd (handleFileUpload (Some [notes; thesis; readme]) typed)))
  = JStr (lit "File " ++ quote ++ lit "thesis.txt" ++ quote
          ++ lit " is too large. Please upload files smaller than 1MB.") /\
  fst (handleFileUpload (Some [notes; readme]) typed)
  = Returned [notes; readme].
Proof.
  destruct (handleFileUpload_size_limit (Some [notes; thesis; readme]) typed)
    as [started [s' [Hrun [_ [_ [_ [Hbig _]]]]]]].
  destruct (Hbig [notes] thesis [readme] eq_refl) as [Hs [He _]].
  - intros f [<- | []]. vm_compute. discriminate.
  - reflexivity.
  - rewrite Hrun. cbn [fst snd store]. rewrite Hs, He.
    split; [reflexivity |]. split; [reflexivity |].
    vm_compute. reflexivity.
Defined.

Lemma cycles_always_settle_witness :
  fst (handleGenerate halfWorld (store typed) typed) = Returned tt /\
  isLoading (store (invoke (handleGenerate halfWorld) typed)) = false /\
  loadingStep (store (invoke (handleGenerate halfWorld) typed)) = 0%N /\
  topic (store (invoke (handleGenerate halfWorld) typed)) = topic (store typed).
Proof.
  destruct (cycles_always_settle halfWorld typed []) as [H1 [_ [H3 _]]].
  destruct (H3 typed_accepted) as [Hl [Hs Hin]].
  split; [exact H1 |]. split; [exact Hl |]. split; [exact Hs |].
  apply Hin.
Defined.

Lemma afterGenerate_editable : editAccepted (store afterGenerate) firstImage.
Proof. split; vm_compute; reflexivity. Defined.

Lemma edit_cycle_events_witness :
  exists img,
    imageHistory
      (store (invoke (fun s => handleEdit world s (lit "make it blue"))
                afterGenerate))
    = img :: imageHistory (store afterGenerate) /\
    trace (invoke (fun s => handleEdit world s (lit "make it blue"))
             afterGenerate)
    = trace afterGenerate
      ++ [GenerateContent
            (editRequest (GeneratedImage.data firstImage)
               (lit "make it blue"));
          DateNow; DateNow;
          StartUpload (lit "data:image/png;base64,iVBORw0KGgo=")
            (GeneratedImage.id img)].
Proof.
  destruct (edit_cycle_events world afterGenerate (lit "make it blue"))
    as [_ H].
  destruct (H firstImage afterGenerate_editable) as [_ Hok].
  destruct (Hok (lit "data:image/png;base64,iVBORw0KGgo="))
    as [img [Hh [_ [Ht _]]]]; [vm_compute; reflexivity |].
  exists img. split; [exact Hh | exact Ht].
Defined.

Lemma new_image_records_the_request_witness :
  imageHistory (store (invoke (handleGenerate world) typed)) = [firstImage] /\
  imageHistory
    (store (invoke (fun s => handleEdit world s (lit "make it blue"))
              afterGenerate))
  = [GeneratedImage.Build (lit "1730000000006")
       (lit "data:image/png;base64,iVBORw0KGgo=") (lit "make it blue")
       1730000000007 highSchool defaultStyle english (lit "16:9") (lit "1K");
     firstImage].
Proof.
  destruct (new_image_records_the_request world typed) as [Hg _].
  destruct (new_image_records_the_request world afterGenerate) as [_ He].
  split.
  - rewrite (Hg researchResponse (lit "data:image/png;base64,iVBORw0KGgo=")
               typed_accepted);
      vm_compute; reflexivity.
  - rewrite (He (lit "make it blue") firstImage
               (lit "data:image/png;base64,iVBORw0KGgo=")
               afterGenerate_editable);
      vm_compute; reflexivity.
Defined.

(** A second generation whose image step fails: the citations are those of
    the new research, beside the image of the first generation. *)
Lemma citations_follow_the_last_research_witness :
  let retried :=
    {| store := withCurrentSearchResults [] (store afterGenerate);
       trace := trace afterGenerate |} in
  let s' := store (invoke (handleGenerate halfWorld) retried) in
  currentSearchResults s' = [citationA2; citationB] /\
  imageHistory s' = [firstImage] /\
  activeImageId s' = JStr (GeneratedImage.id firstImage).
Proof.
  cbv zeta.
  set (retried := {| store := withCurrentSearchResults [] (store afterGenerate);
                     trace := trace afterGenerate |}).
  assert (generateAccepted (store retried)) as Ha
    by (split; [reflexivity | left; vm_compute; discriminate]).
  destruct (citations_follow_the_last_research halfWorld retried)
    as [H _].
  destruct (H Ha) as [_ Hans].
  destruct (Hans researchResponse) as [_ [Hc Hfail]];
    [vm_compute; reflexivity |].
  destruct (Hfail (Error (lit "The model is overloaded.")))
    as [Hh Hact]; [vm_compute; reflexivity |].
  split; [rewrite Hc; vm_compute; reflexivity |].
  split; [rewrite Hh | rewrite Hact]; vm_compute; reflexivity.
Defined.

Lemma url_sources_are_added_and_removed_witness :
  let added :=
    ContextSource.Build (lit "k3j9x0q2a") ContextSource.url
      (lit "https://example.org/photosynthesis")
      (lit "https://example.org/photosynthesis") in
  exists s',
    handleUrlSubmit (store urlTyped) (lit "k3j9x0q2a") urlTyped
    = (Returned tt, {| store := s'; trace := [] |}) /\
    contextSources s' = [added] /\
    generateAccepted s' /\
    contextSources
      (store (snd (removeContextSource (lit "k3j9x0q2a")
                     {| store := s'; trace := [] |})))
    = [].
Proof.
  cbv zeta.
  destruct (url_sources_are_added_and_removed urlTyped (lit "k3j9x0q2a"))
    as [_ [H _]].
  destruct H as [s' [Hrun [Hc [_ [_ [_ [_ [_ [_ [Hacc Hrem]]]]]]]]]];
    [vm_compute; discriminate |].
  exists s'. split; [exact Hrun |]. split; [exact Hc |].
  split; [apply Hacc; reflexivity |].
  apply Hrem. intros [].
Defined.

(** An access failure takes the key away and offers the selection of
    another; the selection gives it back and clears the error. *)
Lemma key_selection_is_offered_after_access_failures_witness :
  let denied := invoke (handleGenerate (failingWorld (lit "403 Forbidden")))
                  typed in
  offersKeySelection (store denied) = true /\
  hasApiKey (store denied) = false.
Proof.
  cbv zeta.
  destruct (key_selection_is_offered_after_access_failures
              (failingWorld (lit "403 Forbidden")) typed
              (Error (lit "403 Forbidden")))
    as [H _].
  rewrite (H typed_accepted eq_refl). split; vm_compute; reflexivity.
Defined.

Lemma api_key_is_checked_and_selected_witness :
  let denied := invoke (handleGenerate (failingWorld (lit "403 Forbidden")))
                  typed in
  exists s',
    handleSelectKey (Some studio) denied
    = (Returned tt, {| store := s'; trace := trace denied |}) /\
    hasApiKey s' = true /\ error s' = JNull /\ keyModalShown s' = false.
Proof.
  cbv zeta.
  destruct (api_key_is_checked_and_selected (Some studio)
              (invoke (handleGenerate (failingWorld (lit "403 Forbidden")))
                 typed))
    as [_ [_ [H _]]].
  destruct (H studio eq_refl eq_refl) as [s' [Hrun [Hk [He [Hm _]]]]].
  exists s'. auto.
Defined.

(** Both fields are filled in over an environment that is configured: the
    overrides win. *)
Lemma settings_dialog_saves_the_overrides_witness :
  let closed := snd (afterSave (snd (handleSave (lit "my-bucket")
                                       (lit "ya29.mine") page))) in
  storageStatus (app (store closed))
  = {| bucket := JStr (lit "my-bucket"); token := JStr (lit "ya29.mine");
       isConfigured := true; source := manual |} /\
  getGCSConfig (settings (store page))
  = {| bucket := JStr (lit "infographics"); token := JStr (lit "ya29.token");
       isConfigured := true; source := env |}.
Proof.
  cbv zeta.
  destruct (settings_dialog_saves_the_overrides (lit "my-bucket")
              (lit "ya29.mine") page)
    as [_ [_ [_ [_ [_ [_ [_ [_ [_ [_ [_ [Hs [_ [Hm _]]]]]]]]]]]]]].
  cbv zeta in Hs, Hm. rewrite Hs, Hm.
  - split; reflexivity.
  - vm_compute. discriminate.
  - vm_compute. discriminate.
Defined.

Lemma edit_and_fix_requests_witness :
  cleanBase64 (lit "data:image/webp;base64,UklGRg==")
  = lit "data:image/webp;base64,UklGRg==" /\
  cleanBase64 (lit "data:image/jpeg;base64,/9j/4AAQ") = lit "/9j/4AAQ".
Proof.
  destruct (@edit_and_fix_requests AppState world
              (lit "data:image/webp;base64,UklGRg==") [] typed)
    as [_ [Hkeep _]].
  destruct (@edit_and_fix_requests AppState world
              (lit "data:image/jpeg;base64,/9j/4AAQ") [] typed)
    as [Hstrip _].
  split.
  - apply Hkeep; reflexivity.
  - apply Hstrip. right. left. reflexivity.
Defined.

End MoreExamples.
